(** * DDL25: wallet ledger views and draw winners report

    A shallow embedding of the reporting code of the lottery platform:

    - [FinancialLedger] (two versions of the client ledger component),
    - [AdminWalletLedger] (the operator's mirrored ledger),
    - [WinnersReport] (prize computation and grouping by client).

    Numbers.  The code computes on JavaScript numbers, IEEE 754 binary64.
    Money that is stored (transaction amounts, balance-after snapshots,
    wallets, stakes) is fixed-point currency with two decimals and is given
    as [Z], counted in minor units; payout rates are given as rationals [Q].
    The views are embedded twice: [FinancialLedger],
    [FinancialLedgerCorrected], [AdminWalletLedger] and [WinnersReport]
    compute on these exact values, and the modules of [Binary64] compute on
    primitive floats, as the browser does.  Which rows a view lists, in
    which order and on which page, does not depend on the arithmetic and is
    proved on the exact embedding; what the figures of a view amount to
    once rounding is taken into account is proved on [Binary64].

    Time.  A [Date] is embedded as its epoch value in milliseconds ([Z]);
    the result of [getDateRange] is an optional pair of such instants. *)

From Stdlib Require Import List ZArith QArith Bool String Ascii Lia.
From Stdlib Require Import Permutation Sorted Qround.
From Stdlib Require Import Floats.
From Stdlib Require OrderedTypeEx.
Import ListNotations.

Local Open Scope Z_scope.

(** ** Data model (types/index.ts as the components use it) *)

Inductive TransactionType := Credit | Debit.

Definition TransactionType_eqb (a b : TransactionType) : bool :=
  match a, b with
  | Credit, Credit | Debit, Debit => true
  | _, _ => false
  end.

Record Transaction := mkTransaction {
  tx_id : string;
  tx_clientId : string;
  tx_type : TransactionType;
  tx_amount : Z;
  tx_balanceAfter : Z;
  tx_description : string;
  tx_createdAt : Z;
  tx_isReversed : bool
}.

Record DateRange := mkRange { range_start : Z; range_end : Z }.

(** ** Array helpers of the JavaScript runtime *)

Section ArrayHelpers.
Context {A : Type}.

(** [Array.prototype.sort] is stable; [le a b] says that the comparator
    does not put [b] strictly before [a]. *)
Fixpoint insert_by (le : A -> A -> bool) (x : A) (l : list A) : list A :=
  match l with
  | [] => [x]
  | y :: r => if le x y then x :: y :: r else y :: insert_by le x r
  end.

Fixpoint sort_by (le : A -> A -> bool) (l : list A) : list A :=
  match l with
  | [] => []
  | x :: r => insert_by le x (sort_by le r)
  end.

(** [Array.prototype.find]. *)
Fixpoint js_find (p : A -> bool) (l : list A) : option A :=
  match l with
  | [] => None
  | x :: r => if p x then Some x else js_find p r
  end.

(** [Array.prototype.slice(s, e)] with its treatment of negative and
    out-of-range indices. *)
Definition js_slice (s e : Z) (l : list A) : list A :=
  let len := Z.of_nat (List.length l) in
  let k := if s <? 0 then Z.max (len + s) 0 else Z.min s len in
  let fin := if e <? 0 then Z.max (len + e) 0 else Z.min e len in
  firstn (Z.to_nat (fin - k)) (skipn (Z.to_nat k) l).

(** [arr[arr.length - 1]] *)
Definition js_last (l : list A) : option A :=
  nth_error l (List.length l - 1).
End ArrayHelpers.

(** [Math.ceil(n / d)] for a length [n] and a positive page size [d]. *)
Definition ceil_div (n d : Z) : Z := (n + d - 1) / d.

Definition ITEMS_PER_PAGE : Z := 25.

(** ** Signed effect of a transaction on its owner's wallet *)

(** [tx.isReversed ? 0 : tx.amount] *)
Definition amountEffect (tx : Transaction) : Z :=
  if tx_isReversed tx then 0 else tx_amount tx.

Definition applyTx (runningBalance : Z) (tx : Transaction) : Z :=
  match tx_type tx with
  | Credit => runningBalance + amountEffect tx
  | Debit => runningBalance - amountEffect tx
  end.

Definition undoTx (runningBalance : Z) (tx : Transaction) : Z :=
  match tx_type tx with
  | Credit => runningBalance - amountEffect tx
  | Debit => runningBalance + amountEffect tx
  end.

(** The data-model invariant: the signed sum of the non-reversed
    transactions of one client (Credits add, Debits subtract). *)
Definition ownedBy (clientId : string) (t : Transaction) : bool :=
  String.eqb (tx_clientId t) clientId.

Definition signedAmount (tx : Transaction) : Z :=
  match tx_type tx with
  | Credit => tx_amount tx
  | Debit => - tx_amount tx
  end.

Definition signedSum (transactions : list Transaction) (clientId : string) : Z :=
  fold_right Z.add 0
    (map signedAmount
       (filter (fun t => ownedBy clientId t && negb (tx_isReversed t))
               transactions)).

(** ** FinancialLedger, version with opening and closing balances *)

Module FinancialLedger.

Record Row := mkRow { row_tx : Transaction; runningBalance : Z }.

Record Summary := mkSummary { totalCredit : Z; totalDebit : Z }.

Record View := mkView {
  paginatedTransactions : list Row;
  totalPages : Z;
  summary : Summary;
  openingBalance : Z;
  closingBalance : Z
}.

Definition oldest_first (a b : Transaction) : bool :=
  tx_createdAt a - tx_createdAt b <=? 0.

(** step 1 *)
Definition allClientTxs (transactions : list Transaction) (clientId : string) :=
  sort_by oldest_first (filter (ownedBy clientId) transactions).

Definition inPeriod (r : DateRange) (tx : Transaction) : bool :=
  (range_start r <=? tx_createdAt tx) && (tx_createdAt tx <? range_end r).

(** step 2 *)
Definition lastTxBeforePeriod (r : DateRange) (all : list Transaction) :=
  js_find (fun tx => tx_createdAt tx <? range_start r) (rev all).

Definition periodOpeningBalance (range : option DateRange)
           (all : list Transaction) : Z :=
  match range with
  | Some r =>
      match lastTxBeforePeriod r all with
      | Some tx => tx_balanceAfter tx
      | None => 0
      end
  | None => 0
  end.

Definition transactionsInPeriod (range : option DateRange)
           (all : list Transaction) : list Transaction :=
  match range with
  | Some r => filter (inPeriod r) all
  | None => all
  end.

(** Membership in the requested period: every transaction under the
    "all time" filter, [start <= createdAt < end] otherwise. *)
Definition inRequestedPeriod (range : option DateRange) (tx : Transaction) : bool :=
  match range with
  | Some r => inPeriod r tx
  | None => true
  end.

(** The opening balance in the words of the specification (section 4.6),
    to be compared with [periodOpeningBalance]: start from the current
    wallet, walk the client's transactions newest to oldest, and undo
    every transaction at or after the period start (a Credit is
    subtracted, a Debit added back, a reversed entry counts zero). *)
Definition reconstructedOpeningBalance (wallet : Z) (r : DateRange)
           (all : list Transaction) : Z :=
  fold_left undoTx
            (filter (fun tx => range_start r <=? tx_createdAt tx) (rev all))
            wallet.

(** step 3: the [map] whose callback updates [runningBalance] *)
Fixpoint withRunningBalance (rb : Z) (txs : list Transaction) : list Row :=
  match txs with
  | [] => []
  | tx :: rest =>
      let rb' := applyTx rb tx in
      mkRow tx rb' :: withRunningBalance rb' rest
  end.

(** [rows.length > 0 ? rows[rows.length - 1].runningBalance : opening];
    the inner [None] cannot occur, the array being non-empty there. *)
Definition periodClosingBalance (opening : Z) (rows : list Row) : Z :=
  if 0 <? Z.of_nat (List.length rows) then
    match js_last rows with
    | Some r => runningBalance r
    | None => opening
    end
  else opening.

(** step 4 *)
Definition sumAmounts (txs : list Transaction) : Z :=
  fold_left (fun sum tx => sum + tx_amount tx) txs 0.

Definition periodTotalCredit (txs : list Transaction) : Z :=
  sumAmounts (filter (fun tx => TransactionType_eqb (tx_type tx) Credit
                                && negb (tx_isReversed tx)) txs).

Definition periodTotalDebit (txs : list Transaction) : Z :=
  sumAmounts (filter (fun tx => TransactionType_eqb (tx_type tx) Debit
                                && negb (tx_isReversed tx)) txs).

Definition transactionsWithRunningBalance (transactions : list Transaction)
           (clientId : string) (range : option DateRange) : list Row :=
  let all := allClientTxs transactions clientId in
  withRunningBalance (periodOpeningBalance range all)
                     (transactionsInPeriod range all).

(** step 5 *)
Definition finalSortedTransactions (transactions : list Transaction)
           (clientId : string) (range : option DateRange) : list Row :=
  rev (transactionsWithRunningBalance transactions clientId range).

(** step 6 and the returned object *)
Definition ledger (transactions : list Transaction) (clientId : string)
           (range : option DateRange) (currentPage : Z) : View :=
  let all := allClientTxs transactions clientId in
  let opening := periodOpeningBalance range all in
  let inP := transactionsInPeriod range all in
  let rows := withRunningBalance opening inP in
  let closing := periodClosingBalance opening rows in
  let final := rev rows in
  let startIndex := (currentPage - 1) * ITEMS_PER_PAGE in
  {| paginatedTransactions :=
       js_slice startIndex (startIndex + ITEMS_PER_PAGE) final;
     totalPages := ceil_div (Z.of_nat (List.length final)) ITEMS_PER_PAGE;
     summary := mkSummary (periodTotalCredit inP) (periodTotalDebit inP);
     openingBalance := opening;
     closingBalance := closing |}.

End FinancialLedger.

(** ** Clients and the period filter *)

Inductive Role := Admin | ClientRole.

Definition Role_eqb (a b : Role) : bool :=
  match a, b with
  | Admin, Admin | ClientRole, ClientRole => true
  | _, _ => false
  end.

Inductive BettingCondition := First | Second.

(** [PrizeRate]: a field that is absent (or not a number) is [None]. *)
Record PrizeRate := mkPrizeRate {
  rate_first : option Q;
  rate_second : option Q
}.

(** [client.prizeRates]: the [POSITIONAL] table is keyed by digit count,
    every other table by the game type's key. *)
Record PrizeRates := mkPrizeRates {
  POSITIONAL : option (nat -> option PrizeRate);
  gameRates : string -> option PrizeRate
}.

Record Client := mkClient {
  client_id : string;
  client_clientId : string;
  client_username : string;
  client_role : Role;
  client_wallet : Z;
  client_prizeRates : option PrizeRates
}.

(** What [getDateRange] reads from the wall clock: the current instant and
    the local midnight of the day [n] days away from today. *)
Record Clock := mkClock {
  clock_now : Z;
  clock_startOfDay : Z -> Z
}.

Definition getDateRange (clk : Clock) (filter : string) : option DateRange :=
  let today := clock_startOfDay clk 0 in
  if String.eqb filter "today" then
    Some (mkRange today (clock_now clk + 1))
  else if String.eqb filter "last7" then
    Some (mkRange (clock_startOfDay clk (-6)) (clock_now clk + 1))
  else if String.eqb filter "last30" then
    Some (mkRange (clock_startOfDay clk (-29)) (clock_now clk + 1))
  else None.

(** [new Map(clients.map(c => [c.id, c])).get(id)]: a later client with the
    same id replaces an earlier one. *)
Definition clientMap_get (clients : list Client) (id : string) : option Client :=
  js_find (fun c => String.eqb (client_id c) id) (rev clients).

(** ** FinancialLedger, version that walks back from the wallet *)

Module FinancialLedgerCorrected.

Record Row := mkRow { row_tx : Transaction; correctedBalanceAfter : Z }.

Record Summary := mkSummary { totalCredit : Z; totalDebit : Z }.

Record Detailed := mkDetailed {
  detailedTransactions : list Row;
  summary : Summary
}.

Definition client (clients : list Client) (currentClient : option Client)
           (clientId : string) : option Client :=
  match currentClient with
  | Some c =>
      if Role_eqb (client_role c) ClientRole && String.eqb (client_id c) clientId
      then Some c
      else js_find (fun c => String.eqb (client_id c) clientId) clients
  | None => js_find (fun c => String.eqb (client_id c) clientId) clients
  end.

Definition newest_first (a b : Transaction) : bool :=
  tx_createdAt b - tx_createdAt a <=? 0.

Definition filteredTransactions (transactions : list Transaction)
           (clientId : string) (range : option DateRange) : list Transaction :=
  let clientTxs := sort_by newest_first (filter (ownedBy clientId) transactions) in
  match range with
  | None => clientTxs
  | Some r => filter (FinancialLedger.inPeriod r) clientTxs
  end.

(** the [map] whose callback updates [runningBalance] *)
Fixpoint withCorrectedBalance (rb : Z) (txs : list Transaction) : list Row :=
  match txs with
  | [] => []
  | tx :: rest => mkRow tx rb :: withCorrectedBalance (undoTx rb tx) rest
  end.

Definition detailed (filtered : list Transaction) (cl : option Client) : Detailed :=
  match cl with
  | None => mkDetailed [] (mkSummary 0 0)
  | Some c =>
      mkDetailed (withCorrectedBalance (client_wallet c) filtered)
                 (mkSummary (FinancialLedger.periodTotalCredit filtered)
                            (FinancialLedger.periodTotalDebit filtered))
  end.

Definition paginatedTransactions (d : Detailed) (currentPage : Z) : list Row :=
  let startIndex := (currentPage - 1) * ITEMS_PER_PAGE in
  js_slice startIndex (startIndex + ITEMS_PER_PAGE) (detailedTransactions d).

Definition totalPages (d : Detailed) : Z :=
  ceil_div (Z.of_nat (List.length (detailedTransactions d))) ITEMS_PER_PAGE.

Definition ledger (transactions : list Transaction) (clients : list Client)
           (currentClient : option Client) (clientId : string)
           (range : option DateRange) : Detailed :=
  detailed (filteredTransactions transactions clientId range)
           (client clients currentClient clientId).

End FinancialLedgerCorrected.

(** ** AdminWalletLedger *)

Module AdminWalletLedger.

Record Movement := mkMovement {
  originalTx : Transaction;
  movement : Z;
  mv_client : option Client
}.

Record Entry := mkEntry {
  entry_id : string;
  entry_createdAt : Z;
  entry_description : string;
  debit : Z;
  credit : Z;
  balanceAfter : Z;
  clientInfo : string
}.

Record Summary := mkSummary { totalCredit : Z; totalDebit : Z }.

Record View := mkView {
  paginatedEntries : list Entry;
  totalPages : Z;
  summary : Summary;
  openingBalance : Z;
  closingBalance : Z
}.

Definition allClientTxs (transactions : list Transaction) : list Transaction :=
  sort_by FinancialLedger.oldest_first transactions.

Definition mirror (clients : list Client) (tx : Transaction) : Movement :=
  let amount := if tx_isReversed tx then 0 else tx_amount tx in
  let mv := match tx_type tx with
            | Credit => - amount
            | Debit => amount
            end in
  mkMovement tx mv (clientMap_get clients (tx_clientId tx)).

Definition adminMovements (clients : list Client)
           (transactions : list Transaction) : list Movement :=
  map (mirror clients) (allClientTxs transactions).

Definition totalNetMovement (ms : list Movement) : Z :=
  fold_left (fun sum m => sum + movement m) ms 0.

(** [currentClient?.wallet || 0] *)
Definition currentWallet (currentClient : option Client) : Z :=
  match currentClient with
  | Some c => client_wallet c
  | None => 0
  end.

Definition adminWalletAtStartOfTime (currentClient : option Client)
           (ms : list Movement) : Z :=
  currentWallet currentClient - totalNetMovement ms.

(** One turn of the [for (const m of adminMovements)] loop on the pair
    [(periodOpeningBalance, movementsInPeriod)]. *)
Definition splitStep (range : option DateRange)
           (st : Z * list Movement) (m : Movement) : Z * list Movement :=
  let '(periodOpeningBalance, movementsInPeriod) := st in
  match range with
  | Some r =>
      if range_start r <=? tx_createdAt (originalTx m)
      then (periodOpeningBalance, movementsInPeriod ++ [m])
      else (periodOpeningBalance + movement m, movementsInPeriod)
  | None => (periodOpeningBalance, movementsInPeriod ++ [m])
  end.

Definition splitPeriod (range : option DateRange) (start : Z)
           (ms : list Movement) : Z * list Movement :=
  fold_left (splitStep range) ms (start, []).

(** The movements the loop pushes to [movementsInPeriod]:
    [(range && txDate >= range.start) || !range]. *)
Definition fromStart (range : option DateRange) (m : Movement) : bool :=
  match range with
  | Some r => range_start r <=? tx_createdAt (originalTx m)
  | None => true
  end.

Definition beforeEnd (range : option DateRange) (m : Movement) : bool :=
  match range with
  | None => true
  | Some r => tx_createdAt (originalTx m) <? range_end r
  end.

Definition clientInfoOf (c : option Client) : string :=
  match c with
  | Some c => (client_username c ++ " (" ++ client_clientId c ++ ")")%string
  | None => "N/A"%string
  end.

(** the [map] whose callback updates [runningBalance] *)
Fixpoint toEntries (rb : Z) (ms : list Movement) : list Entry :=
  match ms with
  | [] => []
  | m :: rest =>
      let rb' := rb + movement m in
      mkEntry (tx_id (originalTx m)) (tx_createdAt (originalTx m))
              (tx_description (originalTx m))
              (if movement m <? 0 then - movement m else 0)
              (if 0 <? movement m then movement m else 0)
              rb' (clientInfoOf (mv_client m))
      :: toEntries rb' rest
  end.

Definition ledgerEntriesInPeriod (clients : list Client)
           (currentClient : option Client) (transactions : list Transaction)
           (range : option DateRange) : list Entry :=
  let ms := adminMovements clients transactions in
  let '(opening, inP) :=
    splitPeriod range (adminWalletAtStartOfTime currentClient ms) ms in
  toEntries opening (filter (beforeEnd range) inP).

(** [entries.length > 0 ? entries[entries.length - 1].balanceAfter : opening];
    the inner [None] cannot occur, the array being non-empty there. *)
Definition periodClosingBalance (opening : Z) (entries : list Entry) : Z :=
  if 0 <? Z.of_nat (List.length entries) then
    match js_last entries with
    | Some e => balanceAfter e
    | None => opening
    end
  else opening.

Definition ledger (clients : list Client) (currentClient : option Client)
           (transactions : list Transaction) (range : option DateRange)
           (currentPage : Z) : View :=
  let ms := adminMovements clients transactions in
  let '(opening, inP) :=
    splitPeriod range (adminWalletAtStartOfTime currentClient ms) ms in
  let entries := toEntries opening (filter (beforeEnd range) inP) in
  let closing := periodClosingBalance opening entries in
  let final := rev entries in
  let startIndex := (currentPage - 1) * ITEMS_PER_PAGE in
  {| paginatedEntries :=
       js_slice startIndex (startIndex + ITEMS_PER_PAGE) final;
     totalPages := ceil_div (Z.of_nat (List.length final)) ITEMS_PER_PAGE;
     summary :=
       mkSummary (fold_left (fun sum e => sum + credit e) entries 0)
                 (fold_left (fun sum e => sum + debit e) entries 0);
     openingBalance := opening;
     closingBalance := closing |}.

End AdminWalletLedger.

(** ** WinnersReport *)

Module WinnersReport.

(** [GameType]: the positional game and the games whose rate table is
    found under their own key. *)
Inductive GameType := Positional | Game (key : string).

Record Bet := mkBet {
  bet_id : string;
  bet_clientId : string;
  bet_drawId : string;
  bet_gameType : GameType;
  bet_condition : BettingCondition;
  bet_number : string;
  bet_stake : Z
}.

Record WinningBetDetail := mkDetail {
  wd_bet : Bet;
  wd_client : Client;
  wd_prizeWon : Q
}.

Record GroupedWinner := mkGroup {
  gw_client : Client;
  gw_totalWon : Q;
  gw_bets : list (Bet * Q)
}.

(** [/\d/] *)
Definition isDigit (c : ascii) : bool :=
  let n := nat_of_ascii c in (48 <=? n)%nat && (n <=? 57)%nat.

(** [(bet.number.match(/\d/g) || []).length] *)
Fixpoint digitCount (s : string) : nat :=
  match s with
  | EmptyString => 0%nat
  | String c r => ((if isDigit c then 1 else 0) + digitCount r)%nat
  end.

(** [entry[conditionKey]] with [conditionKey = bet.condition.toLowerCase()] *)
Definition byCondition (cond : BettingCondition) (r : PrizeRate) : option Q :=
  match cond with
  | First => rate_first r
  | Second => rate_second r
  end.

(** The value of [rate] when the comparison [rate > 0] is reached:
    [None] is JavaScript's [undefined]. *)
Definition resolveRate (rates : PrizeRates) (b : Bet) : option Q :=
  match bet_gameType b with
  | Positional =>
      match POSITIONAL rates with
      | Some positionalRates =>
          match positionalRates (digitCount (bet_number b)) with
          | Some entry => byCondition (bet_condition b) entry
          | None => Some 0%Q
          end
      | None => Some 0%Q
      end
  | Game key =>
      match gameRates rates key with
      | Some gamePrizeRates =>
          match byCondition (bet_condition b) gamePrizeRates with
          | Some q => Some q
          | None => Some 0%Q
          end
      | None => Some 0%Q
      end
  end.

(** [rate > 0] *)
Definition ratePositive (rate : option Q) : bool :=
  match rate with
  | Some q => negb (Qle_bool q 0)
  | None => false
  end.

(** [bet.stake * (rate / 100)] *)
Definition prizeOf (stake : Z) (rate : Q) : Q :=
  (inject_Z stake * (rate / 100))%Q.

Record WinnersData := mkWinnersData {
  winners : list WinningBetDetail;
  totalPayout : Q
}.

Section Draws.
(** [utils/helpers.ts] and the type of a draw's declared numbers are
    taken as parameters. *)
Variable WinningNumbers : Type.
Variable isBetWinner : Bet -> WinningNumbers -> bool.

Record Draw := mkDraw {
  draw_id : string;
  draw_status : string;
  draw_winningNumbers : option WinningNumbers
}.

(** One turn of the [for (const bet of drawBets)] loop on the pair
    [(winningBets, totalPayout)]. *)
Definition settleStep (clients : list Client) (wn : WinningNumbers)
           (st : WinnersData) (bet : Bet) : WinnersData :=
  if isBetWinner bet wn then
    match clientMap_get clients (bet_clientId bet) with
    | None => st
    | Some client =>
        match client_prizeRates client with
        | None => st
        | Some rates =>
            let rate := resolveRate rates bet in
            if ratePositive rate then
              match rate with
              | Some r =>
                  let prizeWon := prizeOf (bet_stake bet) r in
                  mkWinnersData (winners st ++ [mkDetail bet client prizeWon])
                                (totalPayout st + prizeWon)%Q
              | None => st
              end
            else st
        end
    end
  else st.

(** A winner record as the loop builds it: the bet won, its client is
    the one found under the bet's client id, and the prize comes from a
    positive rate resolved in that client's rate table. *)
Definition awarded (clients : list Client) (wn : WinningNumbers)
           (w : WinningBetDetail) : Prop :=
  exists rates rate,
    isBetWinner (wd_bet w) wn = true
    /\ clientMap_get clients (bet_clientId (wd_bet w)) = Some (wd_client w)
    /\ client_prizeRates (wd_client w) = Some rates
    /\ resolveRate rates (wd_bet w) = Some rate
    /\ (0 < rate)%Q
    /\ wd_prizeWon w = prizeOf (bet_stake (wd_bet w)) rate.

Definition drawBets (betsByDraw : string -> option (list Bet)) (d : Draw)
  : list Bet :=
  match betsByDraw (draw_id d) with
  | Some l => l
  | None => []
  end.

Definition winnersData (clients : list Client)
           (betsByDraw : string -> option (list Bet))
           (draw : option Draw) : WinnersData :=
  match draw with
  | None => mkWinnersData [] 0%Q
  | Some d =>
      if negb (String.eqb (draw_status d) "FINISHED") then mkWinnersData [] 0%Q
      else
        match draw_winningNumbers d with
        | None => mkWinnersData [] 0%Q
        | Some wn =>
            fold_left (settleStep clients wn) (drawBets betsByDraw d)
                      (mkWinnersData [] 0%Q)
        end
  end.
End Draws.

(** The [Map<string, GroupedWinner>] of [groupedWinners]: an association
    list in insertion order, which is the order of [groups.values()]. *)
Definition Groups := list (string * GroupedWinner).

Fixpoint groups_has (key : string) (g : Groups) : bool :=
  match g with
  | [] => false
  | (k, _) :: r => String.eqb k key || groups_has key r
  end.

(** [group.totalWon += prizeWon; group.bets.push({ bet, prizeWon })] on the
    group stored under [key]. *)
Fixpoint groups_credit (key : string) (bet : Bet) (prizeWon : Q) (g : Groups)
  : Groups :=
  match g with
  | [] => []
  | (k, grp) :: r =>
      if String.eqb k key then
        (k, mkGroup (gw_client grp) (gw_totalWon grp + prizeWon)%Q
                    (gw_bets grp ++ [(bet, prizeWon)])) :: r
      else (k, grp) :: groups_credit key bet prizeWon r
  end.

Definition groupStep (g : Groups) (w : WinningBetDetail) : Groups :=
  let key := client_id (wd_client w) in
  let g' := if groups_has key g then g
            else g ++ [(key, mkGroup (wd_client w) 0%Q [])] in
  groups_credit key (wd_bet w) (wd_prizeWon w) g'.

Definition collectGroups (ws : list WinningBetDetail) : Groups :=
  fold_left groupStep ws [].

Definition highest_first (a b : GroupedWinner) : bool :=
  Qle_bool (gw_totalWon b - gw_totalWon a) 0.

Definition groupedWinners (ws : list WinningBetDetail) : list GroupedWinner :=
  sort_by highest_first (map snd (collectGroups ws)).


(** The three figures of the report's header cards. *)
Definition totalWinningBets (d : WinnersData) : nat :=
  List.length (winners d).

Definition totalUniqueWinners (ws : list WinningBetDetail) : nat :=
  List.length (groupedWinners ws).

End WinnersReport.

(** ** Scenario data

    The history of section 8 of the specification: a client funded with
    500 places three bets of 50, wins 45 on the second one, and the prize
    is later reversed; afterwards the client places one more bet of 20. *)

Module Scenario.

Definition entry (id : string) (type : TransactionType)
           (amount balanceAfter createdAt : Z) (isReversed : bool) : Transaction :=
  mkTransaction id "c1" type amount balanceAfter "" createdAt isReversed.

Definition history : list Transaction :=
  [ entry "t1" Credit 500 500 1 false;
    entry "t2" Debit 50 450 2 false;
    entry "t3" Debit 50 400 3 false;
    entry "t4" Debit 50 350 4 false;
    entry "t5" Credit 45 395 5 true;
    entry "t6" Debit 20 330 11 false ].

(** The wallet after the reversal and the last bet. *)
Definition wallet : Z := 330.

(** A period that starts after the reversed prize and holds the last bet. *)
Definition later : DateRange := mkRange 10 100.

(** A period that ends before the last bet. *)
Definition earlier : DateRange := mkRange 0 10.

(** A clock whose "today" filter is the period [later]. *)
Definition clock : Clock := mkClock 99 (fun n => 10 + n).

Definition singleFirst90 : PrizeRates :=
  mkPrizeRates
    (Some (fun digits => if Nat.eqb digits 2
                         then Some (mkPrizeRate (Some 80%Q) None)
                         else None))
    (fun key => if String.eqb key "SINGLE"
                then Some (mkPrizeRate (Some 90%Q) (Some 0%Q))
                else None).

Definition c1 : Client :=
  mkClient "c1" "C-001" "alice" ClientRole wallet (Some singleFirst90).

Definition operator : Client :=
  mkClient "a0" "A-000" "admin" Admin 1000 None.

Definition bet (id number : string) (game : WinnersReport.GameType)
           (cond : BettingCondition) : WinnersReport.Bet :=
  WinnersReport.mkBet id "c1" "d1" game cond number 50.

Definition bets : list WinnersReport.Bet :=
  [ bet "b1" "12" (WinnersReport.Game "SINGLE") First;
    bet "b2" "34" (WinnersReport.Game "SINGLE") First;
    bet "b3" "56" (WinnersReport.Game "SINGLE") First;
    bet "b4" "34" (WinnersReport.Game "SINGLE") Second;
    bet "b5" "3-4" WinnersReport.Positional First ].

(** A stand-in for [isBetWinner]: a bet wins when the digits of its number
    are the declared number. *)
Definition sameNumber (b : WinnersReport.Bet) (declared : string) : bool :=
  String.eqb (string_of_list_ascii
                (filter WinnersReport.isDigit
                        (list_ascii_of_string (WinnersReport.bet_number b))))
             declared.

Definition draw : WinnersReport.Draw string :=
  WinnersReport.mkDraw string "d1" "FINISHED" (Some "34"%string).

Definition betsByDraw (id : string) : option (list WinnersReport.Bet) :=
  if String.eqb id "d1" then Some bets else None.

Definition report : WinnersReport.WinnersData :=
  WinnersReport.winnersData string sameNumber [c1] betsByDraw (Some draw).

End Scenario.

(** ** SiteWideLog (AdminFinancials.tsx) *)

Module SiteWideLog.

Definition paginatedTransactions (transactions : list Transaction)
           (currentPage : Z) : list Transaction :=
  let startIndex := (currentPage - 1) * ITEMS_PER_PAGE in
  js_slice startIndex (startIndex + ITEMS_PER_PAGE) transactions.

Definition totalPages (transactions : list Transaction) : Z :=
  ceil_div (Z.of_nat (List.length transactions)) ITEMS_PER_PAGE.

(** [if (newPage >= 1 && newPage <= totalPages) setCurrentPage(newPage)];
    the same handler serves the FinancialLedger that walks back from the
    wallet. *)
Definition handlePageChange (totalPages currentPage newPage : Z) : Z :=
  if (1 <=? newPage) && (newPage <=? totalPages) then newPage else currentPage.

End SiteWideLog.

(** The page numbers [1, ..., n] offered by the pager. *)
Definition pageNumbers (n : Z) : list Z :=
  map (fun i => Z.of_nat i + 1) (seq 0 (Z.to_nat n)).

(** ** WinnersReport with sortable columns (components/admin/WinnersReport.tsx)

    The prize computation of this version is the one of [WinnersReport];
    what it adds is the sorted table.  Strings are compared as sequences of
    character codes. *)

Module WinnersTable.

Inductive SortKey := ByClient | ByPrizeWon | ByStake.

Inductive Direction := Asc | Desc.

Record Sort := mkSort { sort_key : SortKey; sort_direction : Direction }.

Definition SortKey_eqb (a b : SortKey) : bool :=
  match a, b with
  | ByClient, ByClient | ByPrizeWon, ByPrizeWon | ByStake, ByStake => true
  | _, _ => false
  end.

Definition Direction_eqb (a b : Direction) : bool :=
  match a, b with
  | Asc, Asc | Desc, Desc => true
  | _, _ => false
  end.

(** [useState({ key: 'prizeWon', direction: 'desc' })] *)
Definition initialSort : Sort := mkSort ByPrizeWon Desc.

(** The two [if]s that end the comparator, on the outcomes of
    [valA < valB] and [valA > valB]. *)
Definition verdict (d : Direction) (lt gt : bool) : Z :=
  if lt then match d with Asc => -1 | Desc => 1 end
  else if gt then match d with Asc => 1 | Desc => -1 end
  else 0.

Definition Qltb (a b : Q) : bool := negb (Qle_bool b a).

Definition compareWinners (s : Sort)
           (a b : WinnersReport.WinningBetDetail) : Z :=
  match sort_key s with
  | ByClient =>
      let valA := client_username (WinnersReport.wd_client a) in
      let valB := client_username (WinnersReport.wd_client b) in
      verdict (sort_direction s) (String.ltb valA valB) (String.ltb valB valA)
  | ByStake =>
      let valA := WinnersReport.bet_stake (WinnersReport.wd_bet a) in
      let valB := WinnersReport.bet_stake (WinnersReport.wd_bet b) in
      verdict (sort_direction s) (valA <? valB) (valB <? valA)
  | ByPrizeWon =>
      let valA := WinnersReport.wd_prizeWon a in
      let valB := WinnersReport.wd_prizeWon b in
      verdict (sort_direction s) (Qltb valA valB) (Qltb valB valA)
  end.

Definition sortedWinners (s : Sort) (ws : list WinnersReport.WinningBetDetail)
  : list WinnersReport.WinningBetDetail :=
  sort_by (fun a b => compareWinners s a b <=? 0) ws.

(** [setSort(prev => ({ key, direction: prev.key === key &&
    prev.direction === 'desc' ? 'asc' : 'desc' }))] *)
Definition handleSort (key : SortKey) (prev : Sort) : Sort :=
  mkSort key
         (if SortKey_eqb (sort_key prev) key
             && Direction_eqb (sort_direction prev) Desc
          then Asc else Desc).

(** The order a column is meant to show: the compared value of [a] is at
    most that of [b]. *)
Definition keyLe (k : SortKey) (a b : WinnersReport.WinningBetDetail) : Prop :=
  match k with
  | ByClient =>
      String.leb (client_username (WinnersReport.wd_client a))
                 (client_username (WinnersReport.wd_client b)) = true
  | ByStake =>
      WinnersReport.bet_stake (WinnersReport.wd_bet a)
      <= WinnersReport.bet_stake (WinnersReport.wd_bet b)
  | ByPrizeWon =>
      (WinnersReport.wd_prizeWon a <= WinnersReport.wd_prizeWon b)%Q
  end.

(** The order in which a sort state lists two rows. *)
Definition listedBefore (s : Sort)
           (a b : WinnersReport.WinningBetDetail) : Prop :=
  match sort_direction s with
  | Asc => keyLe (sort_key s) a b
  | Desc => keyLe (sort_key s) b a
  end.

End WinnersTable.

(** ** The expanded rows of the grouped WinnersReport

    [expandedWinners] is a [Set<string>]: a duplicate-free list in insertion
    order. *)

Module ExpandedWinners.

Definition set_has (id : string) (s : list string) : bool :=
  existsb (String.eqb id) s.

Definition set_delete (id : string) (s : list string) : list string :=
  filter (fun x => negb (String.eqb x id)) s.

Definition set_add (id : string) (s : list string) : list string :=
  if set_has id s then s else s ++ [id].

Definition handleToggleExpand (clientId : string) (prev : list string)
  : list string :=
  let newSet := prev in
  if set_has clientId newSet then set_delete clientId newSet
  else set_add clientId newSet.

End ExpandedWinners.

(** ** AppContext: the derived map and the state updaters *)

Module AppContext.

Definition BetsByDraw := list (string * list WinnersReport.Bet).

(** [map.get(key)] *)
Fixpoint map_get (key : string) (m : BetsByDraw) : option (list WinnersReport.Bet) :=
  match m with
  | [] => None
  | (k, v) :: r => if String.eqb k key then Some v else map_get key r
  end.

(** [drawBets.push(bet)] on the array stored under [key] *)
Fixpoint map_push (key : string) (bet : WinnersReport.Bet) (m : BetsByDraw)
  : BetsByDraw :=
  match m with
  | [] => []
  | (k, v) :: r =>
      if String.eqb k key then (k, v ++ [bet]) :: r
      else (k, v) :: map_push key bet r
  end.

Definition betsByDrawStep (m : BetsByDraw) (bet : WinnersReport.Bet) : BetsByDraw :=
  match map_get (WinnersReport.bet_drawId bet) m with
  | Some _ => map_push (WinnersReport.bet_drawId bet) bet m
  | None => m ++ [(WinnersReport.bet_drawId bet, [bet])]
  end.

Definition betsByDraw (bets : list WinnersReport.Bet) : BetsByDraw :=
  fold_left betsByDrawStep bets [].

(** The bets placed on one draw. *)
Definition forDraw (drawId : string) (b : WinnersReport.Bet) : bool :=
  String.eqb (WinnersReport.bet_drawId b) drawId.

(** [prev.map(c => c.id === clientId ? updatedClient : c)] *)
Definition replaceClient (clientId : string) (updatedClient : Client)
           (prev : list Client) : list Client :=
  map (fun c => if String.eqb (client_id c) clientId then updatedClient else c)
      prev.

End AppContext.

(** ** Countdown

    [difference] is a whole number of milliseconds; the divisions and the
    remainders are taken over the rationals, as the code takes them over
    the reals. *)

Module Countdown.

Record TimeLeft := mkTimeLeft { hours : Z; minutes : Z; seconds : Z }.

(** [Math.trunc] *)
Definition Qtrunc (x : Q) : Z :=
  if Qle_bool 0 x then Qfloor x else Qceiling x.

(** [x % m]: [x - m * trunc(x / m)] *)
Definition js_rem (x m : Q) : Q :=
  (x - m * inject_Z (Qtrunc (x / m)))%Q.

Definition calculateTimeLeft (targetDate now : Z) : option TimeLeft :=
  let difference := targetDate - now in
  if 0 <? difference then
    Some (mkTimeLeft
            (Qfloor (inject_Z difference / (1000 * 60 * 60)))
            (Qfloor (js_rem (inject_Z difference / 1000 / 60) 60))
            (Qfloor (js_rem (inject_Z difference / 1000) 60)))
  else None.

End Countdown.

(** ** Which bets the report pays

    The conditions under which the loop of [winnersData] pushes a bet,
    gathered into one test. *)

Definition paysPrize (WinningNumbers : Type)
           (isBetWinner : WinnersReport.Bet -> WinningNumbers -> bool)
           (clients : list Client) (wn : WinningNumbers)
           (bet : WinnersReport.Bet) : bool :=
  isBetWinner bet wn
  && match clientMap_get clients (WinnersReport.bet_clientId bet) with
     | None => false
     | Some client =>
         match client_prizeRates client with
         | None => false
         | Some rates =>
             WinnersReport.ratePositive (WinnersReport.resolveRate rates bet)
         end
     end.

(** ** Further scenario data *)

Module MoreScenario.

(** The client of the scenario after a deposit of 170. *)
Definition c1Topped : Client :=
  mkClient "c1" "C-001" "alice" ClientRole 500 (Some Scenario.singleFirst90).

(** A period that starts with the reversed prize. *)
Definition fromPrize : DateRange := mkRange 5 100.

(** Page numbers a user might ask for, some of them out of range. *)
Definition requests : list Z := [0; 5; 1; -3; 2].

End MoreScenario.

(** ** The numbers of the browser: binary64

    Amounts reach the components through [Number(...)] (AppContext), and
    every sum, difference, product and quotient of the views is taken on
    JavaScript numbers, that is, on IEEE 754 binary64.  The modules of
    [Binary64] repeat the arithmetic of the views on primitive floats.
    They take the same inputs as the modules above, an amount being the
    decimal that the API delivers, counted in minor units, and they share
    the sorting and the filtering of those modules, which read dates and
    identifiers only. *)

Module Binary64.
Local Open Scope float_scope.

(** An integer as a double; the conversion is exact below 2^53. *)
Definition ofZ (z : Z) : float :=
  match z with
  | Z0 => 0
  | Zpos _ => of_uint63 (Uint63.of_Z z)
  | Zneg p => - of_uint63 (Uint63.of_Z (Zpos p))
  end.

(** [Number(x)] for a decimal [x] with two fraction digits, given in minor
    units: the double nearest to [minor / 100], which is what the quotient
    of the two integers rounds to. *)
Definition toNumber (minor : Z) : float := ofZ minor / 100.

(** A number of a JSON rate table, given as a fraction. *)
Definition rateNumber (q : Q) : float := ofZ (Qnum q) / ofZ (Zpos (Qden q)).

(** [x || 0]: zero, minus zero and NaN are falsy. *)
Definition orZero (x : float) : float :=
  if (x =? 0) || is_nan x then 0 else x.

(** A left-to-right computation on doubles is true to the decimals when
    every step, taken from the double of the exact intermediate result,
    lands on the double of the next exact result: rounding never shows. *)
Fixpoint exactFold {A : Type} (stepF : float -> A -> float)
         (stepZ : Z -> A -> Z) (z : Z) (l : list A) : Prop :=
  match l with
  | [] => True
  | x :: rest =>
      stepF (toNumber z) x = toNumber (stepZ z x)
      /\ exactFold stepF stepZ (stepZ z x) rest
  end.

(** *** FinancialLedger, version with opening and closing balances *)

Module ClientLedger.

Record Row := mkRow { row_tx : Transaction; runningBalance : float }.

Record Summary := mkSummary { totalCredit : float; totalDebit : float }.

Record View := mkView {
  paginatedTransactions : list Row;
  totalPages : Z;
  summary : Summary;
  openingBalance : float;
  closingBalance : float
}.

(** [tx.isReversed ? 0 : tx.amount] *)
Definition amountEffect (tx : Transaction) : float :=
  if tx_isReversed tx then 0 else toNumber (tx_amount tx).

(** [runningBalance += amountEffect] for a Credit, [-=] for a Debit *)
Definition applyTx (runningBalance : float) (tx : Transaction) : float :=
  match tx_type tx with
  | Credit => runningBalance + amountEffect tx
  | Debit => runningBalance - amountEffect tx
  end.

(** step 2 *)
Definition periodOpeningBalance (range : option DateRange)
           (all : list Transaction) : float :=
  match range with
  | Some r =>
      match FinancialLedger.lastTxBeforePeriod r all with
      | Some tx => toNumber (tx_balanceAfter tx)
      | None => 0
      end
  | None => 0
  end.

(** step 3 *)
Fixpoint withRunningBalance (rb : float) (txs : list Transaction) : list Row :=
  match txs with
  | [] => []
  | tx :: rest =>
      let rb' := applyTx rb tx in
      mkRow tx rb' :: withRunningBalance rb' rest
  end.

Definition periodClosingBalance (opening : float) (rows : list Row) : float :=
  if (0 <? Z.of_nat (List.length rows))%Z then
    match js_last rows with
    | Some r => runningBalance r
    | None => opening
    end
  else opening.

(** step 4: [.reduce((sum, tx) => sum + tx.amount, 0)] *)
Definition sumAmounts (txs : list Transaction) : float :=
  fold_left (fun sum tx => sum + toNumber (tx_amount tx)) txs 0.

Definition liveCredit (tx : Transaction) : bool :=
  TransactionType_eqb (tx_type tx) Credit && negb (tx_isReversed tx).

Definition liveDebit (tx : Transaction) : bool :=
  TransactionType_eqb (tx_type tx) Debit && negb (tx_isReversed tx).

Definition periodTotalCredit (txs : list Transaction) : float :=
  sumAmounts (filter liveCredit txs).

Definition periodTotalDebit (txs : list Transaction) : float :=
  sumAmounts (filter liveDebit txs).

Definition transactionsWithRunningBalance (transactions : list Transaction)
           (clientId : string) (range : option DateRange) : list Row :=
  let all := FinancialLedger.allClientTxs transactions clientId in
  withRunningBalance (periodOpeningBalance range all)
                     (FinancialLedger.transactionsInPeriod range all).

(** steps 5 and 6 and the returned object *)
Definition ledger (transactions : list Transaction) (clientId : string)
           (range : option DateRange) (currentPage : Z) : View :=
  let all := FinancialLedger.allClientTxs transactions clientId in
  let opening := periodOpeningBalance range all in
  let inP := FinancialLedger.transactionsInPeriod range all in
  let rows := withRunningBalance opening inP in
  let closing := periodClosingBalance opening rows in
  let final := rev rows in
  let startIndex := ((currentPage - 1) * ITEMS_PER_PAGE)%Z in
  {| paginatedTransactions :=
       js_slice startIndex (startIndex + ITEMS_PER_PAGE)%Z final;
     totalPages := ceil_div (Z.of_nat (List.length final)) ITEMS_PER_PAGE;
     summary := mkSummary (periodTotalCredit inP) (periodTotalDebit inP);
     openingBalance := opening;
     closingBalance := closing |}.

End ClientLedger.

(** *** AdminWalletLedger *)

Module AdminLedger.

Record Movement := mkMovement {
  originalTx : Transaction;
  movement : float;
  mv_client : option Client
}.

Record Entry := mkEntry {
  entry_id : string;
  entry_createdAt : Z;
  entry_description : string;
  debit : float;
  credit : float;
  balanceAfter : float;
  clientInfo : string
}.

Record Summary := mkSummary { totalCredit : float; totalDebit : float }.

Record View := mkView {
  paginatedEntries : list Entry;
  totalPages : Z;
  summary : Summary;
  openingBalance : float;
  closingBalance : float
}.

(** [movement = -amount] for a client Credit, [+amount] for a Debit *)
Definition mirror (clients : list Client) (tx : Transaction) : Movement :=
  let amount := if tx_isReversed tx then 0 else toNumber (tx_amount tx) in
  let mv := match tx_type tx with
            | Credit => - amount
            | Debit => amount
            end in
  mkMovement tx mv (clientMap_get clients (tx_clientId tx)).

Definition adminMovements (clients : list Client)
           (transactions : list Transaction) : list Movement :=
  map (mirror clients) (AdminWalletLedger.allClientTxs transactions).

(** [adminMovements.reduce((sum, m) => sum + m.movement, 0)] *)
Definition totalNetMovement (ms : list Movement) : float :=
  fold_left (fun sum m => sum + movement m) ms 0.

(** [currentClient?.wallet || 0] *)
Definition currentWallet (currentClient : option Client) : float :=
  match currentClient with
  | Some c => orZero (toNumber (client_wallet c))
  | None => 0
  end.

Definition adminWalletAtStartOfTime (currentClient : option Client)
           (ms : list Movement) : float :=
  currentWallet currentClient - totalNetMovement ms.

Definition splitStep (range : option DateRange)
           (st : float * list Movement) (m : Movement) : float * list Movement :=
  let '(periodOpeningBalance, movementsInPeriod) := st in
  match range with
  | Some r =>
      if (range_start r <=? tx_createdAt (originalTx m))%Z
      then (periodOpeningBalance, movementsInPeriod ++ [m])
      else (periodOpeningBalance + movement m, movementsInPeriod)
  | None => (periodOpeningBalance, movementsInPeriod ++ [m])
  end.

Definition splitPeriod (range : option DateRange) (start : float)
           (ms : list Movement) : float * list Movement :=
  fold_left (splitStep range) ms (start, []).

Definition beforeEnd (range : option DateRange) (m : Movement) : bool :=
  match range with
  | None => true
  | Some r => (tx_createdAt (originalTx m) <? range_end r)%Z
  end.

(** the [map] whose callback updates [runningBalance] *)
Fixpoint toEntries (rb : float) (ms : list Movement) : list Entry :=
  match ms with
  | [] => []
  | m :: rest =>
      let rb' := rb + movement m in
      mkEntry (tx_id (originalTx m)) (tx_createdAt (originalTx m))
              (tx_description (originalTx m))
              (if movement m <? 0 then - movement m else 0)
              (if 0 <? movement m then movement m else 0)
              rb' (AdminWalletLedger.clientInfoOf (mv_client m))
      :: toEntries rb' rest
  end.

Definition ledgerEntriesInPeriod (clients : list Client)
           (currentClient : option Client) (transactions : list Transaction)
           (range : option DateRange) : list Entry :=
  let ms := adminMovements clients transactions in
  let '(opening, inP) :=
    splitPeriod range (adminWalletAtStartOfTime currentClient ms) ms in
  toEntries opening (filter (beforeEnd range) inP).

Definition periodClosingBalance (opening : float) (entries : list Entry) : float :=
  if (0 <? Z.of_nat (List.length entries))%Z then
    match js_last entries with
    | Some e => balanceAfter e
    | None => opening
    end
  else opening.

Definition ledger (clients : list Client) (currentClient : option Client)
           (transactions : list Transaction) (range : option DateRange)
           (currentPage : Z) : View :=
  let ms := adminMovements clients transactions in
  let '(opening, inP) :=
    splitPeriod range (adminWalletAtStartOfTime currentClient ms) ms in
  let entries := toEntries opening (filter (beforeEnd range) inP) in
  let closing := periodClosingBalance opening entries in
  let final := rev entries in
  let startIndex := ((currentPage - 1) * ITEMS_PER_PAGE)%Z in
  {| paginatedEntries :=
       js_slice startIndex (startIndex + ITEMS_PER_PAGE)%Z final;
     totalPages := ceil_div (Z.of_nat (List.length final)) ITEMS_PER_PAGE;
     summary :=
       mkSummary (fold_left (fun sum e => sum + credit e) entries 0)
                 (fold_left (fun sum e => sum + debit e) entries 0);
     openingBalance := opening;
     closingBalance := closing |}.

End AdminLedger.

(** *** WinnersReport *)

Module Winners.

Record WinningBetDetail := mkDetail {
  wd_bet : WinnersReport.Bet;
  wd_client : Client;
  wd_prizeWon : float
}.

Record GroupedWinner := mkGroup {
  gw_client : Client;
  gw_totalWon : float;
  gw_bets : list (WinnersReport.Bet * float)
}.

Record WinnersData := mkWinnersData {
  winners : list WinningBetDetail;
  totalPayout : float
}.

(** The value of [rate] when [rate > 0] is reached, as a number. *)
Definition resolveRate (rates : PrizeRates) (b : WinnersReport.Bet)
  : option float :=
  option_map rateNumber (WinnersReport.resolveRate rates b).

(** [rate > 0]; the comparison is false on [undefined]. *)
Definition ratePositive (rate : option float) : bool :=
  match rate with
  | Some r => 0 <? r
  | None => false
  end.

(** [bet.stake * (rate / 100)] *)
Definition prizeOf (stake : Z) (rate : float) : float :=
  toNumber stake * (rate / 100).

Section Draws.
Variable WinningNumbers : Type.
Variable isBetWinner : WinnersReport.Bet -> WinningNumbers -> bool.

Definition settleStep (clients : list Client) (wn : WinningNumbers)
           (st : WinnersData) (bet : WinnersReport.Bet) : WinnersData :=
  if isBetWinner bet wn then
    match clientMap_get clients (WinnersReport.bet_clientId bet) with
    | None => st
    | Some client =>
        match client_prizeRates client with
        | None => st
        | Some rates =>
            let rate := resolveRate rates bet in
            if ratePositive rate then
              match rate with
              | Some r =>
                  let prizeWon := prizeOf (WinnersReport.bet_stake bet) r in
                  mkWinnersData (winners st ++ [mkDetail bet client prizeWon])
                                (totalPayout st + prizeWon)
              | None => st
              end
            else st
        end
    end
  else st.

Definition winnersData (clients : list Client)
           (betsByDraw : string -> option (list WinnersReport.Bet))
           (draw : option (WinnersReport.Draw WinningNumbers)) : WinnersData :=
  match draw with
  | None => mkWinnersData [] 0
  | Some d =>
      if negb (String.eqb (WinnersReport.draw_status _ d) "FINISHED")
      then mkWinnersData [] 0
      else
        match WinnersReport.draw_winningNumbers _ d with
        | None => mkWinnersData [] 0
        | Some wn =>
            fold_left (settleStep clients wn)
                      (WinnersReport.drawBets _ betsByDraw d)
                      (mkWinnersData [] 0)
        end
  end.

(** The conditions under which the loop pushes a bet, in one test. *)
Definition paysPrize (clients : list Client) (wn : WinningNumbers)
           (bet : WinnersReport.Bet) : bool :=
  isBetWinner bet wn
  && match clientMap_get clients (WinnersReport.bet_clientId bet) with
     | None => false
     | Some client =>
         match client_prizeRates client with
         | None => false
         | Some rates => ratePositive (resolveRate rates bet)
         end
     end.

(** A winner record as the loop builds it. *)
Definition awarded (clients : list Client) (wn : WinningNumbers)
           (w : WinningBetDetail) : Prop :=
  exists rates rate,
    isBetWinner (wd_bet w) wn = true
    /\ clientMap_get clients (WinnersReport.bet_clientId (wd_bet w))
       = Some (wd_client w)
    /\ client_prizeRates (wd_client w) = Some rates
    /\ resolveRate rates (wd_bet w) = Some rate
    /\ (0 <? rate) = true
    /\ wd_prizeWon w = prizeOf (WinnersReport.bet_stake (wd_bet w)) rate.
End Draws.

(** The [Map<string, GroupedWinner>] of [groupedWinners], in insertion
    order. *)
Definition Groups := list (string * GroupedWinner).

Fixpoint groups_has (key : string) (g : Groups) : bool :=
  match g with
  | [] => false
  | (k, _) :: r => String.eqb k key || groups_has key r
  end.

(** [group.totalWon += prizeWon; group.bets.push({ bet, prizeWon })] *)
Fixpoint groups_credit (key : string) (bet : WinnersReport.Bet)
         (prizeWon : float) (g : Groups) : Groups :=
  match g with
  | [] => []
  | (k, grp) :: r =>
      if String.eqb k key then
        (k, mkGroup (gw_client grp) (gw_totalWon grp + prizeWon)
                    (gw_bets grp ++ [(bet, prizeWon)])) :: r
      else (k, grp) :: groups_credit key bet prizeWon r
  end.

Definition groupStep (g : Groups) (w : WinningBetDetail) : Groups :=
  let key := client_id (wd_client w) in
  let g' := if groups_has key g then g
            else g ++ [(key, mkGroup (wd_client w) 0 [])] in
  groups_credit key (wd_bet w) (wd_prizeWon w) g'.

Definition collectGroups (ws : list WinningBetDetail) : Groups :=
  fold_left groupStep ws [].

(** [(a, b) => b.totalWon - a.totalWon] does not put [b] before [a] *)
Definition highest_first (a b : GroupedWinner) : bool :=
  negb (0 <? gw_totalWon b - gw_totalWon a).

Definition groupedWinners (ws : list WinningBetDetail) : list GroupedWinner :=
  sort_by highest_first (map snd (collectGroups ws)).






Definition totalWinningBets (d : WinnersData) : nat :=
  List.length (winners d).

Definition totalUniqueWinners (ws : list WinningBetDetail) : nat :=
  List.length (groupedWinners ws).

End Winners.

End Binary64.

(** The exact counterparts of the steps the admin ledger takes on doubles:
    adding the mirrored movement of a transaction. *)
Definition addMovement (clients : list Client) (sum : Z) (tx : Transaction) : Z :=
  sum + AdminWalletLedger.movement (AdminWalletLedger.mirror clients tx).

Definition addMovement64 (clients : list Client) (sum : float)
           (tx : Transaction) : float :=
  PrimFloat.add sum
    (Binary64.AdminLedger.movement (Binary64.AdminLedger.mirror clients tx)).

Definition addAmount (sum : Z) (tx : Transaction) : Z := sum + tx_amount tx.

Definition addAmount64 (sum : float) (tx : Transaction) : float :=
  PrimFloat.add sum (Binary64.toNumber (tx_amount tx)).

(** The client ledger of a period is true to the decimals: the replay from
    the opening balance, the two totals, and the two operations of
    [opening + totalCredit - totalDebit]. *)
Definition ledgerIsExact (opening : Z) (inP : list Transaction) : Prop :=
  let credits := FinancialLedger.periodTotalCredit inP in
  let debits := FinancialLedger.periodTotalDebit inP in
  Binary64.exactFold Binary64.ClientLedger.applyTx applyTx opening inP
  /\ Binary64.exactFold addAmount64 addAmount 0
       (filter Binary64.ClientLedger.liveCredit inP)
  /\ Binary64.exactFold addAmount64 addAmount 0
       (filter Binary64.ClientLedger.liveDebit inP)
  /\ PrimFloat.add (Binary64.toNumber opening) (Binary64.toNumber credits)
     = Binary64.toNumber (opening + credits)
  /\ PrimFloat.sub (Binary64.toNumber (opening + credits))
                   (Binary64.toNumber debits)
     = Binary64.toNumber (opening + credits - debits).

(** The admin ledger of all time is true to the decimals for a wallet
    [wallet]: the wallet is read as it is, and rounding shows neither in
    the total of the movements, nor in the subtraction that gives the
    opening balance, nor in the movements added back from there. *)
Definition adminIsExact (clients : list Client) (wallet : Z)
           (txs : list Transaction) : Prop :=
  let total := fold_left (addMovement clients) txs 0 in
  Binary64.orZero (Binary64.toNumber wallet) = Binary64.toNumber wallet
  /\ Binary64.exactFold (addMovement64 clients) (addMovement clients) 0 txs
  /\ PrimFloat.sub (Binary64.toNumber wallet) (Binary64.toNumber total)
     = Binary64.toNumber (wallet - total)
  /\ Binary64.exactFold (addMovement64 clients) (addMovement clients)
       (wallet - total) txs.


(** ** Scenarios on binary64

    Amounts with cents, on which rounding shows, and the history of the
    scenario in whole units of currency, on which it does not. *)

Module Cents.

Definition entry (id : string) (type : TransactionType)
           (amount balanceAfter createdAt : Z) : Transaction :=
  mkTransaction id "c1" type amount balanceAfter "" createdAt false.

(** Deposits of 0.10 and 0.20; the wallet holds 0.30. *)
Definition deposits : list Transaction :=
  [ entry "t1" Credit 10 10 1; entry "t2" Credit 20 30 2 ].

Definition depositor : Client :=
  mkClient "c1" "C-001" "alice" ClientRole 30 None.

(** A deposit of 0.10, a bet of 0.30, a deposit of 0.20. *)
Definition mixed : list Transaction :=
  [ entry "t1" Credit 10 10 1; entry "t2" Debit 30 (-20) 2;
    entry "t3" Credit 20 0 3 ].

(** Bets of 0.10 and 0.20 of a client, and an operator whose wallet
    holds 0.30. *)
Definition stakes : list Transaction :=
  [ entry "t1" Debit 10 90 1; entry "t2" Debit 20 70 2 ].

Definition operator : Client :=
  mkClient "a0" "A-000" "admin" Admin 30 None.

(** A client paid 10 for 100, with a stake of 3.00. *)
Definition tenPercent : PrizeRates :=
  mkPrizeRates None
    (fun key => if String.eqb key "SINGLE"
                then Some (mkPrizeRate (Some 10%Q) None)
                else None).

Definition carol : Client :=
  mkClient "c3" "C-003" "carol" ClientRole 0 (Some tenPercent).

Definition carolBet : WinnersReport.Bet :=
  WinnersReport.mkBet "b0" "c3" "d1" (WinnersReport.Game "SINGLE") First "34" 300.





Definition bets : list WinnersReport.Bet :=
  [ WinnersReport.mkBet "b1" "c4" "d1" (WinnersReport.Game "SINGLE") First "34" 700;
    WinnersReport.mkBet "b2" "c5" "d1" (WinnersReport.Game "SINGLE") First "34" 1500;
    WinnersReport.mkBet "b3" "c5" "d1" (WinnersReport.Game "SINGLE") Second "34" 200 ].

Definition betsByDraw (id : string) : option (list WinnersReport.Bet) :=
  if String.eqb id "d1" then Some bets else None.

Definition carolBets (id : string) : option (list WinnersReport.Bet) :=
  if String.eqb id "d1" then Some [carolBet] else None.

End Cents.

Module WholeUnits.

(** The history of the scenario with every amount a hundredfold: funded
    with 500.00, three bets of 50.00, a prize of 45.00 later reversed, a
    last bet of 20.00. *)
Definition history : list Transaction :=
  map (fun tx => mkTransaction (tx_id tx) (tx_clientId tx) (tx_type tx)
                   (100 * tx_amount tx) (100 * tx_balanceAfter tx)
                   (tx_description tx) (tx_createdAt tx) (tx_isReversed tx))
      Scenario.history.

Definition wallet : Z := 33000.

Definition c1 : Client :=
  mkClient "c1" "C-001" "alice" ClientRole wallet (Some Scenario.singleFirst90).

Definition operator : Client :=
  mkClient "a0" "A-000" "admin" Admin 100000 None.

Definition bets : list WinnersReport.Bet :=
  map (fun b => WinnersReport.mkBet
                  (WinnersReport.bet_id b) (WinnersReport.bet_clientId b)
                  (WinnersReport.bet_drawId b) (WinnersReport.bet_gameType b)
                  (WinnersReport.bet_condition b) (WinnersReport.bet_number b)
                  (100 * WinnersReport.bet_stake b))
      Scenario.bets.

Definition betsByDraw (id : string) : option (list WinnersReport.Bet) :=
  if String.eqb id "d1" then Some bets else None.

Definition report : Binary64.Winners.WinnersData :=
  Binary64.Winners.winnersData string Scenario.sameNumber [c1] betsByDraw
                               (Some Scenario.draw).


End WholeUnits.

(** * Properties *)

(** ** Generic facts: the stable sort, last element, pages *)

Section SortFacts.
Context {A : Type} (le : A -> A -> bool).

Lemma insert_by_perm (x : A) (l : list A) :
  Permutation (x :: l) (insert_by le x l).
Proof.
  induction l as [|y r IH]; simpl.
  - apply Permutation_refl.
  - destruct (le x y).
    + apply Permutation_refl.
    + eapply perm_trans; [apply perm_swap|]. now apply perm_skip.
Qed.

Lemma sort_by_perm (l : list A) : Permutation l (sort_by le l).
Proof.
  induction l as [|x r IH]; simpl.
  - constructor.
  - eapply perm_trans; [apply perm_skip, IH|]. apply insert_by_perm.
Qed.

Lemma sort_by_In (l : list A) (x : A) : In x (sort_by le l) <-> In x l.
Proof.
  split; intro H.
  - eapply Permutation_in; [apply Permutation_sym, sort_by_perm|exact H].
  - eapply Permutation_in; [apply sort_by_perm|exact H].
Qed.

Hypothesis le_total : forall a b, le a b = true \/ le b a = true.
Hypothesis le_trans : forall a b c, le a b = true -> le b c = true -> le a c = true.

Let ordered (a b : A) : Prop := le a b = true.

Lemma insert_by_sorted (x : A) (l : list A) :
  StronglySorted ordered l -> StronglySorted ordered (insert_by le x l).
Proof.
  induction 1 as [|y r Hs IH Hall]; simpl.
  - repeat constructor.
  - destruct (le x y) eqn:E.
    + constructor; [now constructor|].
      constructor; [exact E|].
      eapply Forall_impl; [|exact Hall].
      intros z Hz. exact (le_trans _ _ _ E Hz).
    + constructor; [exact IH|].
      assert (Hyx : ordered y x) by (destruct (le_total x y); [congruence|assumption]).
      eapply Permutation_Forall; [apply insert_by_perm|].
      now constructor.
Qed.

Lemma sort_by_sorted (l : list A) : StronglySorted ordered (sort_by le l).
Proof.
  induction l as [|x r IH]; simpl.
  - constructor.
  - now apply insert_by_sorted.
Qed.
End SortFacts.

Lemma StronglySorted_weaken {A : Type} (R S : A -> A -> Prop) (l : list A) :
  (forall a b, R a b -> S a b) -> StronglySorted R l -> StronglySorted S l.
Proof.
  intros HRS. induction 1 as [|x r _ IH Hall]; constructor.
  - exact IH.
  - eapply Forall_impl; [|exact Hall]. intros b Hb. now apply HRS.
Qed.

Section LastFacts.
Context {A : Type}.

Lemma js_last_cons (x y : A) (l : list A) : js_last (x :: y :: l) = js_last (y :: l).
Proof.
  unfold js_last. simpl. now rewrite Nat.sub_0_r.
Qed.

(** Every element of an array is on one of its pages. *)
Lemma js_slice_page (l : list A) (i : nat) (x : A) :
  nth_error l i = Some x ->
  let currentPage := Z.of_nat i / ITEMS_PER_PAGE + 1 in
  let startIndex := (currentPage - 1) * ITEMS_PER_PAGE in
  In x (js_slice startIndex (startIndex + ITEMS_PER_PAGE) l).
Proof.
  intros Hx currentPage startIndex.
  assert (Hi : (i < List.length l)%nat)
    by (apply nth_error_Some; congruence).
  unfold ITEMS_PER_PAGE in *.
  assert (Hs : startIndex <= Z.of_nat i < startIndex + 25).
  { subst startIndex currentPage.
    pose proof (Z.div_mod (Z.of_nat i) 25 ltac:(lia)) as Hd.
    pose proof (Z.mod_pos_bound (Z.of_nat i) 25 ltac:(lia)) as Hm.
    lia. }
  assert (H0 : 0 <= startIndex).
  { subst startIndex currentPage.
    pose proof (Z.div_pos (Z.of_nat i) 25 ltac:(lia) ltac:(lia)). lia. }
  unfold js_slice.
  destruct (startIndex <? 0) eqn:E1; [apply Z.ltb_lt in E1; lia|].
  destruct (startIndex + 25 <? 0) eqn:E2; [apply Z.ltb_lt in E2; lia|].
  rewrite (Z.min_l startIndex) by lia.
  set (n := Z.to_nat startIndex).
  set (m := Z.to_nat (Z.min (startIndex + 25) (Z.of_nat (List.length l)) - startIndex)).
  apply (nth_error_In _ (i - n)%nat).
  rewrite nth_error_firstn.
  assert (Hlt : (i - n < m)%nat) by (subst n m; lia).
  apply Nat.ltb_lt in Hlt. rewrite Hlt.
  rewrite nth_error_skipn.
  replace (n + (i - n))%nat with i by (subst n; lia).
  exact Hx.
Qed.
End LastFacts.

(** ** Sums of signed effects *)

(** The contribution of one transaction to a running balance:
    [+amount] for a Credit, [-amount] for a Debit, [0] once reversed. *)
Lemma applyTx_effect (rb : Z) (tx : Transaction) :
  applyTx rb tx = rb + applyTx 0 tx.
Proof. unfold applyTx. destruct (tx_type tx); lia. Qed.

Lemma applyTx_reversed (rb : Z) (tx : Transaction) :
  tx_isReversed tx = true -> applyTx rb tx = rb.
Proof.
  intro H. unfold applyTx, amountEffect. rewrite H. destruct (tx_type tx); lia.
Qed.

Lemma undoTx_reversed (rb : Z) (tx : Transaction) :
  tx_isReversed tx = true -> undoTx rb tx = rb.
Proof.
  intro H. unfold undoTx, amountEffect. rewrite H. destruct (tx_type tx); lia.
Qed.

Lemma replay_shift (txs : list Transaction) (rb : Z) :
  fold_left applyTx txs rb = rb + fold_left applyTx txs 0.
Proof.
  revert rb. induction txs as [|tx r IH]; intro rb; simpl.
  - lia.
  - rewrite (IH (applyTx rb tx)), (IH (applyTx 0 tx)), (applyTx_effect rb tx). lia.
Qed.

Lemma replay_perm (l1 l2 : list Transaction) :
  Permutation l1 l2 -> fold_left applyTx l1 0 = fold_left applyTx l2 0.
Proof.
  induction 1 as [|x l l' _ IH|x y l|l l' l'' _ IH1 _ IH2]; simpl.
  - reflexivity.
  - rewrite (replay_shift l), (replay_shift l'). now rewrite IH.
  - rewrite (replay_shift l (applyTx (applyTx 0 y) x)),
            (replay_shift l (applyTx (applyTx 0 x) y)).
    rewrite (applyTx_effect (applyTx 0 y) x), (applyTx_effect (applyTx 0 x) y). lia.
  - congruence.
Qed.

Lemma replay_signedSum (transactions : list Transaction) (clientId : string) :
  fold_left applyTx (filter (ownedBy clientId) transactions) 0
  = signedSum transactions clientId.
Proof.
  unfold signedSum.
  induction transactions as [|tx r IH]; simpl.
  - reflexivity.
  - destruct (ownedBy clientId tx); simpl; [|exact IH].
    rewrite replay_shift, IH.
    unfold applyTx, amountEffect, signedAmount.
    destruct (tx_isReversed tx); simpl; destruct (tx_type tx); lia.
Qed.

(** ** FinancialLedger: the replay and its totals *)

Section ClientLedgerFacts.
Import FinancialLedger.

Lemma sumAmounts_shift (txs : list Transaction) (z : Z) :
  fold_left (fun sum tx => sum + tx_amount tx) txs z = z + sumAmounts txs.
Proof.
  unfold sumAmounts. revert z.
  induction txs as [|tx r IH]; intro z; cbn -[Z.add].
  - lia.
  - rewrite (IH (z + tx_amount tx)), (IH (0 + tx_amount tx)). lia.
Qed.

Lemma replay_totals (txs : list Transaction) :
  fold_left applyTx txs 0 = periodTotalCredit txs - periodTotalDebit txs.
Proof.
  unfold periodTotalCredit, periodTotalDebit.
  induction txs as [|tx r IH]; simpl.
  - reflexivity.
  - rewrite replay_shift, IH.
    unfold applyTx, amountEffect.
    destruct (tx_type tx), (tx_isReversed tx); simpl;
      unfold sumAmounts; simpl; rewrite ?sumAmounts_shift;
      unfold sumAmounts; lia.
Qed.

Lemma withRunningBalance_txs (rb : Z) (txs : list Transaction) :
  map row_tx (withRunningBalance rb txs) = txs.
Proof.
  revert rb. induction txs as [|tx r IH]; intro rb; simpl; [reflexivity|].
  now rewrite IH.
Qed.

Lemma oldest_first_total (a b : Transaction) :
  oldest_first a b = true \/ oldest_first b a = true.
Proof. unfold oldest_first. rewrite !Z.leb_le. lia. Qed.

Lemma oldest_first_trans (a b c : Transaction) :
  oldest_first a b = true -> oldest_first b c = true -> oldest_first a c = true.
Proof. unfold oldest_first. rewrite !Z.leb_le. lia. Qed.

Lemma allClientTxs_chronological (transactions : list Transaction) (clientId : string) :
  StronglySorted (fun a b => tx_createdAt a <= tx_createdAt b)
                 (allClientTxs transactions clientId).
Proof.
  unfold allClientTxs.
  eapply StronglySorted_weaken;
    [|apply sort_by_sorted; [apply oldest_first_total|apply oldest_first_trans]].
  intros a b H. unfold oldest_first in H. apply Z.leb_le in H. lia.
Qed.
End ClientLedgerFacts.

(** ** AdminWalletLedger: the mirror rule and the fold *)

Section AdminLedgerFacts.
Import AdminWalletLedger.

Lemma totalNetMovement_shift (ms : list Movement) (z : Z) :
  fold_left (fun sum m => sum + movement m) ms z = z + totalNetMovement ms.
Proof.
  unfold totalNetMovement. revert z.
  induction ms as [|m r IH]; intro z; cbn -[Z.add].
  - lia.
  - rewrite (IH (z + movement m)), (IH (0 + movement m)). lia.
Qed.

Lemma totalNetMovement_cons (m : Movement) (ms : list Movement) :
  totalNetMovement (m :: ms) = movement m + totalNetMovement ms.
Proof.
  unfold totalNetMovement at 1. cbn -[Z.add].
  rewrite totalNetMovement_shift. lia.
Qed.

Lemma splitStep_cases (range : option DateRange) (z : Z)
      (acc : list Movement) (m : Movement) :
  splitStep range (z, acc) m
  = if fromStart range m then (z, acc ++ [m]) else (z + movement m, acc).
Proof. destruct range; reflexivity. Qed.

(** The loop splits the movements at the period start: what lies before
    is added to the opening balance, the rest is kept in order. *)
Lemma splitPeriod_spec (range : option DateRange) (ms acc : list Movement) (z : Z) :
  fold_left (splitStep range) ms (z, acc)
  = (z + totalNetMovement (filter (fun m => negb (fromStart range m)) ms),
     acc ++ filter (fromStart range) ms).
Proof.
  revert z acc. induction ms as [|m r IH]; intros z acc.
  - change (totalNetMovement (filter _ [])) with 0. simpl.
    now rewrite app_nil_r, Z.add_0_r.
  - cbn [fold_left filter]. rewrite splitStep_cases.
    destruct (fromStart range m); rewrite IH; cbn [negb].
    + now rewrite <- app_assoc.
    + rewrite totalNetMovement_cons. f_equal; lia.
Qed.

Lemma totalNetMovement_split (p : Movement -> bool) (ms : list Movement) :
  totalNetMovement ms
  = totalNetMovement (filter p ms)
    + totalNetMovement (filter (fun m => negb (p m)) ms).
Proof.
  induction ms as [|m r IH]; simpl.
  - reflexivity.
  - rewrite totalNetMovement_cons, IH.
    destruct (p m); simpl; rewrite totalNetMovement_cons; lia.
Qed.

Lemma toEntries_ids (rb : Z) (ms : list Movement) :
  map entry_id (toEntries rb ms) = map (fun m => tx_id (originalTx m)) ms.
Proof.
  revert rb. induction ms as [|m r IH]; intro rb; simpl; [reflexivity|].
  now rewrite IH.
Qed.

Lemma toEntries_length (rb : Z) (ms : list Movement) :
  List.length (toEntries rb ms) = List.length ms.
Proof.
  rewrite <- (length_map entry_id), toEntries_ids. apply length_map.
Qed.


Lemma last_entry_balance (rest : list Movement) (m : Movement) (rb dflt : Z) :
  match js_last (toEntries rb (m :: rest)) with
  | Some e => balanceAfter e
  | None => dflt
  end = rb + totalNetMovement (m :: rest).
Proof.
  revert m rb. induction rest as [|m' rest IH]; intros m rb.
  - unfold totalNetMovement. simpl. lia.
  - cbn [toEntries]. rewrite js_last_cons.
    change (match js_last (toEntries (rb + movement m) (m' :: rest)) with
            | Some e => balanceAfter e | None => dflt end
            = rb + totalNetMovement (m :: m' :: rest)).
    rewrite (IH m' (rb + movement m)), (totalNetMovement_cons m). lia.
Qed.

Lemma admin_closing_is_fold (opening : Z) (ms : list Movement) :
  periodClosingBalance opening (toEntries opening ms)
  = opening + totalNetMovement ms.
Proof.
  unfold periodClosingBalance.
  destruct ms as [|m rest]; [unfold totalNetMovement; simpl; lia|].
  replace (0 <? Z.of_nat (List.length (toEntries opening (m :: rest))))
    with true by (symmetry; apply Z.ltb_lt; simpl; lia).
  apply last_entry_balance.
Qed.
End AdminLedgerFacts.

Section AdminLedgerClaims.
Import AdminWalletLedger.

Lemma ledger_unfold (clients : list Client) (currentClient : option Client)
      (transactions : list Transaction) (range : option DateRange)
      (currentPage : Z) :
  let ms := adminMovements clients transactions in
  let opening := currentWallet currentClient
                 - totalNetMovement (filter (fromStart range) ms) in
  let entries := toEntries opening
                   (filter (beforeEnd range) (filter (fromStart range) ms)) in
  openingBalance (ledger clients currentClient transactions range currentPage)
    = opening
  /\ closingBalance (ledger clients currentClient transactions range currentPage)
    = periodClosingBalance opening entries
  /\ ledgerEntriesInPeriod clients currentClient transactions range = entries.
Proof.
  intros ms opening entries.
  unfold ledger, ledgerEntriesInPeriod, splitPeriod. fold ms.
  rewrite splitPeriod_spec. cbn [app].
  assert (Ho : adminWalletAtStartOfTime currentClient ms
               + totalNetMovement (filter (fun m => negb (fromStart range m)) ms)
               = opening).
  { subst opening. unfold adminWalletAtStartOfTime.
    rewrite (totalNetMovement_split (fromStart range) ms). lia. }
  rewrite Ho. cbn [openingBalance closingBalance]. fold entries.
  repeat split.
Qed.


End AdminLedgerClaims.

(** ** Reversed transactions stay in every view and weigh nothing *)

Section PageFacts.
Context {A : Type}.

Lemma on_some_page (l : list A) (x : A) :
  In x l ->
  exists currentPage, 1 <= currentPage /\
    In x (js_slice ((currentPage - 1) * ITEMS_PER_PAGE)
                   ((currentPage - 1) * ITEMS_PER_PAGE + ITEMS_PER_PAGE) l).
Proof.
  intro H. apply In_nth_error in H. destruct H as [i Hi].
  exists (Z.of_nat i / ITEMS_PER_PAGE + 1). split.
  - pose proof (Z.div_pos (Z.of_nat i) ITEMS_PER_PAGE ltac:(lia) ltac:(reflexivity)).
    lia.
  - exact (js_slice_page l i x Hi).
Qed.

Lemma filter_all (p : A -> bool) (l : list A) :
  (forall x, p x = true) -> filter p l = l.
Proof.
  intro H. induction l as [|x r IH]; simpl; [reflexivity|].
  now rewrite H, IH.
Qed.

Lemma StronglySorted_filter (R : A -> A -> Prop) (p : A -> bool) (l : list A) :
  StronglySorted R l -> StronglySorted R (filter p l).
Proof.
  induction 1 as [|x r _ IH Hall]; simpl; [constructor|].
  destruct (p x); [|exact IH].
  constructor; [exact IH|].
  apply Forall_forall. intros y Hy. apply filter_In in Hy.
  rewrite Forall_forall in Hall. now apply Hall.
Qed.
End PageFacts.

Section ReversedFacts.

Lemma transactionsInPeriod_filter (range : option DateRange) (all : list Transaction) :
  FinancialLedger.transactionsInPeriod range all
  = filter (FinancialLedger.inRequestedPeriod range) all.
Proof.
  destruct range; simpl; [reflexivity|].
  symmetry. now apply filter_all.
Qed.

Lemma filteredTransactions_filter (transactions : list Transaction)
      (clientId : string) (range : option DateRange) :
  FinancialLedgerCorrected.filteredTransactions transactions clientId range
  = filter (FinancialLedger.inRequestedPeriod range)
      (sort_by FinancialLedgerCorrected.newest_first
               (filter (ownedBy clientId) transactions)).
Proof.
  unfold FinancialLedgerCorrected.filteredTransactions.
  destruct range; simpl; [reflexivity|].
  symmetry. now apply filter_all.
Qed.

(** Each running balance is the one before it (the opening balance for
    the first row) moved by the row's own transaction. *)
Lemma withRunningBalance_step (txs : list Transaction) (rb d : Z) (k : nat)
      (r : FinancialLedger.Row) :
  nth_error (FinancialLedger.withRunningBalance rb txs) k = Some r ->
  FinancialLedger.runningBalance r
  = applyTx (nth k (rb :: map FinancialLedger.runningBalance
                            (FinancialLedger.withRunningBalance rb txs)) d)
            (FinancialLedger.row_tx r).
Proof.
  revert rb k. induction txs as [|tx rest IH]; intros rb k H.
  - destruct k; discriminate.
  - destruct k as [|k]; simpl in H.
    + injection H as <-. reflexivity.
    + apply IH in H. exact H.
Qed.

Lemma withCorrectedBalance_txs (rb : Z) (txs : list Transaction) :
  map FinancialLedgerCorrected.row_tx
      (FinancialLedgerCorrected.withCorrectedBalance rb txs) = txs.
Proof.
  revert rb. induction txs as [|tx r IH]; intro rb; simpl; [reflexivity|].
  now rewrite IH.
Qed.

(** Walking back: the balance shown on the next (older) row is this row's
    balance with this row's transaction undone. *)
Lemma withCorrectedBalance_step (txs : list Transaction) (rb : Z) (k : nat)
      (r r' : FinancialLedgerCorrected.Row) :
  nth_error (FinancialLedgerCorrected.withCorrectedBalance rb txs) k = Some r ->
  nth_error (FinancialLedgerCorrected.withCorrectedBalance rb txs) (S k) = Some r' ->
  FinancialLedgerCorrected.correctedBalanceAfter r'
  = undoTx (FinancialLedgerCorrected.correctedBalanceAfter r)
           (FinancialLedgerCorrected.row_tx r).
Proof.
  revert rb k. induction txs as [|tx rest IH]; intros rb k H H'.
  - destruct k; discriminate.
  - destruct k as [|k].
    + simpl in H. injection H as <-. simpl in H'.
      destruct rest as [|tx' rest]; [discriminate|].
      simpl in H'. injection H' as <-. reflexivity.
    + simpl in H. change (nth_error
        (FinancialLedgerCorrected.withCorrectedBalance (undoTx rb tx) rest) (S k)
        = Some r') in H'.
      exact (IH _ _ H H').
Qed.

Lemma toEntries_step (ms : list AdminWalletLedger.Movement) (rb d : Z) (k : nat)
      (e : AdminWalletLedger.Entry) :
  nth_error (AdminWalletLedger.toEntries rb ms) k = Some e ->
  exists m, nth_error ms k = Some m
    /\ AdminWalletLedger.entry_id e = tx_id (AdminWalletLedger.originalTx m)
    /\ AdminWalletLedger.debit e
       = (if AdminWalletLedger.movement m <? 0
          then - AdminWalletLedger.movement m else 0)
    /\ AdminWalletLedger.credit e
       = (if 0 <? AdminWalletLedger.movement m
          then AdminWalletLedger.movement m else 0)
    /\ AdminWalletLedger.balanceAfter e
       = nth k (rb :: map AdminWalletLedger.balanceAfter
                        (AdminWalletLedger.toEntries rb ms)) d
         + AdminWalletLedger.movement m.
Proof.
  revert rb k. induction ms as [|m rest IH]; intros rb k H.
  - destruct k; discriminate.
  - destruct k as [|k]; simpl in H.
    + injection H as <-. exists m. repeat split.
    + apply IH in H. destruct H as (m' & Hn & Hid & Hd & Hc & Hb).
      exists m'. repeat split; assumption.
Qed.

Lemma total_skips_reversed (p : Transaction -> bool)
      (l1 l2 : list Transaction) (tx : Transaction) :
  tx_isReversed tx = true ->
  filter (fun t => p t && negb (tx_isReversed t)) (l1 ++ tx :: l2)
  = filter (fun t => p t && negb (tx_isReversed t)) (l1 ++ l2).
Proof.
  intro H. rewrite !filter_app. simpl. rewrite H, andb_false_r. reflexivity.
Qed.
End ReversedFacts.

Section ReversedClaims.

Lemma admin_in_period (range : option DateRange) (m : AdminWalletLedger.Movement) :
  AdminWalletLedger.fromStart range m && AdminWalletLedger.beforeEnd range m
  = FinancialLedger.inRequestedPeriod range (AdminWalletLedger.originalTx m).
Proof. destruct range; reflexivity. Qed.

Lemma mirror_reversed (clients : list Client) (tx : Transaction) :
  tx_isReversed tx = true ->
  AdminWalletLedger.movement (AdminWalletLedger.mirror clients tx) = 0.
Proof.
  intro H. unfold AdminWalletLedger.mirror. simpl. rewrite H.
  destruct (tx_type tx); reflexivity.
Qed.

Lemma client_rows_present (transactions : list Transaction) (clientId : string)
      (range : option DateRange) (tx : Transaction) :
  In tx transactions -> ownedBy clientId tx = true ->
  FinancialLedger.inRequestedPeriod range tx = true ->
  exists row, FinancialLedger.row_tx row = tx
    /\ In row (FinancialLedger.finalSortedTransactions transactions clientId range).
Proof.
  intros Hin Hown Hper.
  assert (H : In tx (map FinancialLedger.row_tx
             (FinancialLedger.transactionsWithRunningBalance transactions clientId range))).
  { unfold FinancialLedger.transactionsWithRunningBalance.
    rewrite withRunningBalance_txs, transactionsInPeriod_filter.
    apply filter_In. split; [|exact Hper].
    apply sort_by_In, filter_In. now split. }
  apply in_map_iff in H. destruct H as (row & Hrow & Hr).
  exists row. split; [exact Hrow|].
  unfold FinancialLedger.finalSortedTransactions. now apply in_rev in Hr.
Qed.

Lemma corrected_rows_present (transactions : list Transaction) (clients : list Client)
      (currentClient : option Client) (clientId : string)
      (range : option DateRange) (c : Client) (tx : Transaction) :
  FinancialLedgerCorrected.client clients currentClient clientId = Some c ->
  In tx transactions -> ownedBy clientId tx = true ->
  FinancialLedger.inRequestedPeriod range tx = true ->
  exists row, FinancialLedgerCorrected.row_tx row = tx
    /\ In row (FinancialLedgerCorrected.detailedTransactions
                 (FinancialLedgerCorrected.ledger transactions clients
                    currentClient clientId range)).
Proof.
  intros Hc Hin Hown Hper.
  unfold FinancialLedgerCorrected.ledger, FinancialLedgerCorrected.detailed.
  rewrite Hc. simpl.
  assert (H : In tx (map FinancialLedgerCorrected.row_tx
             (FinancialLedgerCorrected.withCorrectedBalance (client_wallet c)
                (FinancialLedgerCorrected.filteredTransactions
                   transactions clientId range)))).
  { rewrite withCorrectedBalance_txs, filteredTransactions_filter.
    apply filter_In. split; [|exact Hper].
    apply sort_by_In, filter_In. now split. }
  apply in_map_iff in H. destruct H as (row & Hrow & Hr).
  now exists row.
Qed.

Lemma admin_entries_present (clients : list Client) (currentClient : option Client)
      (transactions : list Transaction) (range : option DateRange)
      (tx : Transaction) :
  In tx transactions ->
  FinancialLedger.inRequestedPeriod range tx = true ->
  exists e, AdminWalletLedger.entry_id e = tx_id tx
    /\ In e (AdminWalletLedger.ledgerEntriesInPeriod
               clients currentClient transactions range).
Proof.
  intros Hin Hper.
  destruct (ledger_unfold clients currentClient transactions range 1)
    as (_ & _ & He).
  rewrite He. clear He.
  set (inP := filter (AdminWalletLedger.beforeEnd range)
                (filter (AdminWalletLedger.fromStart range)
                   (AdminWalletLedger.adminMovements clients transactions))).
  set (opening := _ - _).
  assert (Hm : In (AdminWalletLedger.mirror clients tx) inP).
  { subst inP.
    change tx with (AdminWalletLedger.originalTx (AdminWalletLedger.mirror clients tx))
      in Hper.
    rewrite <- admin_in_period in Hper. apply andb_prop in Hper.
    apply filter_In. split; [|apply Hper].
    apply filter_In. split; [|apply Hper].
    unfold AdminWalletLedger.adminMovements. apply in_map.
    now apply sort_by_In. }
  apply In_nth_error in Hm. destruct Hm as [k Hk].
  destruct (nth_error (AdminWalletLedger.toEntries opening inP) k) as [e|] eqn:E.
  - exists e. split; [|eapply nth_error_In; exact E].
    destruct (toEntries_step _ _ 0 _ _ E) as (m & Hn & Hid & _).
    rewrite Hk in Hn. injection Hn as <-. exact Hid.
  - apply nth_error_None in E. rewrite toEntries_length in E.
    assert (k < List.length inP)%nat by (apply nth_error_Some; congruence).
    lia.
Qed.
End ReversedClaims.

Section ReversedTheorem.

(** C7.  A reversed transaction is never dropped from a ledger view and
    weighs nothing in it.

    - Client ledger with running balances: every transaction of the
      client inside the requested period has a row, on one of the pages;
      the row holds the transaction record itself, so its reversed flag
      is displayed.  The running balance of a reversed row is the balance
      before it, and a reversed transaction adds nothing to the credit and
      debit totals of the period.
    - Client ledger walking back from the wallet: the same, the balance
      of the row after a reversed row being that of the reversed row.
    - Admin ledger: every transaction inside the period has an entry
      (identified by the transaction id) on one of the pages; the entry
      of a reversed transaction has debit 0 and credit 0, which are what
      the totals add up, and its balance is the balance before it. *)
Theorem reversed_kept_with_zero_weight
        (transactions : list Transaction) (clients : list Client)
        (currentClient : option Client) (clientId : string)
        (range : option DateRange) :
  (* FinancialLedger *)
  ((forall tx, In tx transactions -> ownedBy clientId tx = true ->
      FinancialLedger.inRequestedPeriod range tx = true ->
      exists row currentPage,
        FinancialLedger.row_tx row = tx /\ 1 <= currentPage
        /\ In row (FinancialLedger.finalSortedTransactions transactions clientId range)
        /\ In row (FinancialLedger.paginatedTransactions
                     (FinancialLedger.ledger transactions clientId range currentPage)))
   /\ (forall k row d,
         let rows := FinancialLedger.transactionsWithRunningBalance
                       transactions clientId range in
         let opening := FinancialLedger.openingBalance
                          (FinancialLedger.ledger transactions clientId range 1) in
         nth_error rows k = Some row ->
         tx_isReversed (FinancialLedger.row_tx row) = true ->
         FinancialLedger.runningBalance row
         = nth k (opening :: map FinancialLedger.runningBalance rows) d)
   /\ (forall l1 tx l2, tx_isReversed tx = true ->
         FinancialLedger.periodTotalCredit (l1 ++ tx :: l2)
         = FinancialLedger.periodTotalCredit (l1 ++ l2)
         /\ FinancialLedger.periodTotalDebit (l1 ++ tx :: l2)
            = FinancialLedger.periodTotalDebit (l1 ++ l2)))
  (* FinancialLedger, walking back from the wallet *)
  /\ (forall c,
        FinancialLedgerCorrected.client clients currentClient clientId = Some c ->
        let rows := FinancialLedgerCorrected.detailedTransactions
                      (FinancialLedgerCorrected.ledger transactions clients
                         currentClient clientId range) in
        (forall tx, In tx transactions -> ownedBy clientId tx = true ->
           FinancialLedger.inRequestedPeriod range tx = true ->
           exists row currentPage,
             FinancialLedgerCorrected.row_tx row = tx /\ 1 <= currentPage
             /\ In row rows
             /\ In row (FinancialLedgerCorrected.paginatedTransactions
                          (FinancialLedgerCorrected.ledger transactions clients
                             currentClient clientId range) currentPage))
        /\ (forall k row row',
              nth_error rows k = Some row -> nth_error rows (S k) = Some row' ->
              tx_isReversed (FinancialLedgerCorrected.row_tx row) = true ->
              FinancialLedgerCorrected.correctedBalanceAfter row'
              = FinancialLedgerCorrected.correctedBalanceAfter row))
  (* AdminWalletLedger *)
  /\ (let entries := AdminWalletLedger.ledgerEntriesInPeriod
                       clients currentClient transactions range in
      let opening := AdminWalletLedger.openingBalance
                       (AdminWalletLedger.ledger clients currentClient
                          transactions range 1) in
      let inP := filter (AdminWalletLedger.beforeEnd range)
                   (filter (AdminWalletLedger.fromStart range)
                      (AdminWalletLedger.adminMovements clients transactions)) in
      (forall tx, In tx transactions ->
         FinancialLedger.inRequestedPeriod range tx = true ->
         exists e currentPage,
           AdminWalletLedger.entry_id e = tx_id tx /\ 1 <= currentPage
           /\ In e (AdminWalletLedger.paginatedEntries
                      (AdminWalletLedger.ledger clients currentClient
                         transactions range currentPage)))
      /\ (forall k e m d,
            nth_error entries k = Some e -> nth_error inP k = Some m ->
            tx_isReversed (AdminWalletLedger.originalTx m) = true ->
            AdminWalletLedger.entry_id e = tx_id (AdminWalletLedger.originalTx m)
            /\ AdminWalletLedger.debit e = 0
            /\ AdminWalletLedger.credit e = 0
            /\ AdminWalletLedger.balanceAfter e
               = nth k (opening :: map AdminWalletLedger.balanceAfter entries) d)).
Proof.
  split; [|split].
  - split; [|split].
    + intros tx Hin Hown Hper.
      destruct (client_rows_present transactions clientId range tx Hin Hown Hper)
        as (row & Hrow & Hr).
      destruct (on_some_page _ _ Hr) as (page & Hp1 & Hp).
      exists row, page. repeat split; assumption.
    + intros k row d rows opening Hk Hrev.
      subst rows. unfold FinancialLedger.transactionsWithRunningBalance in *.
      rewrite (withRunningBalance_step _ _ d _ _ Hk).
      now apply applyTx_reversed.
    + intros l1 tx l2 Hrev.
      unfold FinancialLedger.periodTotalCredit, FinancialLedger.periodTotalDebit.
      now rewrite !(total_skips_reversed _ l1 l2 tx Hrev).
  - intros c Hc rows. split.
    + intros tx Hin Hown Hper.
      destruct (corrected_rows_present transactions clients currentClient
                  clientId range c tx Hc Hin Hown Hper) as (row & Hrow & Hr).
      destruct (on_some_page _ _ Hr) as (page & Hp1 & Hp).
      exists row, page. repeat split; assumption.
    + intros k row row' Hk Hk' Hrev.
      subst rows.
      unfold FinancialLedgerCorrected.ledger, FinancialLedgerCorrected.detailed in Hk, Hk'.
      rewrite Hc in Hk, Hk'. simpl in Hk, Hk'.
      rewrite (withCorrectedBalance_step _ _ _ _ _ Hk Hk').
      now apply undoTx_reversed.
  - intros entries opening inP.
    destruct (ledger_unfold clients currentClient transactions range 1)
      as (Ho & _ & He).
    split.
    + intros tx Hin Hper.
      destruct (admin_entries_present clients currentClient transactions
                  range tx Hin Hper) as (e & Hid & Hine).
      apply in_rev in Hine.
      destruct (on_some_page _ _ Hine) as (page & Hp1 & Hp).
      exists e, page. repeat split; try assumption.
      destruct (ledger_unfold clients currentClient transactions range page)
        as (_ & _ & He').
      unfold AdminWalletLedger.ledgerEntriesInPeriod in Hp.
      unfold AdminWalletLedger.ledger.
      destruct (AdminWalletLedger.splitPeriod range _ _) as [o inP'].
      exact Hp.
    + intros k e m d Hk Hm Hrev.
      subst entries opening. rewrite Ho. rewrite He in Hk |- *.
      fold inP in Hk |- *.
      destruct (toEntries_step _ _ d _ _ Hk) as (m' & Hn & Hid & Hd & Hc & Hb).
      rewrite Hm in Hn. injection Hn as <-.
      assert (Hz : AdminWalletLedger.movement m = 0).
      { assert (Hin : In m (AdminWalletLedger.adminMovements clients transactions)).
        { apply nth_error_In in Hm. subst inP.
          apply filter_In in Hm. destruct Hm as [Hm _].
          apply filter_In in Hm. apply Hm. }
        unfold AdminWalletLedger.adminMovements in Hin.
        apply in_map_iff in Hin. destruct Hin as (tx & <- & _).
        now apply mirror_reversed. }
      rewrite Hz in Hd, Hc, Hb. simpl in Hd, Hc.
      repeat split; try assumption. lia.
Qed.
End ReversedTheorem.

(** ** FinancialLedger walking back from the wallet: the anchor *)

Section AnchorClaims.
Import FinancialLedgerCorrected.

Lemma newest_first_total (a b : Transaction) :
  newest_first a b = true \/ newest_first b a = true.
Proof. unfold newest_first. rewrite !Z.leb_le. lia. Qed.

Lemma newest_first_trans (a b c : Transaction) :
  newest_first a b = true -> newest_first b c = true -> newest_first a c = true.
Proof. unfold newest_first. rewrite !Z.leb_le. lia. Qed.

Lemma filteredTransactions_newest_first (transactions : list Transaction)
      (clientId : string) (range : option DateRange) :
  StronglySorted (fun a b => tx_createdAt b <= tx_createdAt a)
                 (filteredTransactions transactions clientId range).
Proof.
  rewrite filteredTransactions_filter.
  apply StronglySorted_filter.
  eapply StronglySorted_weaken;
    [|apply sort_by_sorted; [apply newest_first_total|apply newest_first_trans]].
  intros a b H. unfold newest_first in H. apply Z.leb_le in H. lia.
Qed.

(** C10.  In the version that walks back from the wallet, the balance
    shown on the first row, which is the newest transaction of the client
    inside the selected period, is the client's current wallet, whatever
    the period and whatever other transactions exist: nothing is undone
    before the first row, not even transactions newer than the period's
    end. *)
Theorem corrected_anchor_is_wallet
        (transactions : list Transaction) (clients : list Client)
        (currentClient : option Client) (clientId : string)
        (range : option DateRange) (c : Client) (row : Row) (rest : list Row) :
  client clients currentClient clientId = Some c ->
  detailedTransactions (ledger transactions clients currentClient clientId range)
    = row :: rest ->
  correctedBalanceAfter row = client_wallet c
  /\ In (row_tx row) transactions
  /\ ownedBy clientId (row_tx row) = true
  /\ FinancialLedger.inRequestedPeriod range (row_tx row) = true
  /\ (forall tx, In tx transactions -> ownedBy clientId tx = true ->
        FinancialLedger.inRequestedPeriod range tx = true ->
        tx_createdAt tx <= tx_createdAt (row_tx row)).
Proof.
  intros Hc Hrows.
  unfold ledger, detailed in Hrows. rewrite Hc in Hrows. simpl in Hrows.
  pose proof (filteredTransactions_newest_first transactions clientId range) as Hs.
  assert (Hmem : forall tx, In tx (filteredTransactions transactions clientId range)
                 <-> (In tx transactions /\ ownedBy clientId tx = true)
                     /\ FinancialLedger.inRequestedPeriod range tx = true).
  { intro tx. rewrite filteredTransactions_filter, filter_In, sort_by_In, filter_In.
    reflexivity. }
  destruct (filteredTransactions transactions clientId range) as [|t ts] eqn:E;
    [discriminate|].
  simpl in Hrows. injection Hrows as <- _. simpl.
  destruct (proj1 (Hmem t) (or_introl eq_refl)) as [[Hin Hown] Hper].
  repeat split; try assumption.
  intros tx Hin' Hown' Hper'.
  assert (Htx : In tx (t :: ts)) by (apply Hmem; auto).
  destruct Htx as [<-|Htx]; [lia|].
  inversion Hs as [|? ? _ Hall]; subst.
  rewrite Forall_forall in Hall. now apply Hall.
Qed.
End AnchorClaims.

(** ** WinnersReport: rates and prizes *)

Section PrizeFacts.
Import WinnersReport.
Local Open Scope Q_scope.


Lemma ratePositive_iff (rate : option Q) :
  ratePositive rate = true <-> exists q, rate = Some q /\ 0 < q.
Proof.
  unfold ratePositive. destruct rate as [q|].
  - rewrite negb_true_iff. split.
    + intro H. exists q. split; [reflexivity|].
      apply Qnot_le_lt. intro Hle. apply Qle_bool_iff in Hle. congruence.
    + intros (q' & [= <-] & Hq).
      destruct (Qle_bool q 0) eqn:E; [|reflexivity].
      apply Qle_bool_iff in E. exfalso. exact (Qlt_not_le _ _ Hq E).
  - split; [discriminate|]. intros (q & H & _). discriminate.
Qed.

Variable WinningNumbers : Type.
Variable isBetWinner : Bet -> WinningNumbers -> bool.


End PrizeFacts.

Section PrizeClaims.
Import WinnersReport.
Local Open Scope Q_scope.

Variable WinningNumbers : Type.
Variable isBetWinner : Bet -> WinningNumbers -> bool.

Let Draw := Draw WinningNumbers.
Let winnersData := winnersData WinningNumbers isBetWinner.
Let settleStep := settleStep WinningNumbers isBetWinner.
Let awarded := awarded WinningNumbers isBetWinner.


End PrizeClaims.

(** ** WinnersReport: grouping by client *)

Section GroupFacts.
Import WinnersReport.
Local Open Scope Q_scope.



End GroupFacts.

(** * The scenario, evaluated *)

Section ScenarioChecks.
Import Scenario.

Example scenario_all_time_rows :
  map FinancialLedger.runningBalance
      (FinancialLedger.transactionsWithRunningBalance history "c1" None)
  = [500; 450; 400; 350; 350; 330].
Proof. reflexivity. Qed.

Example scenario_corrected_rows :
  map FinancialLedgerCorrected.correctedBalanceAfter
      (FinancialLedgerCorrected.detailedTransactions
         (FinancialLedgerCorrected.ledger history [c1] None "c1" (Some earlier)))
  = [330; 330; 380; 430; 480].
Proof. reflexivity. Qed.

Example scenario_winners :
  map (fun w => (WinnersReport.bet_id (WinnersReport.wd_bet w),
                 Qred (WinnersReport.wd_prizeWon w)))
      (WinnersReport.winners report)
  = [("b2"%string, 45%Q); ("b5"%string, 40%Q)].
Proof. reflexivity. Qed.
End ScenarioChecks.

Section ScenarioClaims.
Import Scenario.

(** C2.  On the scenario, under the "today" filter the period starts after
    the reversed prize, and the ledger view takes its opening balance from
    the balance-after snapshot of the last transaction before the period,
    the reversed prize itself: 395.  Walking back from the wallet, as the
    specification words it, gives 350.  The view then closes at 375 while
    the wallet holds 330. *)
Theorem ranged_opening_uses_stale_snapshot :
  let range := getDateRange clock "today" in
  let all := FinancialLedger.allClientTxs history "c1" in
  let v := FinancialLedger.ledger history "c1" range 1 in
  range = Some later
  /\ wallet = signedSum history "c1"
  /\ FinancialLedger.lastTxBeforePeriod later all
     = Some (entry "t5" Credit 45 395 5 true)
  /\ FinancialLedger.openingBalance v = 395
  /\ FinancialLedger.reconstructedOpeningBalance wallet later all = 350
  /\ FinancialLedger.closingBalance v = 375.
Proof. repeat split. Qed.


Lemma reversed_kept_with_zero_weight_witness :
  In (entry "t5" Credit 45 395 5 true) history
  /\ exists row currentPage,
       FinancialLedger.row_tx row = entry "t5" Credit 45 395 5 true
       /\ In row (FinancialLedger.paginatedTransactions
                    (FinancialLedger.ledger history "c1" (Some earlier) currentPage)).
Proof.
  assert (Hin : In (entry "t5" Credit 45 395 5 true) history)
    by (simpl; tauto).
  split; [exact Hin|].
  destruct (reversed_kept_with_zero_weight history [c1] None "c1" (Some earlier))
    as [[H _] _].
  destruct (H _ Hin eq_refl eq_refl) as (row & page & Hrow & _ & _ & Hp).
  exists row, page. split; assumption.
Defined.

Lemma corrected_anchor_is_wallet_witness :
  exists row rest,
    FinancialLedgerCorrected.client [c1] None "c1" = Some c1
    /\ FinancialLedgerCorrected.detailedTransactions
         (FinancialLedgerCorrected.ledger history [c1] None "c1" (Some earlier))
       = row :: rest
    /\ FinancialLedgerCorrected.correctedBalanceAfter row = wallet
    /\ exists tx, In tx history
         /\ range_end earlier <= tx_createdAt tx
         /\ undoTx wallet tx = 350.
Proof.
  eexists. eexists.
  split; [reflexivity|]. split; [reflexivity|]. split.
  - exact (proj1 (corrected_anchor_is_wallet history [c1] None "c1" (Some earlier)
                    c1 _ _ eq_refl eq_refl)).
  - exists (entry "t6" Debit 20 330 11 false). simpl. repeat split; try lia. tauto.
Defined.
End ScenarioClaims.

Section ScenarioPrizes.
Import Scenario WinnersReport.
Local Open Scope Q_scope.


Example scenario_groups :
  map (fun g => (client_id (gw_client g), Qred (gw_totalWon g),
                 List.length (gw_bets g)))
      (groupedWinners (winners report))
  = [("c1"%string, 85, 2%nat)].
Proof. reflexivity. Qed.
End ScenarioPrizes.

(** * Further properties of the views *)

(** ** Pages *)

Section PagingFacts.
Context {A : Type}.

Lemma firstn_app_skipn (a b : nat) (l : list A) :
  firstn a l ++ firstn b (skipn a l) = firstn (a + b) l.
Proof.
  revert l. induction a as [|a IH]; intro l; [reflexivity|].
  destruct l as [|x r]; simpl.
  - now rewrite firstn_nil.
  - now rewrite IH.
Qed.

(** A page requested by a positive number is a block of 25 consecutive
    elements. *)
Lemma js_slice_block (l : list A) (currentPage : Z) :
  1 <= currentPage ->
  js_slice ((currentPage - 1) * ITEMS_PER_PAGE)
           ((currentPage - 1) * ITEMS_PER_PAGE + ITEMS_PER_PAGE) l
  = firstn 25 (skipn (25 * Z.to_nat (currentPage - 1)) l).
Proof.
  intro Hp. unfold js_slice, ITEMS_PER_PAGE.
  set (len := List.length l).
  set (s := (currentPage - 1) * 25).
  assert (Hs : 0 <= s) by (subst s; lia).
  destruct (s <? 0) eqn:E1; [apply Z.ltb_lt in E1; lia|].
  destruct (s + 25 <? 0) eqn:E2; [apply Z.ltb_lt in E2; lia|].
  assert (Hn : (25 * Z.to_nat (currentPage - 1))%nat = Z.to_nat s)
    by (subst s; lia).
  rewrite Hn.
  destruct (Z_le_gt_dec s (Z.of_nat len)) as [Hle|Hgt].
  - rewrite (Z.min_l s) by lia.
    destruct (Z_le_gt_dec (s + 25) (Z.of_nat len)) as [Hle2|Hgt2].
    + rewrite Z.min_l by lia. f_equal. lia.
    + rewrite Z.min_r by lia.
      rewrite !firstn_all2; [reflexivity| |]; rewrite length_skipn; fold len; lia.
  - rewrite !Z.min_r by lia.
    replace (Z.to_nat (Z.of_nat len - Z.of_nat len)) with 0%nat by lia.
    rewrite !skipn_all2 by (fold len; lia).
    reflexivity.
Qed.

Lemma blocks_concat (l : list A) (n : nat) :
  List.concat (map (fun i => firstn 25 (skipn (25 * i) l)) (seq 0 n))
  = firstn (25 * n) l.
Proof.
  induction n as [|n IH]; [reflexivity|].
  rewrite seq_S, map_app, concat_app, IH.
  change (0 + n)%nat with n. cbn [map List.concat].
  rewrite app_nil_r, firstn_app_skipn. f_equal. lia.
Qed.

Lemma ceil_div_pages (n : nat) :
  let pages := ceil_div (Z.of_nat n) ITEMS_PER_PAGE in
  0 <= pages /\ 25 * (pages - 1) < Z.of_nat n <= 25 * pages
  \/ n = 0%nat /\ pages = 0.
Proof.
  unfold ceil_div, ITEMS_PER_PAGE. cbv zeta.
  destruct n as [|n]; [right; split; reflexivity|left].
  pose proof (Z.div_mod (Z.of_nat (S n) + 25 - 1) 25 ltac:(lia)) as Hd.
  pose proof (Z.mod_pos_bound (Z.of_nat (S n) + 25 - 1) 25 ltac:(lia)) as Hm.
  lia.
Qed.

(** The pages [1..totalPages] of an array, one after the other, are the
    array. *)
Lemma pages_concat (l : list A) :
  List.concat (map (fun currentPage =>
                 js_slice ((currentPage - 1) * ITEMS_PER_PAGE)
                          ((currentPage - 1) * ITEMS_PER_PAGE + ITEMS_PER_PAGE) l)
              (pageNumbers (ceil_div (Z.of_nat (List.length l)) ITEMS_PER_PAGE)))
  = l.
Proof.
  unfold pageNumbers. rewrite map_map.
  rewrite (map_ext_in _ (fun i => firstn 25 (skipn (25 * i) l))).
  - rewrite blocks_concat. apply firstn_all2.
    destruct (ceil_div_pages (List.length l)) as [[H0 H]|[H0 H]]; cbv zeta in *; lia.
  - intros i _. rewrite js_slice_block by lia. do 3 f_equal. lia.
Qed.

Lemma page_length (l : list A) (currentPage : Z) :
  1 <= currentPage ->
  Z.of_nat (List.length
              (js_slice ((currentPage - 1) * ITEMS_PER_PAGE)
                        ((currentPage - 1) * ITEMS_PER_PAGE + ITEMS_PER_PAGE) l))
  = Z.max 0 (Z.min 25 (Z.of_nat (List.length l) - 25 * (currentPage - 1))).
Proof.
  intro Hp. rewrite js_slice_block by exact Hp.
  rewrite length_firstn, length_skipn. lia.
Qed.
End PagingFacts.

Section SiteWideLogClaims.
Import SiteWideLog.

(** X1.  The pages of the site-wide log partition it: pages 1 to
    [totalPages], one after the other, are the transactions in their
    order; every page before the last holds 25 rows, the last one between 1
    and 25, and a page past the last is empty.  There is no page exactly
    when there is no transaction. *)
Theorem site_log_pages_partition (transactions : list Transaction) :
  List.concat (map (paginatedTransactions transactions)
              (pageNumbers (totalPages transactions))) = transactions
  /\ (forall p, 1 <= p < totalPages transactions ->
        List.length (paginatedTransactions transactions p) = 25%nat)
  /\ (0 < totalPages transactions ->
        (0 < List.length (paginatedTransactions transactions
                            (totalPages transactions)) <= 25)%nat)
  /\ (forall p, totalPages transactions < p ->
        paginatedTransactions transactions p = [])
  /\ (totalPages transactions = 0 <-> transactions = []).
Proof.
  unfold paginatedTransactions, totalPages.
  pose proof (ceil_div_pages (List.length transactions)) as Hc. cbv zeta in Hc.
  split; [apply pages_concat|].
  split.
  { intros p Hp. apply Nat2Z.inj. rewrite page_length by lia. lia. }
  split.
  { intro Hpos.
    assert (H1 : 1 <= ceil_div (Z.of_nat (List.length transactions)) ITEMS_PER_PAGE)
      by lia.
    pose proof (page_length transactions _ H1) as Hl. lia. }
  split.
  { intros p Hp. apply length_zero_iff_nil. apply Nat2Z.inj.
    assert (1 <= p) by lia.
    rewrite page_length by lia. lia. }
  split.
  - intro H0. apply length_zero_iff_nil. lia.
  - intros ->. reflexivity.
Qed.

(** X2.  Whatever page numbers are requested, one after the other, through
    [handlePageChange], a pager that starts on an existing page stays on an
    existing page, and that page shows at least one row. *)
Theorem page_requests_stay_in_range
        (transactions : list Transaction) (requests : list Z) (currentPage : Z) :
  1 <= currentPage <= totalPages transactions ->
  let p := fold_left (handlePageChange (totalPages transactions))
                     requests currentPage in
  1 <= p <= totalPages transactions
  /\ paginatedTransactions transactions p <> [].
Proof.
  intros Hc p.
  assert (Hp : 1 <= p <= totalPages transactions).
  { subst p. revert currentPage Hc.
    induction requests as [|r rest IH]; intros cur Hc; simpl; [exact Hc|].
    apply IH. unfold handlePageChange.
    destruct ((1 <=? r) && (r <=? totalPages transactions)) eqn:E; [|exact Hc].
    apply andb_prop in E. destruct E as [E1 E2].
    apply Z.leb_le in E1, E2. lia. }
  split; [exact Hp|].
  intro Hnil. apply (f_equal (@List.length _)) in Hnil.
  apply (f_equal Z.of_nat) in Hnil.
  unfold paginatedTransactions in Hnil. rewrite page_length in Hnil by lia.
  unfold totalPages in Hp.
  pose proof (ceil_div_pages (List.length transactions)) as Hd. cbv zeta in Hd.
  change (Z.of_nat (@List.length Transaction [])) with 0 in Hnil. lia.
Qed.
End SiteWideLogClaims.

Section LedgerPages.

Lemma admin_ledger_pages (clients : list Client) (currentClient : option Client)
      (transactions : list Transaction) (range : option DateRange) (p : Z) :
  let final := rev (AdminWalletLedger.ledgerEntriesInPeriod
                      clients currentClient transactions range) in
  AdminWalletLedger.paginatedEntries
    (AdminWalletLedger.ledger clients currentClient transactions range p)
  = js_slice ((p - 1) * ITEMS_PER_PAGE) ((p - 1) * ITEMS_PER_PAGE + ITEMS_PER_PAGE)
             final
  /\ AdminWalletLedger.totalPages
       (AdminWalletLedger.ledger clients currentClient transactions range p)
     = ceil_div (Z.of_nat (List.length final)) ITEMS_PER_PAGE.
Proof.
  unfold AdminWalletLedger.ledger, AdminWalletLedger.ledgerEntriesInPeriod.
  destruct (AdminWalletLedger.splitPeriod range _ _) as [opening inP].
  split; reflexivity.
Qed.

(** X3.  In each ledger view the pages 1 to [totalPages], one after the
    other, are all the rows of the period, newest first: paging neither
    drops nor repeats a row.  This holds for the client ledger with running
    balances, for the one that walks back from the wallet, and for the
    admin ledger. *)
Theorem ledger_pages_partition
        (transactions : list Transaction) (clients : list Client)
        (currentClient : option Client) (clientId : string)
        (range : option DateRange) :
  List.concat
    (map (fun p => FinancialLedger.paginatedTransactions
                     (FinancialLedger.ledger transactions clientId range p))
         (pageNumbers (FinancialLedger.totalPages
                         (FinancialLedger.ledger transactions clientId range 1))))
  = FinancialLedger.finalSortedTransactions transactions clientId range
  /\ (let d := FinancialLedgerCorrected.ledger transactions clients currentClient
                                              clientId range in
      List.concat
        (map (FinancialLedgerCorrected.paginatedTransactions d)
             (pageNumbers (FinancialLedgerCorrected.totalPages d)))
      = FinancialLedgerCorrected.detailedTransactions d)
  /\ List.concat
       (map (fun p => AdminWalletLedger.paginatedEntries
                        (AdminWalletLedger.ledger clients currentClient
                                                  transactions range p))
            (pageNumbers (AdminWalletLedger.totalPages
                            (AdminWalletLedger.ledger clients currentClient
                                                      transactions range 1))))
     = rev (AdminWalletLedger.ledgerEntriesInPeriod
              clients currentClient transactions range).
Proof.
  split; [|split].
  - apply (pages_concat
             (FinancialLedger.finalSortedTransactions transactions clientId range)).
  - intro d. apply (pages_concat (FinancialLedgerCorrected.detailedTransactions d)).
  - rewrite (proj2 (admin_ledger_pages clients currentClient transactions range 1)).
    rewrite (map_ext _ (fun p => js_slice ((p - 1) * ITEMS_PER_PAGE)
                                  ((p - 1) * ITEMS_PER_PAGE + ITEMS_PER_PAGE)
                                  (rev (AdminWalletLedger.ledgerEntriesInPeriod
                                          clients currentClient transactions range)))).
    + apply pages_concat.
    + intro p. apply (admin_ledger_pages clients currentClient transactions range p).
Qed.
End LedgerPages.

(** ** Order of display *)

Section OrderFacts.
Context {A : Type}.

Lemma StronglySorted_snoc (R : A -> A -> Prop) (l : list A) (x : A) :
  StronglySorted R l -> Forall (fun y => R y x) l -> StronglySorted R (l ++ [x]).
Proof.
  induction 1 as [|y r Hs IH Hall]; intro Hx; simpl.
  - repeat constructor.
  - inversion Hx as [|? ? Hyx Hrx]; subst.
    constructor; [now apply IH|].
    apply Forall_app. split; [exact Hall|]. now constructor.
Qed.

Lemma StronglySorted_rev (R : A -> A -> Prop) (l : list A) :
  StronglySorted R l -> StronglySorted (fun a b => R b a) (rev l).
Proof.
  induction 1 as [|x r Hs IH Hall]; simpl; [constructor|].
  apply StronglySorted_snoc; [exact IH|].
  apply Forall_rev. exact Hall.
Qed.

Lemma StronglySorted_map {B : Type} (f : B -> A) (R : A -> A -> Prop) (l : list B) :
  StronglySorted R (map f l) -> StronglySorted (fun a b => R (f a) (f b)) l.
Proof.
  induction l as [|x r IH]; simpl; intro H; [constructor|].
  inversion H as [|? ? Hs Hall]; subst.
  constructor; [now apply IH|].
  rewrite Forall_map in Hall. exact Hall.
Qed.

Lemma StronglySorted_map_back {B : Type} (f : B -> A) (R : A -> A -> Prop)
      (l : list B) :
  StronglySorted (fun a b => R (f a) (f b)) l -> StronglySorted R (map f l).
Proof.
  induction 1 as [|x r Hs IH Hall]; simpl; constructor; [exact IH|].
  rewrite Forall_map. exact Hall.
Qed.

Lemma StronglySorted_middle (R : A -> A -> Prop) (l1 l2 : list A) (x : A) :
  StronglySorted R (l1 ++ x :: l2) ->
  Forall (fun y => R y x) l1 /\ Forall (R x) l2.
Proof.
  induction l1 as [|y r IH]; simpl; intro H; inversion H as [|? ? Hs Hall]; subst.
  - split; [constructor|exact Hall].
  - destruct (IH Hs) as [H1 H2]. split; [|exact H2].
    constructor; [|exact H1].
    rewrite Forall_forall in Hall. apply Hall, in_elt.
Qed.

(** Two sorted arrangements of the same elements are the same list when no
    two elements tie. *)
Lemma sorted_perm_unique (R : A -> A -> Prop) (l1 l2 : list A) :
  StronglySorted R l1 -> StronglySorted R l2 -> Permutation l1 l2 ->
  (forall a b, In a l1 -> In b l1 -> R a b -> R b a -> a = b) ->
  l1 = l2.
Proof.
  intros H1. revert l2.
  induction H1 as [|x r Hs IH Hall]; intros l2 H2 Hp Hanti.
  - apply Permutation_nil in Hp. now subst.
  - destruct l2 as [|y r2]; [apply Permutation_sym, Permutation_nil in Hp; discriminate|].
    inversion H2 as [|? ? Hs2 Hall2]; subst.
    assert (Hxy : x = y).
    { assert (Hx : In x (y :: r2)) by (eapply Permutation_in; [exact Hp|now left]).
      assert (Hy : In y (x :: r))
        by (eapply Permutation_in; [apply Permutation_sym, Hp|now left]).
      destruct Hx as [Hx|Hx]; [now symmetry|].
      destruct Hy as [Hy|Hy]; [exact Hy|].
      rewrite Forall_forall in Hall, Hall2.
      apply Hanti; [now left|now right|now apply Hall|now apply Hall2]. }
    subst y. f_equal.
    apply IH; [exact Hs2|eapply Permutation_cons_inv; exact Hp|].
    intros a b Ha Hb. apply Hanti; now right.
Qed.

Lemma js_last_snoc (l : list A) (x : A) : js_last (l ++ [x]) = Some x.
Proof.
  unfold js_last. rewrite length_app. simpl.
  replace (List.length l + 1 - 1)%nat with (List.length l) by lia.
  rewrite nth_error_app2 by lia.
  now rewrite Nat.sub_diag.
Qed.

Lemma js_find_first (p : A -> bool) (l : list A) :
  match js_find p l with
  | Some x => exists l1 l2, l = l1 ++ x :: l2 /\ p x = true
                            /\ Forall (fun y => p y = false) l1
  | None => Forall (fun y => p y = false) l
  end.
Proof.
  induction l as [|y r IH]; simpl; [constructor|].
  destruct (p y) eqn:E.
  - exists [], r. repeat split; auto.
  - destruct (js_find p r) as [x|].
    + destruct IH as (l1 & l2 & -> & Hx & Hl1).
      exists (y :: l1), l2. repeat split; auto.
    + now constructor.
Qed.
End OrderFacts.

Section DisplayOrder.

Lemma sorted_oldest_first (l : list Transaction) :
  StronglySorted (fun a b => tx_createdAt a <= tx_createdAt b)
                 (sort_by FinancialLedger.oldest_first l).
Proof.
  eapply StronglySorted_weaken;
    [|apply sort_by_sorted; [apply oldest_first_total|apply oldest_first_trans]].
  intros a b H. unfold FinancialLedger.oldest_first in H. apply Z.leb_le in H. lia.
Qed.

Lemma toEntries_createdAt (rb : Z) (ms : list AdminWalletLedger.Movement) :
  map AdminWalletLedger.entry_createdAt (AdminWalletLedger.toEntries rb ms)
  = map (fun m => tx_createdAt (AdminWalletLedger.originalTx m)) ms.
Proof.
  revert rb. induction ms as [|m r IH]; intro rb; simpl; [reflexivity|].
  now rewrite IH.
Qed.

(** X4.  Both ledgers with a closing balance list their rows newest first,
    and the balance on the first row displayed is the closing balance shown
    in the summary card; with no row, the closing balance is the opening
    balance. *)
Theorem first_row_shows_closing_balance
        (transactions : list Transaction) (clients : list Client)
        (currentClient : option Client) (clientId : string)
        (range : option DateRange) (currentPage : Z) :
  (let final := FinancialLedger.finalSortedTransactions transactions clientId range in
   let v := FinancialLedger.ledger transactions clientId range currentPage in
   StronglySorted (fun a b => tx_createdAt (FinancialLedger.row_tx b)
                              <= tx_createdAt (FinancialLedger.row_tx a)) final
   /\ FinancialLedger.closingBalance v
      = match final with
        | row :: _ => FinancialLedger.runningBalance row
        | [] => FinancialLedger.openingBalance v
        end)
  /\ (let final := rev (AdminWalletLedger.ledgerEntriesInPeriod
                          clients currentClient transactions range) in
      let v := AdminWalletLedger.ledger clients currentClient transactions
                                        range currentPage in
      StronglySorted (fun a b => AdminWalletLedger.entry_createdAt b
                                 <= AdminWalletLedger.entry_createdAt a) final
      /\ AdminWalletLedger.closingBalance v
         = match final with
           | e :: _ => AdminWalletLedger.balanceAfter e
           | [] => AdminWalletLedger.openingBalance v
           end).
Proof.
  split.
  - intros final v. split.
    + subst final. unfold FinancialLedger.finalSortedTransactions.
      apply (StronglySorted_rev
               (fun a b => tx_createdAt (FinancialLedger.row_tx a)
                           <= tx_createdAt (FinancialLedger.row_tx b))).
      apply (StronglySorted_map FinancialLedger.row_tx
               (fun a b => tx_createdAt a <= tx_createdAt b)).
      unfold FinancialLedger.transactionsWithRunningBalance.
      rewrite withRunningBalance_txs, transactionsInPeriod_filter.
      apply StronglySorted_filter, sorted_oldest_first.
    + subst final v.
      unfold FinancialLedger.finalSortedTransactions,
        FinancialLedger.transactionsWithRunningBalance, FinancialLedger.ledger.
      cbn [FinancialLedger.closingBalance FinancialLedger.openingBalance].
      set (rows := FinancialLedger.withRunningBalance _ _).
      unfold FinancialLedger.periodClosingBalance.
      destruct (rev rows) as [|row rest] eqn:E.
      * apply (f_equal (@rev _)) in E. rewrite rev_involutive in E.
        rewrite E. reflexivity.
      * apply (f_equal (@rev _)) in E. rewrite rev_involutive in E.
        rewrite E. simpl rev. rewrite js_last_snoc, length_app. simpl.
        destruct (0 <? Z.of_nat (List.length (rev rest) + 1)) eqn:E0;
          [reflexivity|apply Z.ltb_ge in E0; lia].
  - intros final v.
    destruct (ledger_unfold clients currentClient transactions range currentPage)
      as (Ho & Hc & He).
    subst final v. rewrite Hc, Ho, He. split.
    + apply (StronglySorted_rev
               (fun a b => AdminWalletLedger.entry_createdAt a
                           <= AdminWalletLedger.entry_createdAt b)).
      apply (StronglySorted_map AdminWalletLedger.entry_createdAt Z.le).
      rewrite toEntries_createdAt.
      apply (StronglySorted_map_back
               (fun m => tx_createdAt (AdminWalletLedger.originalTx m)) Z.le).
      do 2 apply StronglySorted_filter.
      unfold AdminWalletLedger.adminMovements.
      apply (StronglySorted_map_back (AdminWalletLedger.mirror clients)
               (fun a b => tx_createdAt (AdminWalletLedger.originalTx a)
                           <= tx_createdAt (AdminWalletLedger.originalTx b))).
      apply sorted_oldest_first.
    + set (entries := AdminWalletLedger.toEntries _ _).
      unfold AdminWalletLedger.periodClosingBalance.
      destruct (rev entries) as [|e rest] eqn:E.
      * apply (f_equal (@rev _)) in E. rewrite rev_involutive in E.
        rewrite E. reflexivity.
      * apply (f_equal (@rev _)) in E. rewrite rev_involutive in E.
        rewrite E. simpl rev. rewrite js_last_snoc, length_app. simpl.
        destruct (0 <? Z.of_nat (List.length (rev rest) + 1)) eqn:E0;
          [reflexivity|apply Z.ltb_ge in E0; lia].
Qed.
End DisplayOrder.

(** ** The period filter *)

Section PeriodClaims.
Import FinancialLedger.

Lemma shown_iff (transactions : list Transaction) (clientId : string)
      (range : option DateRange) (tx : Transaction) :
  In tx (map row_tx (transactionsWithRunningBalance transactions clientId range))
  <-> In tx transactions /\ ownedBy clientId tx = true
      /\ inRequestedPeriod range tx = true.
Proof.
  unfold transactionsWithRunningBalance.
  rewrite withRunningBalance_txs, transactionsInPeriod_filter.
  unfold allClientTxs. rewrite filter_In, sort_by_In, filter_In. tauto.
Qed.

(** X5.  When local midnights go back in time with the days (29 days ago
    before 6 days ago before today), the filters are nested: every
    transaction listed under "today" is listed under "last7", every one
    under "last7" is listed under "last30", and every one under "last30" is
    listed under "all".  A filter key other than these three shows all
    time. *)
Theorem period_filters_nested
        (clk : Clock) (transactions : list Transaction) (clientId : string) :
  clock_startOfDay clk (-29) <= clock_startOfDay clk (-6) ->
  clock_startOfDay clk (-6) <= clock_startOfDay clk 0 ->
  let shown filter :=
    map row_tx (transactionsWithRunningBalance transactions clientId
                  (getDateRange clk filter)) in
  incl (shown "today"%string) (shown "last7"%string)
  /\ incl (shown "last7"%string) (shown "last30"%string)
  /\ incl (shown "last30"%string) (shown "all"%string)
  /\ (forall filter,
        filter <> "today"%string -> filter <> "last7"%string ->
        filter <> "last30"%string ->
        shown filter = shown "all"%string).
Proof.
  intros H1 H2 shown.
  assert (Hstep : forall a b,
            (forall tx, inRequestedPeriod (getDateRange clk a) tx = true ->
                        inRequestedPeriod (getDateRange clk b) tx = true) ->
            incl (shown a) (shown b)).
  { intros a b Hab tx Hin. subst shown. cbv beta in *.
    apply shown_iff in Hin. apply shown_iff.
    destruct Hin as (Hi & Ho & Hp). auto. }
  split; [|split; [|split]].
  - apply Hstep. intro tx. simpl. unfold inPeriod. simpl.
    rewrite !andb_true_iff, !Z.leb_le, !Z.ltb_lt. lia.
  - apply Hstep. intro tx. simpl. unfold inPeriod. simpl.
    rewrite !andb_true_iff, !Z.leb_le, !Z.ltb_lt. lia.
  - apply Hstep. intros tx _. reflexivity.
  - intros filter Ha Hb Hc. subst shown. cbv beta.
    replace (getDateRange clk filter) with (@None DateRange); [reflexivity|].
    unfold getDateRange.
    apply String.eqb_neq in Ha, Hb, Hc. now rewrite Ha, Hb, Hc.
Qed.

(** X6.  For a bounded period, the transaction whose stored balance
    becomes the opening balance is the newest transaction of the client
    strictly before the period start; when the client has no transaction
    before the start, the period opens at zero. *)
Theorem opening_comes_from_newest_earlier_transaction
        (transactions : list Transaction) (clientId : string) (r : DateRange) :
  let all := allClientTxs transactions clientId in
  match lastTxBeforePeriod r all with
  | Some tx =>
      In tx transactions /\ ownedBy clientId tx = true
      /\ tx_createdAt tx < range_start r
      /\ (forall tx', In tx' transactions -> ownedBy clientId tx' = true ->
            tx_createdAt tx' < range_start r ->
            tx_createdAt tx' <= tx_createdAt tx)
      /\ periodOpeningBalance (Some r) all = tx_balanceAfter tx
  | None =>
      (forall tx', In tx' transactions -> ownedBy clientId tx' = true ->
         range_start r <= tx_createdAt tx')
      /\ periodOpeningBalance (Some r) all = 0
  end.
Proof.
  intro all.
  assert (Hmem : forall tx, In tx all <-> In tx transactions /\ ownedBy clientId tx = true).
  { intro tx. subst all. unfold allClientTxs.
    rewrite sort_by_In, filter_In. reflexivity. }
  unfold periodOpeningBalance, lastTxBeforePeriod.
  pose proof (js_find_first (fun tx => tx_createdAt tx <? range_start r) (rev all))
    as Hf.
  destruct (js_find _ (rev all)) as [tx|].
  - destruct Hf as (l1 & l2 & Hrev & Hp & Hl1).
    apply Z.ltb_lt in Hp.
    assert (Hall : all = rev l2 ++ tx :: rev l1).
    { apply (f_equal (@rev _)) in Hrev. rewrite rev_involutive in Hrev.
      rewrite Hrev, rev_app_distr. simpl. now rewrite <- app_assoc. }
    assert (Htx : In tx all) by (rewrite Hall; apply in_elt).
    apply Hmem in Htx. destruct Htx as [Hin Hown].
    repeat split; auto.
    intros tx' Hin' Hown' Hlt'.
    assert (Hin'' : In tx' all) by (apply Hmem; auto).
    pose proof (allClientTxs_chronological transactions clientId) as Hs.
    fold all in Hs. rewrite Hall in Hs, Hin''.
    apply StronglySorted_middle in Hs. destruct Hs as [Hbefore _].
    apply in_app_or in Hin''. destruct Hin'' as [Hb|[<-|Ha]].
    + rewrite Forall_forall in Hbefore. now apply Hbefore.
    + lia.
    + rewrite Forall_forall in Hl1. apply in_rev in Ha.
      specialize (Hl1 tx' Ha). apply Z.ltb_ge in Hl1. lia.
  - split; [|reflexivity].
    intros tx' Hin' Hown'.
    rewrite Forall_forall in Hf.
    assert (Hin'' : In tx' (rev all)) by (apply in_rev; rewrite rev_involutive; apply Hmem; auto).
    specialize (Hf tx' Hin''). now apply Z.ltb_ge in Hf.
Qed.

(** X7.  When no two transactions of the client carry the same timestamp,
    the ledger view does not depend on the order in which the transactions
    are held: any rearrangement of the list gives the same rows, balances,
    totals and pages. *)
Theorem ledger_ignores_arrival_order
        (transactions transactions' : list Transaction) (clientId : string)
        (range : option DateRange) (currentPage : Z) :
  Permutation transactions transactions' ->
  NoDup (map tx_createdAt (filter (ownedBy clientId) transactions)) ->
  ledger transactions clientId range currentPage
  = ledger transactions' clientId range currentPage.
Proof.
  intros Hp Hnd.
  assert (Hall : allClientTxs transactions clientId
                 = allClientTxs transactions' clientId).
  { apply (sorted_perm_unique (fun a b => tx_createdAt a <= tx_createdAt b)).
    - apply allClientTxs_chronological.
    - apply allClientTxs_chronological.
    - unfold allClientTxs.
      eapply perm_trans; [apply Permutation_sym, sort_by_perm|].
      eapply perm_trans; [|apply sort_by_perm].
      clear Hnd. induction Hp; simpl.
      + constructor.
      + destruct (ownedBy clientId x); [now constructor|assumption].
      + destruct (ownedBy clientId x), (ownedBy clientId y);
          try apply Permutation_refl. apply perm_swap.
      + eapply perm_trans; eassumption.
    - intros a b Ha Hb Hab Hba.
      unfold allClientTxs in Ha, Hb. apply sort_by_In in Ha, Hb.
      assert (Heq : tx_createdAt a = tx_createdAt b) by lia.
      revert Ha Hb Heq Hnd. clear.
      induction (filter (ownedBy clientId) transactions) as [|x l IH];
        simpl; [contradiction|].
      intros Ha Hb Heq Hnd. inversion Hnd as [|? ? Hx Hl]; subst.
      destruct Ha as [<-|Ha], Hb as [<-|Hb]; auto.
      + exfalso. apply Hx. rewrite Heq. now apply in_map.
      + exfalso. apply Hx. rewrite <- Heq. now apply in_map. }
  unfold ledger. now rewrite Hall.
Qed.
End PeriodClaims.

(** ** The two client ledgers compared *)

Section TwoLedgers.

Lemma filter_perm {A : Type} (p : A -> bool) (l1 l2 : list A) :
  Permutation l1 l2 -> Permutation (filter p l1) (filter p l2).
Proof.
  induction 1 as [|x l l' _ IH|x y l|l l' l'' _ IH1 _ IH2]; simpl.
  - constructor.
  - destruct (p x); [now constructor|assumption].
  - destruct (p x), (p y); try apply Permutation_refl. apply perm_swap.
  - eapply perm_trans; eassumption.
Qed.

Lemma same_period_transactions (transactions : list Transaction)
      (clientId : string) (range : option DateRange) :
  Permutation
    (FinancialLedgerCorrected.filteredTransactions transactions clientId range)
    (FinancialLedger.transactionsInPeriod range
       (FinancialLedger.allClientTxs transactions clientId)).
Proof.
  rewrite filteredTransactions_filter, transactionsInPeriod_filter.
  apply filter_perm. unfold FinancialLedger.allClientTxs.
  eapply perm_trans; [apply Permutation_sym, sort_by_perm|apply sort_by_perm].
Qed.

(** X8.  For a client that is found, the two versions of the client ledger
    list the same transactions for every period, on as many rows and as
    many pages. *)
Theorem both_ledgers_same_transactions
        (transactions : list Transaction) (clients : list Client)
        (currentClient : option Client) (clientId : string)
        (range : option DateRange) (currentPage : Z) (c : Client) :
  FinancialLedgerCorrected.client clients currentClient clientId = Some c ->
  let d := FinancialLedgerCorrected.ledger transactions clients currentClient
                                           clientId range in
  let v := FinancialLedger.ledger transactions clientId range currentPage in
  Permutation
    (map FinancialLedgerCorrected.row_tx
         (FinancialLedgerCorrected.detailedTransactions d))
    (map FinancialLedger.row_tx
         (FinancialLedger.finalSortedTransactions transactions clientId range))
  /\ List.length (FinancialLedgerCorrected.detailedTransactions d)
     = List.length
         (FinancialLedger.finalSortedTransactions transactions clientId range)
  /\ FinancialLedgerCorrected.totalPages d = FinancialLedger.totalPages v.
Proof.
  intros Hc d v.
  assert (Hp : Permutation
                 (map FinancialLedgerCorrected.row_tx
                      (FinancialLedgerCorrected.detailedTransactions d))
                 (map FinancialLedger.row_tx
                      (FinancialLedger.finalSortedTransactions
                         transactions clientId range))).
  { subst d. unfold FinancialLedgerCorrected.ledger, FinancialLedgerCorrected.detailed.
    rewrite Hc. simpl. rewrite withCorrectedBalance_txs.
    unfold FinancialLedger.finalSortedTransactions,
      FinancialLedger.transactionsWithRunningBalance.
    rewrite map_rev, withRunningBalance_txs.
    eapply perm_trans; [apply same_period_transactions|apply Permutation_rev]. }
  assert (Hl : List.length (FinancialLedgerCorrected.detailedTransactions d)
               = List.length
                   (FinancialLedger.finalSortedTransactions
                      transactions clientId range)).
  { apply Permutation_length in Hp. now rewrite !length_map in Hp. }
  split; [exact Hp|]. split; [exact Hl|].
  unfold FinancialLedgerCorrected.totalPages. rewrite Hl. reflexivity.
Qed.

End TwoLedgers.

Section LedgersAgree.

Lemma distinct_timestamps_inj (l : list Transaction) (a b : Transaction) :
  NoDup (map tx_createdAt l) -> In a l -> In b l ->
  tx_createdAt a = tx_createdAt b -> a = b.
Proof.
  induction l as [|x r IH]; simpl; [contradiction|].
  intros Hnd Ha Hb Heq. inversion Hnd as [|? ? Hx Hl]; subst.
  destruct Ha as [<-|Ha], Hb as [<-|Hb]; auto.
  - exfalso. apply Hx. rewrite Heq. now apply in_map.
  - exfalso. apply Hx. rewrite <- Heq. now apply in_map.
Qed.

Lemma newest_is_reverse_of_oldest (l : list Transaction) :
  NoDup (map tx_createdAt l) ->
  sort_by FinancialLedgerCorrected.newest_first l
  = rev (sort_by FinancialLedger.oldest_first l).
Proof.
  intro Hnd.
  apply (sorted_perm_unique (fun a b => tx_createdAt b <= tx_createdAt a)).
  - eapply StronglySorted_weaken;
      [|apply sort_by_sorted; [apply newest_first_total|apply newest_first_trans]].
    intros a b H. unfold FinancialLedgerCorrected.newest_first in H.
    apply Z.leb_le in H. lia.
  - apply (StronglySorted_rev (fun a b => tx_createdAt a <= tx_createdAt b)).
    apply sorted_oldest_first.
  - eapply perm_trans; [apply Permutation_sym, sort_by_perm|].
    eapply perm_trans; [apply sort_by_perm|apply Permutation_rev].
  - intros a b Ha Hb Hab Hba. apply sort_by_In in Ha, Hb.
    apply (distinct_timestamps_inj l); auto. lia.
Qed.

Lemma js_slice_map {A B : Type} (f : A -> B) (s e : Z) (l : list A) :
  map f (js_slice s e l) = js_slice s e (map f l).
Proof.
  unfold js_slice. rewrite length_map, skipn_map, firstn_map. reflexivity.
Qed.

(** X10.  When no two transactions of the client carry the same timestamp,
    the two versions of the client ledger list the same transactions in the
    same order, newest first, for every period and on every page. *)
Theorem ledgers_list_same_order
        (transactions : list Transaction) (clients : list Client)
        (currentClient : option Client) (clientId : string)
        (range : option DateRange) (c : Client) :
  FinancialLedgerCorrected.client clients currentClient clientId = Some c ->
  NoDup (map tx_createdAt (filter (ownedBy clientId) transactions)) ->
  let d := FinancialLedgerCorrected.ledger transactions clients currentClient
                                           clientId range in
  map FinancialLedgerCorrected.row_tx
      (FinancialLedgerCorrected.detailedTransactions d)
  = map FinancialLedger.row_tx
        (FinancialLedger.finalSortedTransactions transactions clientId range)
  /\ forall currentPage,
       map FinancialLedgerCorrected.row_tx
           (FinancialLedgerCorrected.paginatedTransactions d currentPage)
       = map FinancialLedger.row_tx
             (FinancialLedger.paginatedTransactions
                (FinancialLedger.ledger transactions clientId range currentPage)).
Proof.
  intros Hc Hnd d.
  assert (Hrows : map FinancialLedgerCorrected.row_tx
                      (FinancialLedgerCorrected.detailedTransactions d)
                  = map FinancialLedger.row_tx
                        (FinancialLedger.finalSortedTransactions
                           transactions clientId range)).
  { subst d. unfold FinancialLedgerCorrected.ledger, FinancialLedgerCorrected.detailed.
    rewrite Hc. simpl. rewrite withCorrectedBalance_txs.
    unfold FinancialLedger.finalSortedTransactions,
      FinancialLedger.transactionsWithRunningBalance.
    rewrite map_rev, withRunningBalance_txs.
    rewrite filteredTransactions_filter, transactionsInPeriod_filter.
    unfold FinancialLedger.allClientTxs.
    rewrite (newest_is_reverse_of_oldest _ Hnd). apply filter_rev. }
  split; [exact Hrows|].
  intro currentPage.
  unfold FinancialLedgerCorrected.paginatedTransactions, FinancialLedger.ledger.
  cbn [FinancialLedger.paginatedTransactions].
  rewrite !js_slice_map. f_equal. exact Hrows.
Qed.

(** X11.  The ledger that walks back from the wallet anchors on a client
    whose id is the requested one: the logged-in client when that is a
    client viewing their own ledger (whatever the client list holds),
    otherwise a client of the list with that id.  When there is none it
    shows no row and zero totals. *)
Theorem corrected_ledger_client
        (transactions : list Transaction) (clients : list Client)
        (currentClient : option Client) (clientId : string)
        (range : option DateRange) :
  (forall me, currentClient = Some me -> client_role me = ClientRole ->
     client_id me = clientId ->
     FinancialLedgerCorrected.client clients currentClient clientId = Some me)
  /\ match FinancialLedgerCorrected.client clients currentClient clientId with
     | Some c =>
         client_id c = clientId /\ (currentClient = Some c \/ In c clients)
     | None =>
         (forall c, In c clients -> client_id c <> clientId)
         /\ FinancialLedgerCorrected.ledger transactions clients currentClient
                                            clientId range
            = FinancialLedgerCorrected.mkDetailed
                [] (FinancialLedgerCorrected.mkSummary 0 0)
     end.
Proof.
  assert (Hfind : match js_find (fun c => String.eqb (client_id c) clientId) clients with
                  | Some c => client_id c = clientId /\ In c clients
                  | None => forall c, In c clients -> client_id c <> clientId
                  end).
  { pose proof (js_find_first (fun c => String.eqb (client_id c) clientId) clients)
      as Hf.
    destruct (js_find _ clients) as [c|].
    - destruct Hf as (l1 & l2 & -> & Hp & _). apply String.eqb_eq in Hp.
      split; [exact Hp|apply in_elt].
    - intros c Hin. rewrite Forall_forall in Hf.
      apply String.eqb_neq. now apply Hf. }
  split.
  - intros me -> Hrole Hid. unfold FinancialLedgerCorrected.client.
    rewrite Hrole. simpl. apply String.eqb_eq in Hid. now rewrite Hid.
  - unfold FinancialLedgerCorrected.ledger, FinancialLedgerCorrected.client.
    destruct currentClient as [me|].
    + destruct (Role_eqb (client_role me) ClientRole
                && String.eqb (client_id me) clientId) eqn:E.
      * apply andb_prop in E. destruct E as [_ E]. apply String.eqb_eq in E. auto.
      * destruct (js_find _ clients) as [c|]; [tauto|]. split; [exact Hfind|reflexivity].
    + destruct (js_find _ clients) as [c|]; [tauto|]. split; [exact Hfind|reflexivity].
Qed.
End LedgersAgree.

(** ** AdminWalletLedger: periods and totals *)

Section AdminPeriods.
Import AdminWalletLedger.

Lemma filter_twice {A : Type} (p q : A -> bool) (l : list A) :
  filter p (filter q l) = filter (fun x => q x && p x) l.
Proof.
  induction l as [|x r IH]; simpl; [reflexivity|].
  destruct (q x); simpl; [destruct (p x)|]; now rewrite IH.
Qed.

(** The closing balance of a period is the current wallet minus what moved
    from the period's end on. *)
Lemma admin_closing_formula (clients : list Client) (currentClient : option Client)
      (transactions : list Transaction) (range : option DateRange)
      (currentPage : Z) :
  closingBalance (ledger clients currentClient transactions range currentPage)
  = currentWallet currentClient
    - totalNetMovement
        (filter (fun m => fromStart range m && negb (beforeEnd range m))
                (adminMovements clients transactions)).
Proof.
  destruct (ledger_unfold clients currentClient transactions range currentPage)
    as (_ & Hc & _).
  rewrite Hc, admin_closing_is_fold.
  rewrite (totalNetMovement_split (beforeEnd range)
             (filter (fromStart range) (adminMovements clients transactions))).
  rewrite (filter_twice (fun m => negb (beforeEnd range m))). lia.
Qed.

(** X13.  Consecutive periods chain: when one period ends where the next
    starts, the closing balance of the first is the opening balance of the
    second. *)
Theorem admin_periods_chain
        (clients : list Client) (currentClient : option Client)
        (transactions : list Transaction) (r1 r2 : DateRange) (p1 p2 : Z) :
  range_start r1 <= range_end r1 ->
  range_end r1 = range_start r2 ->
  closingBalance (ledger clients currentClient transactions (Some r1) p1)
  = openingBalance (ledger clients currentClient transactions (Some r2) p2).
Proof.
  intros Hle Heq.
  rewrite admin_closing_formula.
  destruct (ledger_unfold clients currentClient transactions (Some r2) p2)
    as (Ho & _ & _).
  rewrite Ho. do 2 f_equal.
  apply filter_ext. intro m. simpl. rewrite <- Heq.
  destruct (range_start r1 <=? tx_createdAt (originalTx m)) eqn:E1;
    destruct (tx_createdAt (originalTx m) <? range_end r1) eqn:E2;
    destruct (range_end r1 <=? tx_createdAt (originalTx m)) eqn:E3;
    try reflexivity;
    try apply Z.leb_le in E1; try apply Z.leb_gt in E1;
    try apply Z.ltb_lt in E2; try apply Z.ltb_ge in E2;
    try apply Z.leb_le in E3; try apply Z.leb_gt in E3; lia.
Qed.

End AdminPeriods.

(** ** WinnersReport: which bets are listed, and in which order *)

Section ListedWinners.
Import WinnersReport.
Local Open Scope Q_scope.

Variable WinningNumbers : Type.
Variable isBetWinner : Bet -> WinningNumbers -> bool.

Lemma settle_fold_bets (clients : list Client) (wn : WinningNumbers)
      (bets : list Bet) (st : WinnersData) :
  map wd_bet (winners (fold_left (settleStep WinningNumbers isBetWinner clients wn)
                                 bets st))
  = map wd_bet (winners st)
    ++ filter (paysPrize WinningNumbers isBetWinner clients wn) bets.
Proof.
  revert st. induction bets as [|bet rest IH]; intro st; simpl.
  - now rewrite app_nil_r.
  - rewrite IH. unfold settleStep, paysPrize.
    destruct (isBetWinner bet wn); [|reflexivity].
    destruct (clientMap_get clients (bet_clientId bet)) as [c|]; [|reflexivity].
    destruct (client_prizeRates c) as [rates|]; [|reflexivity].
    destruct (ratePositive (resolveRate rates bet)) eqn:Ep; [|reflexivity].
    apply ratePositive_iff in Ep. destruct Ep as (q & -> & _).
    simpl. rewrite map_app, <- app_assoc. reflexivity.
Qed.

(** X16.  For a finished draw with declared numbers, the bets the report
    lists are exactly the bets recorded for the draw that win, whose client
    is known with a rate table, and whose resolved rate is positive; they
    are listed in the order of the recorded bets, each as often as it was
    recorded. *)
Theorem listed_bets_are_the_paying_bets
        (clients : list Client) (betsByDraw : string -> option (list Bet))
        (dr : Draw WinningNumbers) (wn : WinningNumbers) :
  draw_status _ dr = "FINISHED"%string ->
  draw_winningNumbers _ dr = Some wn ->
  let d := winnersData WinningNumbers isBetWinner clients betsByDraw (Some dr) in
  map wd_bet (winners d)
  = filter (paysPrize WinningNumbers isBetWinner clients wn)
           (drawBets _ betsByDraw dr)
  /\ (totalWinningBets d <= List.length (drawBets _ betsByDraw dr))%nat.
Proof.
  intros Hs Hw d.
  assert (H : map wd_bet (winners d)
              = filter (paysPrize WinningNumbers isBetWinner clients wn)
                       (drawBets _ betsByDraw dr)).
  { subst d. unfold winnersData. rewrite Hs, Hw. simpl.
    now rewrite settle_fold_bets. }
  split; [exact H|].
  unfold totalWinningBets. rewrite <- (length_map wd_bet), H.
  apply filter_length_le.
Qed.

(** X17.  Without a draw, with a draw that is not FINISHED, with no
    declared numbers, or with no bet recorded for the draw, the report is
    empty: no winner, a total payout of zero and no group. *)
Theorem no_report_without_finished_draw
        (clients : list Client) (betsByDraw : string -> option (list Bet))
        (draw : option (Draw WinningNumbers)) :
  (draw = None
   \/ (exists dr, draw = Some dr
         /\ (draw_status _ dr <> "FINISHED"%string
             \/ draw_winningNumbers _ dr = None
             \/ betsByDraw (draw_id _ dr) = None
             \/ betsByDraw (draw_id _ dr) = Some []))) ->
  let d := winnersData WinningNumbers isBetWinner clients betsByDraw draw in
  winners d = [] /\ totalPayout d = 0
  /\ groupedWinners (winners d) = [] /\ totalUniqueWinners (winners d) = 0%nat.
Proof.
  intros H d.
  assert (Hd : d = mkWinnersData [] 0).
  { subst d. unfold winnersData.
    destruct H as [->|(dr & -> & H)]; [reflexivity|].
    destruct (String.eqb (draw_status _ dr) "FINISHED") eqn:Es; [|reflexivity].
    apply String.eqb_eq in Es. simpl.
    destruct (draw_winningNumbers _ dr) as [wn|]; [|reflexivity].
    unfold drawBets.
    destruct H as [H|[H|[H|H]]]; try congruence; now rewrite H. }
  rewrite Hd. repeat split.
Qed.
End ListedWinners.

Section GroupOrder.
Import WinnersReport.
Local Open Scope Q_scope.

Lemma highest_first_iff (a b : GroupedWinner) :
  highest_first a b = true <-> gw_totalWon b <= gw_totalWon a.
Proof.
  unfold highest_first. rewrite Qle_bool_iff. split; intro H.
  - apply Qle_minus_iff in H. apply Qle_minus_iff.
    setoid_replace (gw_totalWon a + - gw_totalWon b)
      with (0 + - (gw_totalWon b - gw_totalWon a)) by ring. exact H.
  - apply Qle_minus_iff. apply Qle_minus_iff in H.
    setoid_replace (0 + - (gw_totalWon b - gw_totalWon a))
      with (gw_totalWon a + - gw_totalWon b) by ring. exact H.
Qed.

(** X18.  The groups of the report are listed by decreasing [totalWon]:
    no group is listed above a group that won more. *)
Theorem groups_by_decreasing_total (ws : list WinningBetDetail) :
  StronglySorted (fun a b => gw_totalWon b <= gw_totalWon a)
                 (groupedWinners ws).
Proof.
  unfold groupedWinners.
  eapply StronglySorted_weaken; [|apply sort_by_sorted].
  - intros a b H. now apply highest_first_iff.
  - intros a b. rewrite !highest_first_iff.
    destruct (Qlt_le_dec (gw_totalWon a) (gw_totalWon b)) as [H|H].
    + right. now apply Qlt_le_weak.
    + now left.
  - intros a b c. rewrite !highest_first_iff. intros H1 H2.
    eapply Qle_trans; eassumption.
Qed.
End GroupOrder.

(** ** WinnersReport with sortable columns *)

Section SortableTable.
Import WinnersReport WinnersTable.

Lemma string_leb_iff (a b : string) :
  String.leb a b = true <-> a = b \/ OrderedTypeEx.String_as_OT.lt a b.
Proof.
  unfold String.leb.
  destruct (String.compare a b) eqn:E.
  - apply String.compare_eq_iff in E. tauto.
  - apply OrderedTypeEx.String_as_OT.cmp_lt in E. tauto.
  - split; [discriminate|]. intros [->|H].
    + assert (Hr : String.compare b b = Eq)
        by (apply OrderedTypeEx.String_as_OT.cmp_eq; reflexivity).
      congruence.
    + apply OrderedTypeEx.String_as_OT.cmp_lt in H.
      unfold OrderedTypeEx.String_as_OT.cmp in H. congruence.
Qed.

Lemma string_leb_trans (a b c : string) :
  String.leb a b = true -> String.leb b c = true -> String.leb a c = true.
Proof.
  rewrite !string_leb_iff. intros [->|H1] [->|H2]; auto.
  right. eapply OrderedTypeEx.String_as_OT.lt_trans; eassumption.
Qed.

Lemma string_ltb_false (a b : string) :
  String.ltb b a = false <-> String.leb a b = true.
Proof.
  unfold String.ltb, String.leb. rewrite (String.compare_antisym a b).
  destruct (String.compare b a); simpl; split; congruence.
Qed.

Lemma verdict_le (d : Direction) (lt gt : bool) :
  (lt = true -> gt = false) ->
  verdict d lt gt <= 0
  <-> match d with Asc => gt = false | Desc => lt = false end.
Proof.
  intro Hasym. unfold verdict.
  destruct d, lt, gt; try (specialize (Hasym eq_refl)); try discriminate;
    split; intro; try reflexivity; try lia; try discriminate.
Qed.

Lemma string_ltb_asym (a b : string) :
  String.ltb a b = true -> String.ltb b a = false.
Proof.
  unfold String.ltb. rewrite (String.compare_antisym a b).
  destruct (String.compare b a); simpl; congruence.
Qed.

Lemma Qltb_false (a b : Q) : Qltb b a = false <-> (a <= b)%Q.
Proof.
  unfold Qltb. rewrite negb_false_iff. apply Qle_bool_iff.
Qed.

Lemma Qltb_asym (a b : Q) : Qltb a b = true -> Qltb b a = false.
Proof.
  unfold Qltb. rewrite negb_true_iff, negb_false_iff. intro H.
  apply Qle_bool_iff. apply Qlt_le_weak, Qnot_le_lt.
  intro Hle. apply Qle_bool_iff in Hle. congruence.
Qed.

Lemma compareWinners_le (s : Sort) (a b : WinningBetDetail) :
  (compareWinners s a b <=? 0) = true <-> listedBefore s a b.
Proof.
  unfold compareWinners, listedBefore, keyLe.
  rewrite Z.leb_le.
  destruct (sort_key s); cbv zeta.
  - rewrite verdict_le by apply string_ltb_asym.
    destruct (sort_direction s); apply string_ltb_false.
  - rewrite verdict_le by apply Qltb_asym.
    destruct (sort_direction s); apply Qltb_false.
  - rewrite verdict_le by (rewrite Z.ltb_lt, Z.ltb_ge; lia).
    destruct (sort_direction s); rewrite Z.ltb_ge; reflexivity.
Qed.

Lemma keyLe_total (k : SortKey) (a b : WinningBetDetail) :
  keyLe k a b \/ keyLe k b a.
Proof.
  destruct k; simpl.
  - apply String.leb_total.
  - destruct (Qlt_le_dec (wd_prizeWon a) (wd_prizeWon b)) as [H|H];
      [left; now apply Qlt_le_weak|now right].
  - lia.
Qed.

Lemma keyLe_trans (k : SortKey) (a b c : WinningBetDetail) :
  keyLe k a b -> keyLe k b c -> keyLe k a c.
Proof.
  destruct k; simpl.
  - apply string_leb_trans.
  - apply Qle_trans.
  - lia.
Qed.

(** X19.  The sorted table holds the winners, each once, arranged by the
    chosen column: ascending, no row is above a row with a smaller value;
    descending, no row is above a row with a larger value.  Usernames
    are compared as strings, stakes and prizes as numbers. *)
Theorem sorted_winners_ordered (s : Sort) (ws : list WinningBetDetail) :
  Permutation ws (sortedWinners s ws)
  /\ StronglySorted (listedBefore s) (sortedWinners s ws).
Proof.
  split; [apply sort_by_perm|].
  unfold sortedWinners.
  eapply StronglySorted_weaken; [|apply sort_by_sorted].
  - intros a b H. now apply compareWinners_le.
  - intros a b. rewrite !compareWinners_le. unfold listedBefore.
    destruct (sort_direction s); apply keyLe_total.
  - intros a b c. rewrite !compareWinners_le. unfold listedBefore.
    destruct (sort_direction s); intros H1 H2;
      eapply keyLe_trans; eassumption.
Qed.

(** X20.  Clicking a column header that is not the sorted one sorts the
    table by that column in descending order, largest first; clicking the
    sorted column flips its direction, so that a third click on one header
    brings back the state of the first.  The table opens sorted by prize,
    largest first, and a first click on the prize header turns it
    ascending. *)
Theorem header_click_toggles (key : SortKey) (prev : Sort)
        (ws : list WinningBetDetail) :
  (sort_key prev <> key -> handleSort key prev = mkSort key Desc)
  /\ handleSort key (mkSort key Desc) = mkSort key Asc
  /\ handleSort key (mkSort key Asc) = mkSort key Desc
  /\ handleSort key (handleSort key (handleSort key prev)) = handleSort key prev
  /\ (sort_key prev <> key ->
      StronglySorted (fun a b => keyLe key b a)
                     (sortedWinners (handleSort key prev) ws))
  /\ StronglySorted (fun a b => (wd_prizeWon b <= wd_prizeWon a)%Q)
                    (sortedWinners initialSort ws)
  /\ handleSort ByPrizeWon initialSort = mkSort ByPrizeWon Asc.
Proof.
  assert (Hrefl : SortKey_eqb key key = true) by (destruct key; reflexivity).
  assert (Hneq : sort_key prev <> key -> SortKey_eqb (sort_key prev) key = false)
    by (destruct (sort_key prev), key; simpl; congruence).
  assert (Hd : handleSort key (mkSort key Desc) = mkSort key Asc)
    by (unfold handleSort; simpl; now rewrite Hrefl).
  assert (Ha : handleSort key (mkSort key Asc) = mkSort key Desc)
    by (unfold handleSort; simpl; now rewrite Hrefl).
  split; [intro Hk; unfold handleSort; now rewrite (Hneq Hk)|].
  split; [exact Hd|]. split; [exact Ha|].
  split.
  { assert (Hcases : handleSort key prev = mkSort key Asc
                     \/ handleSort key prev = mkSort key Desc).
    { unfold handleSort.
      destruct (SortKey_eqb (sort_key prev) key
                && Direction_eqb (sort_direction prev) Desc); auto. }
    destruct Hcases as [Hh|Hh]; rewrite Hh; now rewrite ?Ha, ?Hd, ?Ha. }
  split.
  { intro Hk.
    replace (handleSort key prev) with (mkSort key Desc)
      by (unfold handleSort; now rewrite (Hneq Hk)).
    apply (sorted_winners_ordered (mkSort key Desc) ws). }
  split; [apply (sorted_winners_ordered initialSort ws)|reflexivity].
Qed.
End SortableTable.

(** ** Expanding and collapsing a winner *)

Section ToggleClaims.
Import ExpandedWinners.

Lemma set_has_In (id : string) (s : list string) :
  set_has id s = true <-> In id s.
Proof.
  unfold set_has. rewrite existsb_exists. split.
  - intros (x & Hin & Heq). apply String.eqb_eq in Heq. now subst.
  - intro H. exists id. split; [exact H|apply String.eqb_refl].
Qed.

Lemma toggle_In (id x : string) (s : list string) :
  In x (handleToggleExpand id s)
  <-> (x <> id /\ In x s) \/ (x = id /\ ~ In id s).
Proof.
  unfold handleToggleExpand, set_add, set_delete. cbv zeta.
  destruct (set_has id s) eqn:E.
  - apply set_has_In in E. rewrite filter_In, negb_true_iff, String.eqb_neq.
    split; [tauto|]. intros [[H1 H2]|[H1 H2]]; tauto.
  - assert (Hn : ~ In id s) by (intro H; apply set_has_In in H; congruence).
    rewrite in_app_iff. simpl. split.
    + intros [H|[<-|[]]]; [|tauto].
      left. split; [|exact H]. intros ->. tauto.
    + intros [[H1 H2]|[H1 H2]]; auto.
Qed.

(** X21.  Toggling a winner flips whether that winner is expanded and
    leaves every other winner as it was; toggling the same winner twice
    brings back the same expanded winners; and the set never holds a
    winner twice. *)
Theorem toggle_expand_flips_one (clientId : string) (prev : list string) :
  (set_has clientId (handleToggleExpand clientId prev)
   = negb (set_has clientId prev))
  /\ (forall other, other <> clientId ->
        set_has other (handleToggleExpand clientId prev) = set_has other prev)
  /\ (forall x, set_has x (handleToggleExpand clientId
                             (handleToggleExpand clientId prev))
                = set_has x prev)
  /\ (NoDup prev -> NoDup (handleToggleExpand clientId prev)).
Proof.
  assert (Hb : forall x s t, (In x s <-> In x t) -> set_has x s = set_has x t).
  { intros x s t H.
    destruct (set_has x s) eqn:E1; destruct (set_has x t) eqn:E2; try reflexivity.
    - apply set_has_In in E1. apply H in E1. apply set_has_In in E1. congruence.
    - apply set_has_In in E2. apply H in E2. apply set_has_In in E2. congruence. }
  split; [|split; [|split]].
  - destruct (set_has clientId prev) eqn:E; simpl.
    + destruct (set_has clientId (handleToggleExpand clientId prev)) eqn:E2;
        [|reflexivity].
      apply set_has_In, toggle_In in E2. apply set_has_In in E. tauto.
    + apply set_has_In, toggle_In. right. split; [reflexivity|].
      intro H. apply set_has_In in H. congruence.
  - intros other Hne. apply Hb. rewrite toggle_In. tauto.
  - intro x. apply Hb. rewrite !toggle_In.
    destruct (string_dec x clientId) as [->|Hne]; [|tauto].
    destruct (in_dec string_dec clientId prev); tauto.
  - intro Hnd. unfold handleToggleExpand, set_add, set_delete. cbv zeta.
    destruct (set_has clientId prev) eqn:E.
    + now apply NoDup_filter.
    + eapply Permutation_NoDup; [apply Permutation_cons_append|].
      constructor; [|exact Hnd].
      intro H. apply set_has_In in H. congruence.
Qed.
End ToggleClaims.

(** ** AppContext: bets by draw, clients *)

Section AppContextClaims.
Import AppContext WinnersReport.

Lemma map_push_get (key k : string) (bet : Bet) (m : BetsByDraw) :
  map_get k (map_push key bet m)
  = match map_get k m with
    | Some v => Some (if String.eqb k key then v ++ [bet] else v)
    | None => None
    end.
Proof.
  induction m as [|[k' v] r IH]; simpl; [reflexivity|].
  destruct (String.eqb k' key) eqn:E1; simpl.
  - destruct (String.eqb k' k) eqn:E2.
    + apply String.eqb_eq in E1, E2. subst.
      now rewrite String.eqb_refl.
    + apply String.eqb_eq in E1. subst k'.
      rewrite String.eqb_sym, E2.
      destruct (map_get k r); reflexivity.
  - destruct (String.eqb k' k) eqn:E2; [|exact IH].
    apply String.eqb_eq in E2. subst k'.
    now rewrite E1.
Qed.

Lemma map_get_snoc (k key : string) (v : list Bet) (m : BetsByDraw) :
  map_get k (m ++ [(key, v)])
  = match map_get k m with
    | Some v' => Some v'
    | None => if String.eqb key k then Some v else None
    end.
Proof.
  induction m as [|[k' v'] r IH]; simpl; [reflexivity|].
  destruct (String.eqb k' k); [reflexivity|exact IH].
Qed.

Lemma betsByDrawStep_get (k : string) (m : BetsByDraw) (bet : Bet) :
  map_get k (betsByDrawStep m bet)
  = match map_get k m with
    | Some v => Some (if forDraw k bet then v ++ [bet] else v)
    | None => if forDraw k bet then Some [bet] else None
    end.
Proof.
  unfold betsByDrawStep, forDraw.
  destruct (map_get (bet_drawId bet) m) as [v0|] eqn:E.
  - rewrite map_push_get. rewrite (String.eqb_sym k).
    destruct (map_get k m) as [v|] eqn:Ek; [reflexivity|].
    destruct (String.eqb (bet_drawId bet) k) eqn:E2; [|reflexivity].
    apply String.eqb_eq in E2. congruence.
  - rewrite map_get_snoc.
    destruct (map_get k m) as [v|] eqn:Ek; [|reflexivity].
    destruct (String.eqb (bet_drawId bet) k) eqn:E2; [|reflexivity].
    apply String.eqb_eq in E2. congruence.
Qed.

Lemma betsByDraw_fold (k : string) (bets : list Bet) (m : BetsByDraw) :
  map_get k (fold_left betsByDrawStep bets m)
  = match map_get k m, filter (forDraw k) bets with
    | Some v, more => Some (v ++ more)
    | None, [] => None
    | None, more => Some more
    end.
Proof.
  revert m. induction bets as [|bet rest IH]; intro m; simpl.
  - destruct (map_get k m); [now rewrite app_nil_r|reflexivity].
  - rewrite IH, betsByDrawStep_get.
    destruct (map_get k m) as [v|]; destruct (forDraw k bet); simpl;
      try reflexivity.
    now rewrite <- app_assoc.
Qed.

(** X22.  Looking a draw up in [betsByDraw] gives the bets placed on that
    draw, all of them, in the order of the bet list, and gives nothing
    when no bet was placed on it; so the winners report of a draw reads
    exactly the bets whose draw id is the draw's. *)
Theorem betsByDraw_lookup (bets : list Bet) (drawId : string)
        (WinningNumbers : Type) (dr : Draw WinningNumbers) :
  map_get drawId (betsByDraw bets)
  = match filter (forDraw drawId) bets with
    | [] => None
    | placed => Some placed
    end
  /\ drawBets WinningNumbers (fun id => map_get id (betsByDraw bets)) dr
     = filter (forDraw (draw_id _ dr)) bets.
Proof.
  assert (H : forall k, map_get k (betsByDraw bets)
                        = match filter (forDraw k) bets with
                          | [] => None
                          | placed => Some placed
                          end).
  { intro k. unfold betsByDraw. rewrite betsByDraw_fold. reflexivity. }
  split; [apply H|].
  unfold drawBets. rewrite H.
  destruct (filter (forDraw (draw_id _ dr)) bets); reflexivity.
Qed.

Lemma js_find_map_replace (clientId key : string) (updated : Client)
      (l : list Client) :
  client_id updated = clientId ->
  js_find (fun c => String.eqb (client_id c) key)
          (map (fun c => if String.eqb (client_id c) clientId then updated else c) l)
  = match js_find (fun c => String.eqb (client_id c) key) l with
    | Some c => Some (if String.eqb key clientId then updated else c)
    | None => None
    end.
Proof.
  intro Hid. induction l as [|c r IH]; [reflexivity|].
  cbn [map js_find].
  destruct (String.eqb (client_id c) clientId) eqn:E1.
  - apply String.eqb_eq in E1. rewrite Hid, E1.
    destruct (String.eqb clientId key) eqn:E2.
    + now rewrite String.eqb_sym, E2.
    + exact IH.
  - destruct (String.eqb (client_id c) key) eqn:E2.
    + apply String.eqb_eq in E2. subst key. now rewrite E1.
    + exact IH.
Qed.

(** X23.  After a client's record is replaced in the client list (wallet
    adjustment, edited details, bets placed by the admin), looking that id
    up gives the new record whenever the id was known, looking any other
    id up gives what it gave before, and the list keeps its length; an
    unknown id leaves the list unchanged. *)
Theorem replaced_client_is_found (clientId : string) (updatedClient : Client)
        (prev : list Client) :
  client_id updatedClient = clientId ->
  List.length (replaceClient clientId updatedClient prev) = List.length prev
  /\ (forall old, clientMap_get prev clientId = Some old ->
        clientMap_get (replaceClient clientId updatedClient prev) clientId
        = Some updatedClient)
  /\ (forall other, other <> clientId ->
        clientMap_get (replaceClient clientId updatedClient prev) other
        = clientMap_get prev other)
  /\ (clientMap_get prev clientId = None ->
        replaceClient clientId updatedClient prev = prev).
Proof.
  intro Hid. unfold replaceClient, clientMap_get.
  split; [apply length_map|].
  split; [|split].
  - intros old Hold. rewrite <- map_rev, (js_find_map_replace _ _ _ _ Hid), Hold.
    now rewrite String.eqb_refl.
  - intros other Hne. rewrite <- map_rev, (js_find_map_replace _ _ _ _ Hid).
    apply String.eqb_neq in Hne. rewrite Hne.
    destruct (js_find _ (rev prev)); reflexivity.
  - intro Hnone.
    pose proof (js_find_first (fun c => String.eqb (client_id c) clientId) (rev prev))
      as Hf.
    rewrite Hnone in Hf. rewrite Forall_forall in Hf.
    rewrite <- (map_id prev) at 2. apply map_ext_in.
    intros c Hin. rewrite (Hf c); [reflexivity|]. now apply -> in_rev.
Qed.
End AppContextClaims.

(** ** Countdown *)

Section CountdownClaims.
Import Countdown.
Local Open Scope Q_scope.

Lemma Qfloor_unique (x : Q) (z : Z) :
  inject_Z z <= x -> x < inject_Z (z + 1) -> Qfloor x = z.
Proof.
  intros H1 H2.
  pose proof (Qfloor_le x) as F1. pose proof (Qlt_floor x) as F2.
  assert (A : (z < Qfloor x + 1)%Z)
    by (rewrite Zlt_Qlt; eapply Qle_lt_trans; eassumption).
  assert (B : (Qfloor x < z + 1)%Z)
    by (rewrite Zlt_Qlt; eapply Qle_lt_trans; eassumption).
  lia.
Qed.

Lemma Qfloor_minus_Z (x : Q) (k : Z) :
  Qfloor (x - inject_Z k) = (Qfloor x - k)%Z.
Proof.
  apply Qfloor_unique.
  - unfold Zminus. rewrite inject_Z_plus, inject_Z_opp.
    apply Qplus_le_l, Qfloor_le.
  - replace (Qfloor x - k + 1)%Z with ((Qfloor x + 1) + - k)%Z by lia.
    rewrite inject_Z_plus, inject_Z_opp.
    apply Qplus_lt_l, Qlt_floor.
Qed.

Lemma ratio_nonneg (d n : Z) :
  (0 <= d)%Z -> (0 < n)%Z -> 0 <= inject_Z d / inject_Z n.
Proof.
  intros Hd Hn. apply Qle_shift_div_l.
  - change 0 with (inject_Z 0). now rewrite <- Zlt_Qlt.
  - rewrite Qmult_0_l. change 0 with (inject_Z 0). now rewrite <- Zle_Qle.
Qed.

(** The floor of a remainder modulo 60 of a ratio of whole numbers is the
    remainder of the whole quotient. *)
Lemma floor_rem_60 (x : Q) (d n : Z) :
  (0 <= d)%Z -> (0 < n)%Z -> x == inject_Z d / inject_Z n ->
  Qfloor (js_rem x 60) = ((d / n) mod 60)%Z.
Proof.
  intros Hd Hn Hx. unfold js_rem, Qtrunc.
  assert (Hq : x / 60 == inject_Z d / inject_Z (n * 60)).
  { rewrite Hx, inject_Z_mult. field.
    intro H. assert (n = 0%Z) by (apply inject_Z_injective; exact H). lia. }
  assert (Hpos : Qle_bool 0 (x / 60) = true).
  { apply Qle_bool_iff. rewrite Hq. apply ratio_nonneg; lia. }
  rewrite Hpos, (Qfloor_comp _ _ Hq), <- Zdiv_Qdiv.
  assert (He : x - 60 * inject_Z (d / (n * 60))
               == inject_Z d / inject_Z n - inject_Z (60 * (d / (n * 60)))).
  { rewrite Hx, inject_Z_mult. reflexivity. }
  rewrite (Qfloor_comp _ _ He), Qfloor_minus_Z, <- Zdiv_Qdiv.
  rewrite <- Z.div_div by lia.
  rewrite (Z.mod_eq (d / n) 60) by lia. reflexivity.
Qed.

(** X24.  The countdown shows nothing once the target is reached;
    before that, the hours are the whole hours left, the minutes and
    seconds lie between 0 and 59, and hours, minutes and seconds together
    account for the time left up to less than one second. *)
Theorem countdown_breaks_down (targetDate now : Z) :
  let difference := (targetDate - now)%Z in
  match calculateTimeLeft targetDate now with
  | None => (targetDate <= now)%Z
  | Some t =>
      (now < targetDate)%Z
      /\ hours t = (difference / 3600000)%Z
      /\ minutes t = ((difference / 60000) mod 60)%Z
      /\ seconds t = ((difference / 1000) mod 60)%Z
      /\ (0 <= hours t)%Z
      /\ (0 <= minutes t < 60)%Z
      /\ (0 <= seconds t < 60)%Z
      /\ (3600000 * hours t + 60000 * minutes t + 1000 * seconds t
          <= difference
          < 3600000 * hours t + 60000 * minutes t + 1000 * seconds t + 1000)%Z
  end.
Proof.
  intro difference. unfold calculateTimeLeft. fold difference.
  destruct (0 <? difference)%Z eqn:E.
  - apply Z.ltb_lt in E.
    assert (Hh : Qfloor (inject_Z difference / (1000 * 60 * 60))
                 = (difference / 3600000)%Z).
    { rewrite Zdiv_Qdiv. apply Qfloor_comp. reflexivity. }
    assert (Hm : Qfloor (js_rem (inject_Z difference / 1000 / 60) 60)
                 = ((difference / 60000) mod 60)%Z).
    { apply floor_rem_60; [lia|lia|]. field. }
    assert (Hs : Qfloor (js_rem (inject_Z difference / 1000) 60)
                 = ((difference / 1000) mod 60)%Z).
    { apply floor_rem_60; [lia|lia|]. reflexivity. }
    cbn [hours minutes seconds]. rewrite Hh, Hm, Hs.
    pose proof (Z.mod_pos_bound (difference / 60000) 60 ltac:(lia)) as B1.
    pose proof (Z.mod_pos_bound (difference / 1000) 60 ltac:(lia)) as B2.
    pose proof (Z.div_pos difference 3600000 ltac:(lia) ltac:(lia)) as B3.
    repeat split; try lia.
    + rewrite (Z.mod_eq (difference / 60000) 60), (Z.mod_eq (difference / 1000) 60) by lia.
      replace ((difference / 60000) / 60)%Z with (difference / 3600000)%Z
        by (rewrite Z.div_div by lia; reflexivity).
      replace ((difference / 1000) / 60)%Z with (difference / 60000)%Z
        by (rewrite Z.div_div by lia; reflexivity).
      pose proof (Z.mul_div_le difference 1000 ltac:(lia)). lia.
    + rewrite (Z.mod_eq (difference / 60000) 60), (Z.mod_eq (difference / 1000) 60) by lia.
      replace ((difference / 60000) / 60)%Z with (difference / 3600000)%Z
        by (rewrite Z.div_div by lia; reflexivity).
      replace ((difference / 1000) / 60)%Z with (difference / 60000)%Z
        by (rewrite Z.div_div by lia; reflexivity).
      pose proof (Z.div_mod difference 1000 ltac:(lia)).
      pose proof (Z.mod_pos_bound difference 1000 ltac:(lia)). lia.
  - apply Z.ltb_ge in E. lia.
Qed.
End CountdownClaims.

(** * The further properties on the scenario *)

Section MoreScenarioChecks.
Import Scenario MoreScenario.

Lemma history_distinct_timestamps :
  NoDup (map tx_createdAt (filter (ownedBy "c1") history)).
Proof.
  simpl. repeat constructor; simpl; intuition lia.
Qed.

Lemma site_log_pages_partition_witness :
  SiteWideLog.totalPages history < 2
  /\ SiteWideLog.paginatedTransactions history 2 = [].
Proof.
  split; [reflexivity|].
  apply (proj1 (proj2 (proj2 (proj2 (site_log_pages_partition history))))).
  reflexivity.
Defined.

Lemma page_requests_stay_in_range_witness :
  1 <= 1 <= SiteWideLog.totalPages history
  /\ SiteWideLog.paginatedTransactions
       history
       (fold_left (SiteWideLog.handlePageChange (SiteWideLog.totalPages history))
                  requests 1) <> [].
Proof.
  assert (H : 1 <= 1 <= SiteWideLog.totalPages history)
    by (split; intro; discriminate).
  split; [exact H|].
  exact (proj2 (page_requests_stay_in_range history requests 1 H)).
Defined.

Lemma period_filters_nested_witness :
  clock_startOfDay clock (-29) <= clock_startOfDay clock (-6)
  /\ clock_startOfDay clock (-6) <= clock_startOfDay clock 0
  /\ incl (map FinancialLedger.row_tx
               (FinancialLedger.transactionsWithRunningBalance
                  history "c1" (getDateRange clock "today")))
          (map FinancialLedger.row_tx
               (FinancialLedger.transactionsWithRunningBalance
                  history "c1" (getDateRange clock "last7"))).
Proof.
  assert (H1 : clock_startOfDay clock (-29) <= clock_startOfDay clock (-6))
    by (intro; discriminate).
  assert (H2 : clock_startOfDay clock (-6) <= clock_startOfDay clock 0)
    by (intro; discriminate).
  split; [exact H1|]. split; [exact H2|].
  exact (proj1 (period_filters_nested clock history "c1" H1 H2)).
Defined.

Lemma opening_comes_from_newest_earlier_transaction_witness :
  FinancialLedger.periodOpeningBalance
    (Some later) (FinancialLedger.allClientTxs history "c1") = 395.
Proof.
  exact (proj2 (proj2 (proj2 (proj2
           (opening_comes_from_newest_earlier_transaction history "c1" later))))).
Defined.

Lemma ledger_ignores_arrival_order_witness :
  Permutation history (rev history)
  /\ FinancialLedger.ledger history "c1" (Some later) 1
     = FinancialLedger.ledger (rev history) "c1" (Some later) 1.
Proof.
  split; [apply Permutation_rev|].
  apply ledger_ignores_arrival_order;
    [apply Permutation_rev|exact history_distinct_timestamps].
Defined.

Lemma both_ledgers_same_transactions_witness :
  FinancialLedgerCorrected.client [c1] None "c1" = Some c1
  /\ List.length
       (FinancialLedgerCorrected.detailedTransactions
          (FinancialLedgerCorrected.ledger history [c1] None "c1" (Some earlier)))
     = 5%nat.
Proof.
  split; [reflexivity|].
  rewrite (proj1 (proj2 (both_ledgers_same_transactions
                           history [c1] None "c1" (Some earlier) 1 c1 eq_refl))).
  reflexivity.
Defined.

Lemma ledgers_list_same_order_witness :
  map tx_id
      (map FinancialLedgerCorrected.row_tx
           (FinancialLedgerCorrected.detailedTransactions
              (FinancialLedgerCorrected.ledger history [c1] None "c1"
                                               (Some earlier))))
  = ["t5"%string; "t4"%string; "t3"%string; "t2"%string; "t1"%string].
Proof.
  rewrite (proj1 (ledgers_list_same_order history [c1] None "c1" (Some earlier) c1
                    eq_refl history_distinct_timestamps)).
  reflexivity.
Defined.

Lemma corrected_ledger_client_witness :
  FinancialLedgerCorrected.client [] (Some c1) "c1" = Some c1.
Proof.
  exact (proj1 (corrected_ledger_client history [] (Some c1) "c1" None)
               c1 eq_refl eq_refl eq_refl).
Defined.

Lemma admin_periods_chain_witness :
  range_start earlier <= range_end earlier
  /\ range_end earlier = range_start later
  /\ AdminWalletLedger.closingBalance
       (AdminWalletLedger.ledger [c1] (Some operator) history (Some earlier) 1)
     = AdminWalletLedger.openingBalance
         (AdminWalletLedger.ledger [c1] (Some operator) history (Some later) 1).
Proof.
  assert (H1 : range_start earlier <= range_end earlier) by (intro; discriminate).
  split; [exact H1|]. split; [reflexivity|].
  exact (admin_periods_chain [c1] (Some operator) history earlier later 1 1
                             H1 eq_refl).
Defined.

Lemma replaced_client_is_found_witness :
  client_id c1Topped = "c1"%string
  /\ clientMap_get (AppContext.replaceClient "c1" c1Topped [c1; operator]) "c1"
     = Some c1Topped
  /\ clientMap_get (AppContext.replaceClient "c1" c1Topped [c1; operator]) "a0"
     = Some operator.
Proof.
  split; [reflexivity|].
  destruct (replaced_client_is_found "c1" c1Topped [c1; operator] eq_refl)
    as (_ & H1 & H2 & _).
  split.
  - exact (H1 c1 eq_refl).
  - rewrite (H2 "a0"%string); [reflexivity|discriminate].
Defined.

Lemma toggle_expand_flips_one_witness :
  NoDup ["a0"%string; "c1"%string]
  /\ NoDup (ExpandedWinners.handleToggleExpand "c1" ["a0"%string; "c1"%string]).
Proof.
  assert (H : NoDup ["a0"%string; "c1"%string]).
  { repeat constructor; simpl; intuition discriminate. }
  split; [exact H|].
  exact (proj2 (proj2 (proj2 (toggle_expand_flips_one
                                "c1" ["a0"%string; "c1"%string]))) H).
Defined.
End MoreScenarioChecks.

Section MoreScenarioPrizes.
Import Scenario WinnersReport WinnersTable.

Lemma listed_bets_are_the_paying_bets_witness :
  draw_status _ draw = "FINISHED"%string
  /\ draw_winningNumbers _ draw = Some "34"%string
  /\ map (fun w => bet_id (wd_bet w)) (winners report)
     = ["b2"%string; "b5"%string].
Proof.
  split; [reflexivity|]. split; [reflexivity|].
  pose proof (proj1 (listed_bets_are_the_paying_bets
                       string sameNumber [c1] betsByDraw draw "34"%string
                       eq_refl eq_refl)) as H.
  apply (f_equal (map bet_id)) in H. rewrite map_map in H.
  exact H.
Defined.

Lemma no_report_without_finished_draw_witness :
  winners (winnersData string sameNumber [c1] betsByDraw None) = [].
Proof.
  exact (proj1 (no_report_without_finished_draw
                  string sameNumber [c1] betsByDraw None (or_introl eq_refl))).
Defined.

Lemma header_click_toggles_witness :
  sort_key initialSort <> ByStake
  /\ handleSort ByStake initialSort = mkSort ByStake Desc.
Proof.
  assert (H : sort_key initialSort <> ByStake) by discriminate.
  split; [exact H|].
  exact (proj1 (header_click_toggles ByStake initialSort (winners report)) H).
Defined.
End MoreScenarioPrizes.

(** * When the two client ledgers are right *)

Section LedgerSoundness.

Lemma replay_split (p : Transaction -> bool) (l : list Transaction) :
  fold_left applyTx l 0
  = fold_left applyTx (filter p l) 0
    + fold_left applyTx (filter (fun tx => negb (p tx)) l) 0.
Proof.
  induction l as [|tx r IH]; [reflexivity|].
  cbn [fold_left filter]. rewrite (replay_shift r (applyTx 0 tx)), IH.
  destruct (p tx); cbn [negb fold_left];
    rewrite (replay_shift _ (applyTx 0 tx)); lia.
Qed.

Lemma undo_is_minus_replay (l : list Transaction) (w : Z) :
  fold_left undoTx l w = w - fold_left applyTx l 0.
Proof.
  revert w. induction l as [|tx rest IH]; intro w; simpl; [lia|].
  rewrite IH, (replay_shift rest (applyTx 0 tx)).
  unfold undoTx, applyTx. destruct (tx_type tx); lia.
Qed.

(** X25.  The snapshot the ledger view opens a bounded period with is the
    balance reconstructed backward from the wallet whenever that snapshot
    is still true, that is, equal to the replay (reversed entries counting
    zero) of the client's transactions before the period, and the wallet is
    the signed sum of the client's non-reversed transactions.  A client
    with no transaction before the period needs no such assumption. *)
Theorem snapshot_opening_right_when_snapshot_true
        (transactions : list Transaction) (clientId : string)
        (r : DateRange) (wallet : Z) :
  let all := FinancialLedger.allClientTxs transactions clientId in
  wallet = signedSum transactions clientId ->
  (forall tx, FinancialLedger.lastTxBeforePeriod r all = Some tx ->
     tx_balanceAfter tx
     = fold_left applyTx
                 (filter (fun t => tx_createdAt t <? range_start r) all) 0) ->
  FinancialLedger.periodOpeningBalance (Some r) all
  = FinancialLedger.reconstructedOpeningBalance wallet r all.
Proof.
  intros all Hw Hsnap.
  unfold FinancialLedger.reconstructedOpeningBalance.
  rewrite undo_is_minus_replay.
  assert (Hwall : wallet = fold_left applyTx all 0).
  { rewrite Hw, <- replay_signedSum. subst all.
    apply replay_perm, sort_by_perm. }
  rewrite (replay_split (fun t => tx_createdAt t <? range_start r) all) in Hwall.
  assert (Hrev : fold_left applyTx
                   (filter (fun tx => range_start r <=? tx_createdAt tx) (rev all)) 0
                 = fold_left applyTx
                     (filter (fun tx => negb (tx_createdAt tx <? range_start r)) all) 0).
  { rewrite (filter_ext (fun tx => range_start r <=? tx_createdAt tx)
                        (fun tx => negb (tx_createdAt tx <? range_start r))).
    - apply replay_perm, filter_perm, Permutation_sym, Permutation_rev.
    - intro tx. rewrite Z.ltb_antisym, negb_involutive. reflexivity. }
  rewrite Hrev.
  unfold FinancialLedger.periodOpeningBalance.
  destruct (FinancialLedger.lastTxBeforePeriod r all) as [tx|] eqn:E.
  - rewrite (Hsnap tx eq_refl). lia.
  - unfold FinancialLedger.lastTxBeforePeriod in E.
    pose proof (js_find_first (fun tx => tx_createdAt tx <? range_start r) (rev all))
      as Hf.
    rewrite E in Hf.
    assert (Hnone : filter (fun t => tx_createdAt t <? range_start r) all = []).
    { apply length_zero_iff_nil.
      assert (Hall : Forall (fun y => (tx_createdAt y <? range_start r) = false) all).
      { apply Forall_forall. intros y Hy. rewrite Forall_forall in Hf.
        apply Hf. now apply -> in_rev. }
      clear -Hall. induction Hall as [|y l Hy _ IH]; [reflexivity|].
      cbn [filter]. cbv beta. now rewrite Hy. }
    rewrite Hnone in Hwall. simpl in Hwall. lia.
Qed.

End LedgerSoundness.

Section SoundnessWitnesses.
Import Scenario MoreScenario.

Lemma snapshot_opening_right_when_snapshot_true_witness :
  wallet = signedSum history "c1"
  /\ FinancialLedger.periodOpeningBalance
       (Some fromPrize) (FinancialLedger.allClientTxs history "c1")
     = FinancialLedger.reconstructedOpeningBalance
         wallet fromPrize (FinancialLedger.allClientTxs history "c1").
Proof.
  split; [reflexivity|].
  apply (snapshot_opening_right_when_snapshot_true history "c1" fromPrize wallet
           eq_refl).
  intros tx Htx. injection Htx as <-. reflexivity.
Defined.

End SoundnessWitnesses.

(** * The views on binary64 *)

(** ** Computations that are true to the decimals *)

Section ExactFolds.
Import Binary64.

Lemma toNumber_zero : toNumber 0 = 0%float.
Proof. reflexivity. Qed.

Lemma exactFold_spec {A : Type} (stepF : float -> A -> float)
      (stepZ : Z -> A -> Z) (l : list A) (z : Z) :
  exactFold stepF stepZ z l ->
  fold_left stepF l (toNumber z) = toNumber (fold_left stepZ l z).
Proof.
  revert z. induction l as [|x rest IH]; intros z H; simpl in *.
  - reflexivity.
  - destruct H as [Hx Hrest]. rewrite Hx. now apply IH.
Qed.

Lemma sumAmounts64_is_fold (txs : list Transaction) :
  ClientLedger.sumAmounts txs = fold_left addAmount64 txs 0%float.
Proof. reflexivity. Qed.
End ExactFolds.

(** ** FinancialLedger on doubles: the replay *)

Section ClientLedger64Facts.
Import Binary64.

Lemma withRunningBalance64_txs (rb : float) (txs : list Transaction) :
  map ClientLedger.row_tx (ClientLedger.withRunningBalance rb txs) = txs.
Proof.
  revert rb. induction txs as [|tx r IH]; intro rb; simpl; [reflexivity|].
  now rewrite IH.
Qed.

Lemma withRunningBalance64_nth (txs : list Transaction) (rb : float)
      (k : nat) (r : ClientLedger.Row) :
  nth_error (ClientLedger.withRunningBalance rb txs) k = Some r ->
  nth_error txs k = Some (ClientLedger.row_tx r) /\
  ClientLedger.runningBalance r
  = fold_left ClientLedger.applyTx (firstn (S k) txs) rb.
Proof.
  revert rb k. induction txs as [|tx rest IH]; intros rb k H.
  - destruct k; discriminate.
  - destruct k as [|k]; simpl in H.
    + injection H as <-. simpl. split; reflexivity.
    + apply IH in H. exact H.
Qed.

Lemma last_running64 (rest : list Transaction) (tx : Transaction)
      (rb dflt : float) :
  match js_last (ClientLedger.withRunningBalance rb (tx :: rest)) with
  | Some r => ClientLedger.runningBalance r
  | None => dflt
  end = fold_left ClientLedger.applyTx (tx :: rest) rb.
Proof.
  revert tx rb. induction rest as [|tx' rest IH]; intros tx rb.
  - reflexivity.
  - cbn [ClientLedger.withRunningBalance]. rewrite js_last_cons.
    exact (IH tx' (ClientLedger.applyTx rb tx)).
Qed.

Lemma closing64_is_replay (opening : float) (txs : list Transaction) :
  ClientLedger.periodClosingBalance
    opening (ClientLedger.withRunningBalance opening txs)
  = fold_left ClientLedger.applyTx txs opening.
Proof.
  unfold ClientLedger.periodClosingBalance.
  destruct txs as [|tx rest]; [reflexivity|].
  replace (0 <? Z.of_nat (List.length
                            (ClientLedger.withRunningBalance opening (tx :: rest))))
    with true by (symmetry; apply Z.ltb_lt; simpl; lia).
  apply last_running64.
Qed.

Lemma last_running_balance64 (txs : list Transaction) (rb dflt : float) :
  last (map ClientLedger.runningBalance
            (ClientLedger.withRunningBalance rb txs)) dflt
  = match txs with
    | [] => dflt
    | _ => fold_left ClientLedger.applyTx txs rb
    end.
Proof.
  revert rb. induction txs as [|tx rest IH]; intro rb; [reflexivity|].
  specialize (IH (ClientLedger.applyTx rb tx)).
  destruct rest as [|tx' rest]; [reflexivity|].
  exact IH.
Qed.

Lemma opening64_is_number (range : option DateRange) (all : list Transaction) :
  ClientLedger.periodOpeningBalance range all
  = toNumber (FinancialLedger.periodOpeningBalance range all).
Proof.
  unfold ClientLedger.periodOpeningBalance,
    FinancialLedger.periodOpeningBalance.
  destruct range as [r|]; [|reflexivity].
  destruct (FinancialLedger.lastTxBeforePeriod r all); reflexivity.
Qed.
End ClientLedger64Facts.

Section ClientLedger64Claims.
Import Binary64.

(** C1.  The "all time" view opens at zero, its rows are the client's
    transactions in chronological order, a transaction weighs its amount
    as a number, or zero once it is reversed, and is added for a Credit and
    subtracted for a Debit; each row's running balance is the replay from
    zero, on doubles, of the transactions up to that row, and the closing
    balance is what this replay ends on.  When the wallet is the signed sum of the
    client's non-reversed transactions and the replay is true to the
    decimals, the closing balance is the wallet as a number. *)
Theorem all_time_replay_on_doubles
        (clk : Clock) (transactions : list Transaction) (clientId : string)
        (wallet : Z) (currentPage : Z) :
  let range := getDateRange clk "all" in
  let v := ClientLedger.ledger transactions clientId range currentPage in
  let rows :=
    ClientLedger.transactionsWithRunningBalance transactions clientId range in
  let txs := map ClientLedger.row_tx rows in
  ClientLedger.openingBalance v = 0%float
  /\ Permutation (filter (ownedBy clientId) transactions) txs
  /\ StronglySorted (fun a b => tx_createdAt a <= tx_createdAt b) txs
  /\ (forall tx, ClientLedger.amountEffect tx
                 = if tx_isReversed tx then 0%float
                   else toNumber (tx_amount tx))
  /\ (forall rb tx, ClientLedger.applyTx rb tx
                    = match tx_type tx with
                      | Credit => (rb + ClientLedger.amountEffect tx)%float
                      | Debit => (rb - ClientLedger.amountEffect tx)%float
                      end)
  /\ (forall k r, nth_error rows k = Some r ->
        ClientLedger.runningBalance r
        = fold_left ClientLedger.applyTx (firstn (S k) txs) 0%float)
  /\ ClientLedger.closingBalance v
     = fold_left ClientLedger.applyTx txs 0%float
  /\ (wallet = signedSum transactions clientId ->
      exactFold ClientLedger.applyTx applyTx 0 txs ->
      ClientLedger.closingBalance v = toNumber wallet).
Proof.
  intros range v rows txs.
  change range with (@None DateRange) in *.
  assert (Htxs : txs = FinancialLedger.allClientTxs transactions clientId).
  { subst txs rows. unfold ClientLedger.transactionsWithRunningBalance. simpl.
    apply withRunningBalance64_txs. }
  assert (Hclose : ClientLedger.closingBalance v
                   = fold_left ClientLedger.applyTx txs 0%float).
  { rewrite Htxs. subst v. unfold ClientLedger.ledger. simpl.
    apply closing64_is_replay. }
  split; [reflexivity|].
  split; [rewrite Htxs; apply sort_by_perm|].
  split; [rewrite Htxs; apply allClientTxs_chronological|].
  split; [reflexivity|].
  split; [reflexivity|].
  split.
  { intros k r Hk. subst txs rows.
    unfold ClientLedger.transactionsWithRunningBalance in *. simpl in *.
    apply withRunningBalance64_nth in Hk.
    rewrite withRunningBalance64_txs. exact (proj2 Hk). }
  split; [exact Hclose|].
  intros Hw Hexact. rewrite Hclose, <- toNumber_zero.
  rewrite (exactFold_spec _ _ _ _ Hexact). f_equal.
  rewrite Htxs. unfold FinancialLedger.allClientTxs.
  rewrite <- (replay_perm _ _ (sort_by_perm FinancialLedger.oldest_first _)).
  rewrite replay_signedSum. now symmetry.
Qed.

(** C9.  For every client and every period the closing balance of the
    ledger view is the running balance of the last row of the period, or
    the opening balance when the period has no row: the replay on doubles
    of the period's transactions from the opening balance.  The two totals
    add up, from zero and in chronological order, the amounts of the
    non-reversed Credit, respectively Debit, transactions of the period.
    When the period is true to the decimals,
    closingBalance = openingBalance + totalCredit - totalDebit. *)
Theorem ledger_identity_on_doubles
        (transactions : list Transaction) (clientId : string)
        (range : option DateRange) (currentPage : Z) :
  let v := ClientLedger.ledger transactions clientId range currentPage in
  let rows :=
    ClientLedger.transactionsWithRunningBalance transactions clientId range in
  let all := FinancialLedger.allClientTxs transactions clientId in
  let inP := FinancialLedger.transactionsInPeriod range all in
  ClientLedger.closingBalance v
  = last (map ClientLedger.runningBalance rows) (ClientLedger.openingBalance v)
  /\ ClientLedger.closingBalance v
     = fold_left ClientLedger.applyTx inP (ClientLedger.openingBalance v)
  /\ ClientLedger.totalCredit (ClientLedger.summary v)
     = fold_left (fun sum tx => (sum + toNumber (tx_amount tx))%float)
                 (filter ClientLedger.liveCredit inP) 0%float
  /\ ClientLedger.totalDebit (ClientLedger.summary v)
     = fold_left (fun sum tx => (sum + toNumber (tx_amount tx))%float)
                 (filter ClientLedger.liveDebit inP) 0%float
  /\ (forall tx, ClientLedger.liveCredit tx = true
                 <-> tx_type tx = Credit /\ tx_isReversed tx = false)
  /\ (forall tx, ClientLedger.liveDebit tx = true
                 <-> tx_type tx = Debit /\ tx_isReversed tx = false)
  /\ (ledgerIsExact (FinancialLedger.periodOpeningBalance range all) inP ->
      ClientLedger.closingBalance v
      = (ClientLedger.openingBalance v
         + ClientLedger.totalCredit (ClientLedger.summary v)
         - ClientLedger.totalDebit (ClientLedger.summary v))%float).
Proof.
  intros v rows all inP.
  assert (Hclose : ClientLedger.closingBalance v
                   = fold_left ClientLedger.applyTx inP
                               (ClientLedger.openingBalance v)).
  { subst v. unfold ClientLedger.ledger.
    cbn [ClientLedger.closingBalance ClientLedger.openingBalance].
    apply closing64_is_replay. }
  split.
  { rewrite Hclose. subst v rows.
    unfold ClientLedger.ledger, ClientLedger.transactionsWithRunningBalance.
    cbn [ClientLedger.openingBalance]. fold all. fold inP.
    rewrite last_running_balance64. destruct inP; reflexivity. }
  split; [exact Hclose|].
  split; [reflexivity|].
  split; [reflexivity|].
  split.
  { intro tx. unfold ClientLedger.liveCredit.
    rewrite andb_true_iff, negb_true_iff.
    destruct (tx_type tx); simpl; intuition congruence. }
  split.
  { intro tx. unfold ClientLedger.liveDebit.
    rewrite andb_true_iff, negb_true_iff.
    destruct (tx_type tx); simpl; intuition congruence. }
  intros (Hreplay & Hcredit & Hdebit & Hadd & Hsub).
  rewrite Hclose.
  assert (Ho : ClientLedger.openingBalance v
               = toNumber (FinancialLedger.periodOpeningBalance range all)).
  { subst v. unfold ClientLedger.ledger. cbn [ClientLedger.openingBalance].
    apply opening64_is_number. }
  assert (Hc : ClientLedger.totalCredit (ClientLedger.summary v)
               = toNumber (FinancialLedger.periodTotalCredit inP)).
  { subst v. unfold ClientLedger.ledger.
    cbn [ClientLedger.summary ClientLedger.totalCredit]. fold all. fold inP.
    unfold ClientLedger.periodTotalCredit.
    rewrite sumAmounts64_is_fold, <- toNumber_zero.
    rewrite (exactFold_spec _ _ _ _ Hcredit). reflexivity. }
  assert (Hd : ClientLedger.totalDebit (ClientLedger.summary v)
               = toNumber (FinancialLedger.periodTotalDebit inP)).
  { subst v. unfold ClientLedger.ledger.
    cbn [ClientLedger.summary ClientLedger.totalDebit]. fold all. fold inP.
    unfold ClientLedger.periodTotalDebit.
    rewrite sumAmounts64_is_fold, <- toNumber_zero.
    rewrite (exactFold_spec _ _ _ _ Hdebit). reflexivity. }
  rewrite Ho, Hc, Hd, Hadd, Hsub.
  rewrite (exactFold_spec _ _ _ _ Hreplay). f_equal.
  rewrite replay_shift, replay_totals. lia.
Qed.
End ClientLedger64Claims.

(** ** AdminWalletLedger on doubles *)

Section AdminLedger64Facts.
Import Binary64.

Lemma splitPeriod64_all (ms acc : list AdminLedger.Movement) (z : float) :
  fold_left (AdminLedger.splitStep None) ms (z, acc) = (z, acc ++ ms).
Proof.
  revert acc. induction ms as [|m r IH]; intro acc; simpl.
  - now rewrite app_nil_r.
  - rewrite IH, <- app_assoc. reflexivity.
Qed.

Lemma beforeEnd64_all (ms : list AdminLedger.Movement) :
  filter (AdminLedger.beforeEnd None) ms = ms.
Proof.
  induction ms as [|m r IH]; simpl; [reflexivity|]. now rewrite IH.
Qed.

Lemma toEntries64_length (rb : float) (ms : list AdminLedger.Movement) :
  List.length (AdminLedger.toEntries rb ms) = List.length ms.
Proof.
  revert rb. induction ms as [|m r IH]; intro rb; simpl; [reflexivity|].
  now rewrite IH.
Qed.

Lemma last_entry_balance64 (rest : list AdminLedger.Movement)
      (m : AdminLedger.Movement) (rb dflt : float) :
  match js_last (AdminLedger.toEntries rb (m :: rest)) with
  | Some e => AdminLedger.balanceAfter e
  | None => dflt
  end
  = fold_left (fun sum m => (sum + AdminLedger.movement m)%float) (m :: rest) rb.
Proof.
  revert m rb. induction rest as [|m' rest IH]; intros m rb.
  - reflexivity.
  - cbn [AdminLedger.toEntries]. rewrite js_last_cons.
    exact (IH m' (rb + AdminLedger.movement m)%float).
Qed.

Lemma last_balanceAfter64 (ms : list AdminLedger.Movement) (rb dflt : float) :
  last (map AdminLedger.balanceAfter (AdminLedger.toEntries rb ms)) dflt
  = match ms with
    | [] => dflt
    | _ => fold_left (fun sum m => (sum + AdminLedger.movement m)%float) ms rb
    end.
Proof.
  revert rb. induction ms as [|m rest IH]; intro rb; [reflexivity|].
  specialize (IH (rb + AdminLedger.movement m)%float).
  destruct rest as [|m' rest]; [reflexivity|].
  exact IH.
Qed.

Lemma admin_closing64_is_fold (opening : float) (ms : list AdminLedger.Movement) :
  AdminLedger.periodClosingBalance opening (AdminLedger.toEntries opening ms)
  = fold_left (fun sum m => (sum + AdminLedger.movement m)%float) ms opening.
Proof.
  unfold AdminLedger.periodClosingBalance.
  destruct ms as [|m rest]; [reflexivity|].
  replace (0 <? Z.of_nat (List.length (AdminLedger.toEntries opening (m :: rest))))
    with true by (symmetry; apply Z.ltb_lt; simpl; lia).
  apply last_entry_balance64.
Qed.

Lemma movements64_fold (clients : list Client) (txs : list Transaction) (z : float) :
  fold_left (fun sum m => (sum + AdminLedger.movement m)%float)
            (map (AdminLedger.mirror clients) txs) z
  = fold_left (addMovement64 clients) txs z.
Proof.
  revert z. induction txs as [|tx r IH]; intro z; [reflexivity|].
  cbn [map fold_left]. now rewrite IH.
Qed.

Lemma admin_all_time_unfold (clients : list Client) (currentClient : option Client)
      (transactions : list Transaction) (currentPage : Z) :
  let ms := AdminLedger.adminMovements clients transactions in
  let opening := AdminLedger.adminWalletAtStartOfTime currentClient ms in
  AdminLedger.openingBalance
    (AdminLedger.ledger clients currentClient transactions None currentPage)
  = opening
  /\ AdminLedger.closingBalance
       (AdminLedger.ledger clients currentClient transactions None currentPage)
     = AdminLedger.periodClosingBalance opening (AdminLedger.toEntries opening ms)
  /\ AdminLedger.ledgerEntriesInPeriod clients currentClient transactions None
     = AdminLedger.toEntries opening ms.
Proof.
  intros ms opening.
  unfold AdminLedger.ledger, AdminLedger.ledgerEntriesInPeriod,
    AdminLedger.splitPeriod.
  fold ms. fold opening.
  rewrite splitPeriod64_all. cbn [app]. rewrite beforeEnd64_all.
  repeat split.
Qed.
End AdminLedger64Facts.

Section AdminLedger64Claims.
Import Binary64.

(** C4.  Under the "all time" filter the admin ledger starts from the
    admin's current wallet (zero when nobody is logged in) minus the total
    net mirrored movement, both on doubles, a movement being minus the
    amount of a client Credit, the amount of a client Debit, and zero for a
    reversed transaction; every movement is in the period; and the closing balance, which is the balance of the last
    entry, or the opening balance when there is no entry, is the opening
    balance with every movement added back in chronological order.  When
    all this is true to the decimals, the closing balance is the admin's
    current wallet. *)
Theorem admin_all_time_on_doubles
        (clk : Clock) (clients : list Client) (currentClient : option Client)
        (transactions : list Transaction) (currentPage : Z) :
  let range := getDateRange clk "all" in
  let v := AdminLedger.ledger clients currentClient transactions range currentPage in
  let ms := AdminLedger.adminMovements clients transactions in
  let entries :=
    AdminLedger.ledgerEntriesInPeriod clients currentClient transactions range in
  AdminLedger.currentWallet currentClient
  = match currentClient with
    | Some c => orZero (toNumber (client_wallet c))
    | None => 0%float
    end
  /\ (forall tx,
        AdminLedger.movement (AdminLedger.mirror clients tx)
        = let amount := if tx_isReversed tx then 0%float
                        else toNumber (tx_amount tx) in
          match tx_type tx with
          | Credit => (- amount)%float
          | Debit => amount
          end)
  /\ ms = map (AdminLedger.mirror clients)
              (AdminWalletLedger.allClientTxs transactions)
  /\ AdminLedger.openingBalance v
     = (AdminLedger.currentWallet currentClient
        - fold_left (fun sum m => sum + AdminLedger.movement m) ms 0)%float
  /\ List.length entries = List.length transactions
  /\ AdminLedger.closingBalance v
     = last (map AdminLedger.balanceAfter entries) (AdminLedger.openingBalance v)
  /\ AdminLedger.closingBalance v
     = fold_left (fun sum m => (sum + AdminLedger.movement m)%float) ms
                 (AdminLedger.openingBalance v)
  /\ (forall c, currentClient = Some c ->
        adminIsExact clients (client_wallet c)
                     (AdminWalletLedger.allClientTxs transactions) ->
        AdminLedger.closingBalance v = toNumber (client_wallet c)).
Proof.
  intros range v ms entries.
  change range with (@None DateRange) in *.
  destruct (admin_all_time_unfold clients currentClient transactions currentPage)
    as (Ho & Hc & He).
  fold ms in Ho, Hc, He. fold v in Ho, Hc. fold entries in He.
  rewrite admin_closing64_is_fold in Hc. rewrite <- Ho in Hc.
  split; [reflexivity|].
  split; [reflexivity|].
  split; [reflexivity|].
  split; [exact Ho|].
  split.
  { rewrite He, toEntries64_length. subst ms.
    unfold AdminLedger.adminMovements, AdminWalletLedger.allClientTxs.
    rewrite length_map. symmetry. apply Permutation_length, sort_by_perm. }
  split.
  { rewrite Hc, He, last_balanceAfter64, <- Ho. destruct ms; reflexivity. }
  split; [exact Hc|].
  intros c -> (Hwallet & Htotal & Hsub & Hback).
  rewrite Hc, Ho. subst ms.
  unfold AdminLedger.adminWalletAtStartOfTime, AdminLedger.totalNetMovement,
    AdminLedger.adminMovements, AdminLedger.currentWallet.
  rewrite !movements64_fold, Hwallet, <- toNumber_zero.
  rewrite (exactFold_spec _ _ _ _ Htotal), Hsub.
  rewrite (exactFold_spec _ _ _ _ Hback). f_equal.
  set (txs := AdminWalletLedger.allClientTxs transactions).
  assert (Hshift : forall l z, fold_left (addMovement clients) l z
                               = z + fold_left (addMovement clients) l 0).
  { induction l as [|tx r IH]; intro z; cbn [fold_left]; [lia|].
    rewrite (IH (addMovement clients z tx)), (IH (addMovement clients 0 tx)).
    unfold addMovement. lia. }
  rewrite Hshift. lia.
Qed.
End AdminLedger64Claims.

(** ** WinnersReport on doubles: rates and prizes *)

Section Winners64Facts.
Import Binary64.

Variable WinningNumbers : Type.
Variable isBetWinner : WinnersReport.Bet -> WinningNumbers -> bool.

Let settleStep := Winners.settleStep WinningNumbers isBetWinner.
Let paysPrize := Winners.paysPrize WinningNumbers isBetWinner.
Let awarded := Winners.awarded WinningNumbers isBetWinner.

Lemma ratePositive64_iff (rate : option float) :
  Winners.ratePositive rate = true
  <-> exists r, rate = Some r /\ (0 <? r)%float = true.
Proof.
  unfold Winners.ratePositive. destruct rate as [r|].
  - split; [intro H; exists r; auto|]. intros (r' & [= <-] & H). exact H.
  - split; [discriminate|]. intros (r & H & _). discriminate.
Qed.

(** What one turn of the loop does, by cases. *)
Lemma settleStep64_cases (clients : list Client) (wn : WinningNumbers)
      (st : Winners.WinnersData) (bet : WinnersReport.Bet) :
  (settleStep clients wn st bet = st /\ paysPrize clients wn bet = false)
  \/ (exists c rates rate,
         isBetWinner bet wn = true
         /\ clientMap_get clients (WinnersReport.bet_clientId bet) = Some c
         /\ client_prizeRates c = Some rates
         /\ Winners.resolveRate rates bet = Some rate
         /\ (0 <? rate)%float = true
         /\ paysPrize clients wn bet = true
         /\ settleStep clients wn st bet
            = Winners.mkWinnersData
                (Winners.winners st
                   ++ [Winners.mkDetail bet c
                         (Winners.prizeOf (WinnersReport.bet_stake bet) rate)])
                (Winners.totalPayout st
                 + Winners.prizeOf (WinnersReport.bet_stake bet) rate)%float).
Proof.
  subst settleStep paysPrize. unfold Winners.settleStep, Winners.paysPrize.
  destruct (isBetWinner bet wn); [|left; auto].
  destruct (clientMap_get clients (WinnersReport.bet_clientId bet)) as [c|];
    [|left; auto].
  destruct (client_prizeRates c) as [rates|] eqn:Er; [|left; auto].
  destruct (Winners.ratePositive (Winners.resolveRate rates bet)) eqn:Ep.
  - right. pose proof Ep as Ep'. apply ratePositive64_iff in Ep'.
    destruct Ep' as (r & Hr & Hpos).
    rewrite Hr. exists c, rates, r. repeat split; auto.
  - left. auto.
Qed.

Lemma settle_fold64 (clients : list Client) (wn : WinningNumbers)
      (bets : list WinnersReport.Bet) (st : Winners.WinnersData) :
  let st' := fold_left (settleStep clients wn) bets st in
  exists new,
    Winners.winners st' = Winners.winners st ++ new
    /\ Winners.totalPayout st'
       = fold_left (fun sum w => (sum + Winners.wd_prizeWon w)%float) new
                   (Winners.totalPayout st)
    /\ Forall (awarded clients wn) new
    /\ map Winners.wd_bet new = filter (paysPrize clients wn) bets.
Proof.
  revert st. induction bets as [|bet rest IH]; intro st; simpl.
  - exists []. rewrite app_nil_r. simpl. repeat split; auto.
  - destruct (settleStep64_cases clients wn st bet)
      as [[Hsame Hno]|(c & rates & rate & Hw & Hc & Hr & Hrate & Hpos & Hyes & Hstep)].
    + rewrite Hsame, Hno. exact (IH st).
    + rewrite Hstep, Hyes.
      destruct (IH (Winners.mkWinnersData
                      (Winners.winners st
                         ++ [Winners.mkDetail bet c
                               (Winners.prizeOf (WinnersReport.bet_stake bet) rate)])
                      (Winners.totalPayout st
                       + Winners.prizeOf (WinnersReport.bet_stake bet) rate)%float))
        as (new & Hn & Ht & Ha & Hb).
      exists (Winners.mkDetail bet c
                (Winners.prizeOf (WinnersReport.bet_stake bet) rate) :: new).
      simpl in Hn, Ht. repeat split.
      * rewrite Hn, <- app_assoc. reflexivity.
      * rewrite Ht. reflexivity.
      * constructor; [|exact Ha]. exists rates, rate. simpl. repeat split; auto.
      * simpl. now rewrite Hb.
Qed.

Lemma winnersData64_spec (clients : list Client)
      (betsByDraw : string -> option (list WinnersReport.Bet))
      (draw : option (WinnersReport.Draw WinningNumbers)) :
  let d := Winners.winnersData WinningNumbers isBetWinner clients betsByDraw draw in
  Winners.totalPayout d
  = fold_left (fun sum w => (sum + Winners.wd_prizeWon w)%float)
              (Winners.winners d) 0%float
  /\ (forall w, In w (Winners.winners d) ->
        exists dr wn, draw = Some dr
          /\ WinnersReport.draw_status _ dr = "FINISHED"%string
          /\ WinnersReport.draw_winningNumbers _ dr = Some wn
          /\ awarded clients wn w
          /\ In (Winners.wd_bet w) (WinnersReport.drawBets _ betsByDraw dr))
  /\ (forall dr wn, draw = Some dr ->
        WinnersReport.draw_status _ dr = "FINISHED"%string ->
        WinnersReport.draw_winningNumbers _ dr = Some wn ->
        map Winners.wd_bet (Winners.winners d)
        = filter (paysPrize clients wn) (WinnersReport.drawBets _ betsByDraw dr)).
Proof.
  unfold Winners.winnersData.
  destruct draw as [dr|];
    [|simpl; split; [reflexivity|split; [contradiction|discriminate]]].
  destruct (String.eqb (WinnersReport.draw_status _ dr) "FINISHED") eqn:Es.
  2:{ simpl. split; [reflexivity|]. split; [contradiction|].
      intros dr' wn [= <-] Hs. apply String.eqb_eq in Hs. congruence. }
  destruct (WinnersReport.draw_winningNumbers _ dr) as [wn|] eqn:Ew.
  2:{ simpl. split; [reflexivity|]. split; [contradiction|].
      intros dr' wn [= <-] _ Hn. congruence. }
  cbn [negb].
  destruct (settle_fold64 clients wn (WinnersReport.drawBets _ betsByDraw dr)
                          (Winners.mkWinnersData [] 0%float))
    as (new & Hn & Ht & Ha & Hb).
  cbv zeta. fold settleStep. simpl in Hn, Ht. rewrite Hn. split; [exact Ht|].
  split.
  - intros w Hw. exists dr, wn.
    apply String.eqb_eq in Es.
    rewrite Forall_forall in Ha. repeat split; auto.
    apply (in_map Winners.wd_bet) in Hw. rewrite Hb in Hw.
    apply filter_In in Hw. exact (proj1 Hw).
  - intros dr' wn' [= <-] _ Hn'. rewrite Ew in Hn'. injection Hn' as <-. exact Hb.
Qed.
End Winners64Facts.

Section Winners64Claims.
Import Binary64.

Variable WinningNumbers : Type.
Variable isBetWinner : WinnersReport.Bet -> WinningNumbers -> bool.

Let Draw := WinnersReport.Draw WinningNumbers.
Let winnersData := Winners.winnersData WinningNumbers isBetWinner.
Let settleStep := Winners.settleStep WinningNumbers isBetWinner.

(** C5.  Every bet listed by the report is a winning bet of the draw, and
    its prize is stake * (rate / 100) on doubles: the rate, which is the
    positive payout percentage resolved from the rate table of the bet's
    client and read as a number, is divided by 100 first and the stake is
    multiplied by the quotient.  Conversely every winning bet of a finished draw whose client
    is known and has a rate table with a positive rate for it is listed
    with that prize.  A winning bet whose client has no rate table, or whose
    resolved rate is undefined, zero or otherwise not above zero, leaves
    the winners and the total payout as they were: it gets no prize, is
    absent from the report, and the report is still produced.  The total
    payout adds up the listed prizes from zero, in the order of the bets. *)
Theorem prize_is_stake_times_rate_percent
        (clients : list Client)
        (betsByDraw : string -> option (list WinnersReport.Bet))
        (draw : option Draw) :
  let d := winnersData clients betsByDraw draw in
  (forall w, In w (Winners.winners d) ->
     exists dr wn rates rate,
       draw = Some dr /\ WinnersReport.draw_winningNumbers _ dr = Some wn
       /\ In (Winners.wd_bet w) (WinnersReport.drawBets _ betsByDraw dr)
       /\ isBetWinner (Winners.wd_bet w) wn = true
       /\ clientMap_get clients (WinnersReport.bet_clientId (Winners.wd_bet w))
          = Some (Winners.wd_client w)
       /\ client_prizeRates (Winners.wd_client w) = Some rates
       /\ Winners.resolveRate rates (Winners.wd_bet w) = Some rate
       /\ (0 <? rate)%float = true
       /\ Winners.wd_prizeWon w
          = (toNumber (WinnersReport.bet_stake (Winners.wd_bet w))
             * (rate / 100))%float)
  /\ (forall dr wn bet c rates rate,
        draw = Some dr ->
        WinnersReport.draw_status _ dr = "FINISHED"%string ->
        WinnersReport.draw_winningNumbers _ dr = Some wn ->
        In bet (WinnersReport.drawBets _ betsByDraw dr) ->
        isBetWinner bet wn = true ->
        clientMap_get clients (WinnersReport.bet_clientId bet) = Some c ->
        client_prizeRates c = Some rates ->
        Winners.resolveRate rates bet = Some rate ->
        (0 <? rate)%float = true ->
        In (Winners.mkDetail bet c
              (toNumber (WinnersReport.bet_stake bet) * (rate / 100))%float)
           (Winners.winners d))
  /\ (forall bet c,
        clientMap_get clients (WinnersReport.bet_clientId bet) = Some c ->
        (client_prizeRates c = None
         \/ exists rates, client_prizeRates c = Some rates
              /\ (Winners.resolveRate rates bet = None
                  \/ Winners.resolveRate rates bet = Some 0%float
                  \/ exists r, Winners.resolveRate rates bet = Some r
                               /\ (0 <? r)%float = false)) ->
        (forall wn st, settleStep clients wn st bet = st)
        /\ (forall w, In w (Winners.winners d) -> Winners.wd_bet w <> bet))
  /\ Winners.totalPayout d
     = fold_left (fun sum w => (sum + Winners.wd_prizeWon w)%float)
                 (Winners.winners d) 0%float
  /\ (forall rates bet,
        Winners.resolveRate rates bet
        = option_map rateNumber (WinnersReport.resolveRate rates bet)).
Proof.
  intro d.
  destruct (winnersData64_spec WinningNumbers isBetWinner clients betsByDraw draw)
    as (Htotal & Hw & Hlisted).
  fold winnersData in Htotal, Hw, Hlisted. fold d in Htotal, Hw, Hlisted.
  split; [|split; [|split; [|split; [exact Htotal|reflexivity]]]].
  - intros w Hin. destruct (Hw w Hin) as (dr & wn & Hd & _ & Hwn & Ha & Hb).
    destruct Ha as (rates & rate & H1 & H2 & H3 & H4 & H5 & H6).
    exists dr, wn, rates, rate. repeat split; auto.
  - intros dr wn bet c rates rate Hd Hs Hn Hin Hwin Hc Hr Hrate Hpos.
    assert (Hpay : Winners.paysPrize WinningNumbers isBetWinner clients wn bet = true).
    { unfold Winners.paysPrize. rewrite Hwin, Hc, Hr, Hrate. exact Hpos. }
    assert (Hb : In bet (map Winners.wd_bet (Winners.winners d))).
    { rewrite (Hlisted dr wn Hd Hs Hn). apply filter_In. auto. }
    apply in_map_iff in Hb. destruct Hb as (w & Hbet & Hinw).
    destruct (Hw w Hinw) as (dr' & wn' & Hd' & _ & Hn' & Ha & _).
    destruct Ha as (rates' & rate' & _ & H2 & H3 & H4 & _ & H6).
    rewrite Hbet in H2, H4, H6. rewrite Hc in H2. injection H2 as H2.
    rewrite <- H2, Hr in H3. injection H3 as <-.
    rewrite Hrate in H4. injection H4 as <-.
    replace (Winners.mkDetail bet c
               (toNumber (WinnersReport.bet_stake bet) * (rate / 100))%float)
      with w; [exact Hinw|].
    destruct w as [wb wc wp]. simpl in *. subst. reflexivity.
  - intros bet c Hc Hrate.
    assert (Hnot : forall rates, client_prizeRates c = Some rates ->
                     Winners.ratePositive (Winners.resolveRate rates bet) = false).
    { intros rates Hr.
      destruct Hrate as [Hnone|(rates' & Hr' & Hcase)]; [congruence|].
      assert (rates' = rates) by congruence. subst rates'.
      destruct Hcase as [->|[->|(r & -> & Hq)]]; [reflexivity|reflexivity|exact Hq]. }
    split.
    + intros wn st. subst settleStep. unfold Winners.settleStep.
      destruct (isBetWinner bet wn); [|reflexivity].
      rewrite Hc. destruct (client_prizeRates c) as [rates|]; [|reflexivity].
      now rewrite (Hnot rates eq_refl).
    + intros w Hin Heq.
      destruct (Hw w Hin) as (dr & wn & _ & _ & _ & Ha & _).
      destruct Ha as (rates & rate & _ & H2 & H3 & H4 & H5 & _).
      rewrite Heq, Hc in H2. injection H2 as H2. subst c.
      specialize (Hnot rates H3). rewrite Heq in H4. rewrite H4 in Hnot.
      simpl in Hnot. congruence.
Qed.
End Winners64Claims.

(** ** WinnersReport on doubles: grouping by client *)

Section Groups64Facts.
Import Binary64.


















End Groups64Facts.

Section Groups64Claims.
Import Binary64.

Variable WinningNumbers : Type.
Variable isBetWinner : WinnersReport.Bet -> WinningNumbers -> bool.

End Groups64Claims.

(** * The views on binary64, evaluated *)

Section Binary64Scenarios.
Import Binary64.

(** On deposits of 0.10 and 0.20 the wallet, 0.30, is the signed sum of the
    transactions, and the "all time" view closes at 0.30000000000000004,
    which is not the number 0.3. *)
Lemma all_time_closing_is_off_by_rounding :
  client_wallet Cents.depositor = signedSum Cents.deposits "c1"
  /\ (ClientLedger.closingBalance
        (ClientLedger.ledger Cents.deposits "c1"
                             (getDateRange Scenario.clock "all") 1)
      =? toNumber (client_wallet Cents.depositor))%float = false.
Proof. split; reflexivity. Qed.

(** On a deposit of 0.10, a bet of 0.30 and a deposit of 0.20 the view of
    all time closes at 2.7755575615628914e-17, while
    openingBalance + totalCredit - totalDebit is 5.5511151231257827e-17. *)
Lemma accounting_identity_is_off_by_rounding :
  let v := ClientLedger.ledger Cents.mixed "c1" None 1 in
  (ClientLedger.closingBalance v
   =? ClientLedger.openingBalance v
      + ClientLedger.totalCredit (ClientLedger.summary v)
      - ClientLedger.totalDebit (ClientLedger.summary v))%float = false.
Proof. reflexivity. Qed.

(** With an admin wallet of 0.30 and client bets of 0.10 and 0.20 the
    admin ledger of all time opens at -5.5511151231257827e-17 and closes
    at 0.29999999999999993, which is not the wallet. *)
Lemma admin_closing_is_off_by_rounding :
  let v := AdminLedger.ledger [] (Some Cents.operator) Cents.stakes
                              (getDateRange Scenario.clock "all") 1 in
  AdminLedger.currentWallet (Some Cents.operator)
  = toNumber (client_wallet Cents.operator)
  /\ (AdminLedger.closingBalance v
      =? toNumber (client_wallet Cents.operator))%float = false.
Proof. split; reflexivity. Qed.

(** A stake of 3.00 at a rate of 10 is paid 3 * (10 / 100), which is
    0.30000000000000004, and not 3 * 10 / 100, which is the number 0.3. *)
Lemma prize_is_not_stake_times_rate_over_100 :
  let d := Winners.winnersData string Scenario.sameNumber [Cents.carol]
                               Cents.carolBets (Some Scenario.draw) in
  exists w rate,
    Winners.winners d = [w]
    /\ Winners.wd_bet w = Cents.carolBet
    /\ Winners.resolveRate Cents.tenPercent Cents.carolBet = Some rate
    /\ (Winners.wd_prizeWon w
        =? toNumber (WinnersReport.bet_stake Cents.carolBet) * rate / 100)%float
       = false.
Proof.
  eexists. eexists.
  split; [reflexivity|]. split; [reflexivity|]. split; reflexivity.
Qed.


Lemma all_time_replay_on_doubles_witness :
  WholeUnits.wallet = signedSum WholeUnits.history "c1"
  /\ ClientLedger.closingBalance
       (ClientLedger.ledger WholeUnits.history "c1"
                            (getDateRange Scenario.clock "all") 1)
     = toNumber WholeUnits.wallet.
Proof.
  split; [reflexivity|].
  destruct (all_time_replay_on_doubles Scenario.clock WholeUnits.history "c1"
                                       WholeUnits.wallet 1)
    as (_ & _ & _ & _ & _ & _ & _ & H).
  apply H; [reflexivity|]. vm_compute. repeat split.
Defined.

Lemma ledger_identity_on_doubles_witness :
  let v := ClientLedger.ledger WholeUnits.history "c1" (Some Scenario.later) 1 in
  ClientLedger.closingBalance v
  = (ClientLedger.openingBalance v
     + ClientLedger.totalCredit (ClientLedger.summary v)
     - ClientLedger.totalDebit (ClientLedger.summary v))%float
  /\ ClientLedger.closingBalance v = toNumber 37500.
Proof.
  intro v.
  destruct (ledger_identity_on_doubles WholeUnits.history "c1"
                                       (Some Scenario.later) 1)
    as (_ & _ & _ & _ & _ & _ & H).
  split; [|reflexivity].
  apply H. vm_compute. repeat split.
Defined.

Lemma admin_all_time_on_doubles_witness :
  adminIsExact [WholeUnits.c1] (client_wallet WholeUnits.operator)
               (AdminWalletLedger.allClientTxs WholeUnits.history)
  /\ AdminLedger.closingBalance
       (AdminLedger.ledger [WholeUnits.c1] (Some WholeUnits.operator)
                           WholeUnits.history
                           (getDateRange Scenario.clock "all") 1)
     = toNumber (client_wallet WholeUnits.operator).
Proof.
  assert (H : adminIsExact [WholeUnits.c1] (client_wallet WholeUnits.operator)
                           (AdminWalletLedger.allClientTxs WholeUnits.history))
    by (vm_compute; repeat split).
  split; [exact H|].
  destruct (admin_all_time_on_doubles Scenario.clock [WholeUnits.c1]
              (Some WholeUnits.operator) WholeUnits.history 1)
    as (_ & _ & _ & _ & _ & _ & _ & Hc).
  exact (Hc WholeUnits.operator eq_refl H).
Defined.

Lemma prize_is_stake_times_rate_percent_witness :
  let b := nth 1 WholeUnits.bets (Scenario.bet "" "" WinnersReport.Positional First) in
  WinnersReport.bet_id b = "b2"%string
  /\ In (Winners.mkDetail b WholeUnits.c1
           (toNumber (WinnersReport.bet_stake b) * (rateNumber 90 / 100))%float)
        (Winners.winners WholeUnits.report).
Proof.
  intro b. split; [reflexivity|].
  destruct (prize_is_stake_times_rate_percent string Scenario.sameNumber
              [WholeUnits.c1] WholeUnits.betsByDraw (Some Scenario.draw))
    as (_ & H & _).
  apply (H Scenario.draw "34"%string b WholeUnits.c1 Scenario.singleFirst90
           (rateNumber 90)); try reflexivity.
  simpl. tauto.
Defined.

End Binary64Scenarios.
